(** * simple-web-host: request validation, response recording and log retention

    A shallow embedding of [main.go].  Go strings are byte sequences and are
    modelled as [list ascii]; Go's [int] and [int64] are [Z] (with the
    wrap-around written out where a value is computed from an input).  The
    functions of Go's standard library that the program calls ([strings],
    [path/filepath] on Unix, [time]) are embedded from their Go 1.23
    definitions, the toolchain the Dockerfile pins. *)

From Stdlib Require Import ZArith Ascii String List Bool Lia.
From stdpp Require Import base decidable option list gmap strings.

Local Open Scope Z_scope.

(** Go string literals. *)
Abbreviation gostring := (list ascii).
Notation "$ s" := (list_ascii_of_string s) (at level 1, format "$ s").

(** ** Package [strings] *)
Module Strings.

(** [strings.HasPrefix]: [len(s) >= len(prefix) && s[:len(prefix)] == prefix]. *)
Definition HasPrefix (s prefix : gostring) : bool :=
  (length prefix <=? length s)%nat && bool_decide (take (length prefix) s = prefix).

(** [strings.HasSuffix]: [len(s) >= len(suffix) && s[len(s)-len(suffix):] == suffix]. *)
Definition HasSuffix (s suffix : gostring) : bool :=
  (length suffix <=? length s)%nat
  && bool_decide (drop (length s - length suffix) s = suffix).

(** [strings.TrimPrefix]: drops [prefix] once when [s] starts with it. *)
Definition TrimPrefix (s prefix : gostring) : gostring :=
  if HasPrefix s prefix then drop (length prefix) s else s.

(** [strings.Contains s substr] is [Index(s, substr) >= 0]: some suffix of
    [s] starts with [substr]. *)
Fixpoint Contains (s substr : gostring) : bool :=
  HasPrefix s substr ||
  match s with
  | [] => false
  | _ :: s' => Contains s' substr
  end.

Definition isASCII (c : ascii) : bool := (nat_of_ascii c <? 128)%nat.

Definition lowerByte (c : ascii) : ascii :=
  let n := nat_of_ascii c in
  if (65 <=? n)%nat && (n <=? 90)%nat then ascii_of_nat (n + 32) else c.

(** [strings.ToLower]: the ASCII fast path is embedded as written; a string
    with a byte [>= utf8.RuneSelf] goes through [Map(unicode.ToLower, s)],
    whose Unicode tables are the parameter [unicodeLower]. *)
Definition ToLower (unicodeLower : gostring -> gostring) (s : gostring) : gostring :=
  if forallb isASCII s then map lowerByte s else unicodeLower s.

End Strings.

(** ** Package [path/filepath], Unix flavour ([Separator = '/'], no volume names) *)
Module Filepath.

Definition Separator : ascii := "/"%char.

(** [os.IsPathSeparator]. *)
Definition IsPathSeparator (c : ascii) : bool := bool_decide (c = Separator).

Definition isDot (c : ascii) : bool := bool_decide (c = "."%char).

(** [r == n || os.IsPathSeparator(path[r])] for the unread input [rest]. *)
Definition atElemEnd (rest : gostring) : bool :=
  match rest with
  | [] => true
  | c :: _ => IsPathSeparator c
  end.

(** The [lazybuf] of [Clean]: the bytes written so far ([w] is their number). *)
Abbreviation lazybuf := (list ascii).

(** The back-tracking of a [..] element:
    [out.w--; for out.w > dotdot && !IsPathSeparator(out.index(out.w)) { out.w-- }].
    [backtrack_loop] is the [for] loop on the index [w]. *)
Fixpoint backtrack_loop (out : lazybuf) (dotdot w : nat) : nat :=
  match w with
  | O => O
  | S w' =>
      if (dotdot <? w)%nat && negb (IsPathSeparator (nth w out Separator))
      then backtrack_loop out dotdot w'
      else w
  end.

Definition backtrack (out : lazybuf) (dotdot : nat) : lazybuf :=
  take (backtrack_loop out dotdot (length out - 1)) out.

(** [if rooted && out.w != 1 || !rooted && out.w != 0 { out.append(Separator) }] *)
Definition addSeparator (rooted : bool) (out : lazybuf) : lazybuf :=
  if (rooted && negb (length out =? 1)%nat) || (negb rooted && negb (length out =? 0)%nat)
  then out ++ [Separator] else out.

(** The main loop of [Clean], [for r < n { switch ... }], reading [path[r:]].
    The state is the buffer and [dotdot].  The inner loop that copies a real
    path element is unrolled into the flag [copying]: it is set after the
    first byte of the element and the loop then copies bytes up to the next
    separator. *)
Fixpoint clean_loop (rooted copying : bool) (path : gostring)
    (st : lazybuf * nat) {struct path} : lazybuf * nat :=
  let '(out, dotdot) := st in
  match path with
  | [] => st
  | c :: rest =>
      if IsPathSeparator c then
        (* empty path element (or the end of the element being copied) *)
        clean_loop rooted false rest st
      else if copying then
        clean_loop rooted true rest (out ++ [c], dotdot)
      else if isDot c && atElemEnd rest then
        (* . element *)
        clean_loop rooted false rest st
      else
        let real :=
          (* real path element: add slash if needed, copy element *)
          clean_loop rooted true rest (addSeparator rooted out ++ [c], dotdot) in
        match rest with
        | c2 :: rest2 =>
            if isDot c && isDot c2 && atElemEnd rest2 then
              (* .. element: remove to last separator *)
              if (dotdot <? length out)%nat then
                (* can backtrack *)
                clean_loop rooted false rest2 (backtrack out dotdot, dotdot)
              else if negb rooted then
                (* cannot backtrack, but not rooted, so append .. element *)
                let out' :=
                  (if (0 <? length out)%nat then out ++ [Separator] else out)
                  ++ ["."%char; "."%char] in
                clean_loop rooted false rest2 (out', length out')
              else
                clean_loop rooted false rest2 st
            else real
        | [] => real
        end
  end.

(** [filepath.Clean]. *)
Definition Clean (path : gostring) : gostring :=
  match path with
  | [] => $"."
  | c :: rest =>
      let rooted := IsPathSeparator c in
      let out :=
        if rooted then fst (clean_loop true false rest ([Separator], 1%nat))
        else fst (clean_loop false false path ([], 0%nat)) in
      (* Turn empty string into "." *)
      if (length out =? 0)%nat then $"." else out
  end.

(** [strings.Join(elem, "/")]. *)
Fixpoint joinSep (elem : list gostring) : gostring :=
  match elem with
  | [] => []
  | [e] => e
  | e :: es => e ++ Separator :: joinSep es
  end.

(** [filepath.Join]: the elements from the first non-empty one on, joined
    with the separator and cleaned; the empty string when all are empty. *)
Fixpoint Join (elem : list gostring) : gostring :=
  match elem with
  | [] => []
  | e :: es => if bool_decide (e = []) then Join es else Clean (joinSep elem)
  end.

(** [filepath.IsAbs]. *)
Definition IsAbs (path : gostring) : bool := Strings.HasPrefix path $"/".

(** [filepath.Abs]: [Clean] of an absolute path, else [Join(wd, path)];
    [getwd] is the result of [os.Getwd], [None] when it fails. *)
Definition Abs (getwd : option gostring) (path : gostring) : option gostring :=
  if IsAbs path then Some (Clean path)
  else match getwd with
       | Some wd => Some (Join [wd; path])
       | None => None
       end.

(** The loop of [filepath.Ext], [i] running down from [len(path)-1]. *)
Fixpoint ext_loop (path : gostring) (n : nat) : gostring :=
  match n with
  | O => []
  | S i =>
      match path !! i with
      | Some c =>
          if IsPathSeparator c then []
          else if isDot c then drop i path
          else ext_loop path i
      | None => []
      end
  end.

Definition Ext (path : gostring) : gostring := ext_loop path (length path).

(** [filepath.Base]: strip trailing slashes, keep what follows the last
    separator. *)
Fixpoint stripTrailing (n : nat) (path : gostring) : gostring :=
  match n with
  | O => path
  | S n' =>
      match last path with
      | Some c => if IsPathSeparator c then stripTrailing n' (removelast path) else path
      | None => path
      end
  end.

Fixpoint lastElem_loop (path : gostring) (n : nat) : gostring :=
  match n with
  | O => path
  | S i =>
      match path !! i with
      | Some c => if IsPathSeparator c then drop (S i) path else lastElem_loop path i
      | None => path
      end
  end.

Definition Base (path : gostring) : gostring :=
  if bool_decide (path = []) then $"."
  else
    let path := stripTrailing (length path) path in
    let path := lastElem_loop path (length path) in
    if bool_decide (path = []) then [Separator] else path.

End Filepath.

(** ** Package [time] *)
Module Time.

Definition secondsPerMinute : Z := 60.
Definition secondsPerHour : Z := 60 * secondsPerMinute.
Definition secondsPerDay : Z := 24 * secondsPerHour.
Definition daysPer400Years : Z := 365 * 400 + 97.
Definition daysPer100Years : Z := 365 * 100 + 24.
Definition daysPer4Years : Z := 365 * 4 + 1.

Definition absoluteZeroYear : Z := -292277022399.
Definition internalYear : Z := 1.
(** [(absoluteZeroYear - internalYear) * 365.2425 * secondsPerDay] *)
Definition absoluteToInternal : Z := -9223371966579724800.
Definition internalToAbsolute : Z := - absoluteToInternal.
Definition unixToInternal : Z :=
  (1969 * 365 + 1969 / 4 - 1969 / 100 + 1969 / 400) * secondsPerDay.
Definition internalToUnix : Z := - unixToInternal.

(** Conversions to [uint64] and [int64]. *)
Definition wrapU64 (z : Z) : Z := z mod 2 ^ 64.
Definition wrapI64 (z : Z) : Z := (z + 2 ^ 63) mod 2 ^ 64 - 2 ^ 63.

(** [time.Duration] is an [int64] count of nanoseconds. *)
Definition Nanosecond : Z := 1.
Definition Second : Z := 1000000000 * Nanosecond.
Definition Hour : Z := 3600 * Second.

(** A [Location]: the offset in force before the first transition and the
    transitions [tx], sorted by [when]; each carries the offset (seconds
    east of UTC) of the zone it switches to. *)
Record zoneTrans := { when : Z; transOffset : Z }.
Record Location := { firstOffset : Z; tx : list zoneTrans }.

Definition alpha : Z := - 2 ^ 63.
Definition omega : Z := 2 ^ 63 - 1.

(** [Location.lookup]: offset, start and end of the zone period in force
    at the Unix second [sec].  Go finds the last transition with
    [when <= sec] by binary search; the scan below walks the sorted table
    to the same entry.  (The lookup cache and the extend rule are not
    embedded: a rule is the list of transitions it generates.) *)
Fixpoint lookup_tx (offset start : Z) (tx : list zoneTrans) (sec : Z) : Z * Z * Z :=
  match tx with
  | [] => (offset, start, omega)
  | t :: rest =>
      if sec <? when t then (offset, start, when t)
      else lookup_tx (transOffset t) (when t) rest sec
  end.

Definition lookup (l : Location) (sec : Z) : Z * Z * Z :=
  lookup_tx (firstOffset l) alpha (tx l) sec.

(** [time.FixedZone]: one zone, in force from [alpha] to [omega]. *)
Definition FixedZone (offset : Z) : Location := {| firstOffset := offset; tx := [] |}.

(** A [Time]: Unix seconds, nanoseconds within the second, and the location
    used for presentation.  (Values produced by [Parse] and [Date] carry no
    monotonic clock reading, so comparisons use these fields.) *)
Record Time := { unixSec : Z; nsec : Z; loc : Location }.

Definition In (t : Time) (l : Location) : Time :=
  {| unixSec := unixSec t; nsec := nsec t; loc := l |}.

(** [Time.abs]: seconds since the absolute zero year, in the time's location. *)
Definition abs (t : Time) : Z :=
  let '(offset, _, _) := lookup (loc t) (unixSec t) in
  wrapU64 (unixSec t + offset + (unixToInternal + internalToAbsolute)).

(** [isLeap]; Go's [%] truncates towards zero. *)
Definition isLeap (year : Z) : bool :=
  (Z.rem year 4 =? 0) && (negb (Z.rem year 100 =? 0) || (Z.rem year 400 =? 0)).

Definition daysBefore : list Z :=
  [0; 31; 31 + 28; 31 + 28 + 31; 31 + 28 + 31 + 30; 31 + 28 + 31 + 30 + 31;
   31 + 28 + 31 + 30 + 31 + 30; 31 + 28 + 31 + 30 + 31 + 30 + 31;
   31 + 28 + 31 + 30 + 31 + 30 + 31 + 31;
   31 + 28 + 31 + 30 + 31 + 30 + 31 + 31 + 30;
   31 + 28 + 31 + 30 + 31 + 30 + 31 + 31 + 30 + 31;
   31 + 28 + 31 + 30 + 31 + 30 + 31 + 31 + 30 + 31 + 30;
   31 + 28 + 31 + 30 + 31 + 30 + 31 + 31 + 30 + 31 + 30 + 31].

Definition daysBeforeAt (m : Z) : Z := nth (Z.to_nat m) daysBefore 0.

Definition February : Z := 2.
Definition March : Z := 3.

(** [daysIn]. *)
Definition daysIn (m year : Z) : Z :=
  if (m =? February) && isLeap year then 29
  else daysBeforeAt m - daysBeforeAt (m - 1).

(** [absDate(abs, true)]: year, month and day of month of an absolute time. *)
Definition absDate (abs : Z) : Z * Z * Z :=
  (* Split into time and day. *)
  let d := abs / secondsPerDay in
  (* Account for 400 year cycles. *)
  let n := d / daysPer400Years in
  let y := 400 * n in
  let d := d - daysPer400Years * n in
  (* Cut off 100-year cycles. *)
  let n := d / daysPer100Years in
  let n := n - Z.shiftr n 2 in
  let y := y + 100 * n in
  let d := d - daysPer100Years * n in
  (* Cut off 4-year cycles. *)
  let n := d / daysPer4Years in
  let y := y + 4 * n in
  let d := d - daysPer4Years * n in
  (* Cut off years within a 4-year cycle. *)
  let n := d / 365 in
  let n := n - Z.shiftr n 2 in
  let y := y + n in
  let d := d - 365 * n in
  let year := y + absoluteZeroYear in
  let yday := d in
  let day := yday in
  if isLeap year && (day =? 31 + 29 - 1) then
    (* Leap day. *)
    (year, February, 29)
  else
    (* After leap day; pretend it wasn't there. *)
    let day := if isLeap year && (day >? 31 + 29 - 1) then day - 1 else day in
    (* Estimate month on assumption that every month has 31 days. *)
    let month := day / 31 in
    let end_ := daysBeforeAt (month + 1) in
    let '(month, begin) :=
      if day >=? end_ then (month + 1, end_) else (month, daysBeforeAt month) in
    (* because January is 1 *)
    (year, month + 1, day - begin + 1).

(** [absClock]: the hour of an absolute time. *)
Definition absHour (abs : Z) : Z := (abs mod secondsPerDay) / secondsPerHour.

(** [daysSinceEpoch]: days from the absolute epoch to the start of [year]. *)
Definition daysSinceEpoch (year : Z) : Z :=
  let y := wrapU64 (year - absoluteZeroYear) in
  (* Add in days from 400-year cycles. *)
  let n := y / 400 in
  let y := y - 400 * n in
  let d := daysPer400Years * n in
  (* Add in 100-year cycles. *)
  let n := y / 100 in
  let y := y - 100 * n in
  let d := d + daysPer100Years * n in
  (* Add in 4-year cycles. *)
  let n := y / 4 in
  let y := y - 4 * n in
  let d := d + daysPer4Years * n in
  (* Add in non-leap years. *)
  d + 365 * y.

(** [norm]: carry [lo] into [hi] so that [0 <= lo < base]. *)
Definition norm (hi lo base : Z) : Z * Z :=
  let '(hi, lo) :=
    if lo <? 0 then
      let n := Z.quot (- lo - 1) base + 1 in (hi - n, lo + n * base)
    else (hi, lo) in
  if lo >=? base then
    let n := Z.quot lo base in (hi + n, lo - n * base)
  else (hi, lo).

(** [time.Date]. *)
Definition Date (year month day hour min sec nsec : Z) (l : Location) : Time :=
  (* Normalize month, overflowing into year. *)
  let '(year, m) := norm year (month - 1) 12 in
  let month := m + 1 in
  (* Normalize nsec, sec, min, hour, overflowing into day. *)
  let '(sec, nsec) := norm sec nsec 1000000000 in
  let '(min, sec) := norm min sec 60 in
  let '(hour, min) := norm hour min 60 in
  let '(day, hour) := norm day hour 24 in
  (* Compute days since the absolute epoch. *)
  let d := daysSinceEpoch year in
  (* Add in days before this month. *)
  let d := d + daysBeforeAt (month - 1) in
  let d := if isLeap year && (month >=? March) then d + 1 else d in
  (* Add in days before today. *)
  let d := d + (day - 1) in
  (* Add in time elapsed today. *)
  let abs := d * secondsPerDay in
  let abs := abs + (hour * secondsPerHour + min * secondsPerMinute + sec) in
  let unix := wrapI64 (abs + (absoluteToInternal + internalToUnix)) in
  (* Look for zone offset for expected time, so we can adjust to UTC. *)
  let '(offset, start, end_) := lookup l unix in
  let unix :=
    if negb (offset =? 0) then
      let utc := unix - offset in
      (* If utc is valid for the time zone we found, then we have the right
         offset.  If not, we get the correct offset by looking up utc. *)
      let offset :=
        if (utc <? start) || (utc >=? end_) then
          let '(offset, _, _) := lookup l utc in offset
        else offset in
      unix - offset
    else unix in
  {| unixSec := unix; nsec := nsec; loc := l |}.

(** [Time.Add]; Go's [/] and [%] on a [Duration] truncate towards zero. *)
Definition Add (t : Time) (d : Z) : Time :=
  let dsec := Z.quot d 1000000000 in
  let ns := nsec t + Z.rem d 1000000000 in
  let '(dsec, ns) :=
    if ns >=? 1000000000 then (dsec + 1, ns - 1000000000)
    else if ns <? 0 then (dsec - 1, ns + 1000000000)
    else (dsec, ns) in
  {| unixSec := unixSec t + dsec; nsec := ns; loc := loc t |}.

(** [Time.Before]. *)
Definition Before (t u : Time) : bool :=
  (unixSec t <? unixSec u) || ((unixSec t =? unixSec u) && (nsec t <? nsec u)).

(** *** Layouts

    A layout is the sequence of chunks that [nextStdChunk] cuts it into:
    literal text and reference-time fields. *)
Inductive chunk :=
| Lit (text : gostring)
| stdLongYear       (* "2006" *)
| stdZeroMonth      (* "01" *)
| stdZeroDay        (* "02" *)
| stdHour.          (* "15" *)

Definition digitChar (d : Z) : ascii := ascii_of_nat (48 + Z.to_nat d).

(** The decimal digits of [u], most significant first; the loop
    [for u2 := u; u2 > 0; u2 /= 10] runs at most twenty times on a [uint]. *)
Fixpoint decimal (fuel : nat) (u : Z) (acc : gostring) : gostring :=
  match fuel with
  | O => acc
  | S fuel' =>
      if u >? 0 then decimal fuel' (u / 10) (digitChar (u mod 10) :: acc) else acc
  end.

(** [appendInt]: the decimal form of [x], zero-padded to [width]. *)
Definition appendInt (x : Z) (width : nat) : gostring :=
  let sign := if x <? 0 then $"-" else [] in
  let u := wrapU64 (if x <? 0 then - x else x) in
  let digits := if u =? 0 then $"0" else decimal 20 u [] in
  sign ++ replicate (width - length digits) "0"%char ++ digits.

(** [Time.Format] for a layout of the chunks above. *)
Definition formatChunk (t : Time) (c : chunk) : gostring :=
  let a := abs t in
  let '(year, month, day) := absDate a in
  match c with
  | Lit text => text
  | stdLongYear => appendInt year 4
  | stdZeroMonth => appendInt month 2
  | stdZeroDay => appendInt day 2
  | stdHour => appendInt (absHour a) 2
  end.

Definition Format (t : Time) (layout : list chunk) : gostring :=
  concat (map (formatChunk t) layout).

(** [isDigit(s, i)] at [i = 0]. *)
Definition isDigitChar (c : ascii) : bool :=
  let n := nat_of_ascii c in (48 <=? n)%nat && (n <=? 57)%nat.

Definition digitVal (c : ascii) : Z := Z.of_nat (nat_of_ascii c) - 48.

(** [getnum]: a one- or two-digit number; two digits are required when
    [fixed]. *)
Definition getnum (s : gostring) (fixed : bool) : option (Z * gostring) :=
  match s with
  | c0 :: s1 =>
      if isDigitChar c0 then
        match s1 with
        | c1 :: s2 =>
            if isDigitChar c1 then Some (digitVal c0 * 10 + digitVal c1, s2)
            else if fixed then None else Some (digitVal c0, s1)
        | [] => if fixed then None else Some (digitVal c0, s1)
        end
      else None
  | [] => None
  end.

(** [atoi] on a string that starts with a digit: every byte must be one. *)
Definition atoi (s : gostring) : option Z :=
  if forallb isDigitChar s
  then Some (fold_left (fun x c => x * 10 + digitVal c) s 0)
  else None.

(** [skip]: the value must start with the literal prefix (the layouts here
    contain no space, the one byte [skip] treats specially). *)
Definition skip (value prefix : gostring) : option gostring :=
  if Strings.HasPrefix value prefix then Some (drop (length prefix) value) else None.

(** The fields [Parse] collects. *)
Record fields := { fYear : Z; fMonth : Z; fDay : Z; fHour : Z }.

Definition parseChunk (c : chunk) (st : fields * gostring) : option (fields * gostring) :=
  let '(f, value) := st in
  match c with
  | Lit text =>
      value' ← skip value text; Some (f, value')
  | stdLongYear =>
      if (length value <? 4)%nat then None
      else match value with
           | c0 :: _ =>
               if isDigitChar c0 then
                 year ← atoi (take 4 value);
                 Some ({| fYear := year; fMonth := fMonth f; fDay := fDay f;
                          fHour := fHour f |}, drop 4 value)
               else None
           | [] => None
           end
  | stdZeroMonth =>
      '(month, value') ← getnum value true;
      if (month <=? 0) || (12 <? month) then None
      else Some ({| fYear := fYear f; fMonth := month; fDay := fDay f;
                    fHour := fHour f |}, value')
  | stdZeroDay =>
      (* any two-digit day here; validated once parsing is complete *)
      '(day, value') ← getnum value true;
      Some ({| fYear := fYear f; fMonth := fMonth f; fDay := day;
               fHour := fHour f |}, value')
  | stdHour =>
      '(hour, value') ← getnum value false;
      if (hour <? 0) || (24 <=? hour) then None
      else Some ({| fYear := fYear f; fMonth := fMonth f; fDay := fDay f;
                    fHour := hour |}, value')
  end.

Fixpoint parseChunks (layout : list chunk) (st : fields * gostring)
    : option (fields * gostring) :=
  match layout with
  | [] => Some st
  | c :: layout' => st' ← parseChunk c st; parseChunks layout' st'
  end.

(** [time.ParseInLocation]: [None] stands for a parse error. *)
Definition ParseInLocation (layout : list chunk) (value : gostring) (l : Location)
    : option Time :=
  '(f, rest) ← parseChunks layout
      ({| fYear := 0; fMonth := -1; fDay := -1; fHour := 0 |}, value);
  (* extra text *)
  if negb (bool_decide (rest = [])) then None
  else
    let month := if fMonth f <? 0 then 1 else fMonth f in
    let day := if fDay f <? 0 then 1 else fDay f in
    (* Validate the day of the month. *)
    if (day <? 1) || (day >? daysIn month (fYear f)) then None
    else Some (Date (fYear f) month day (fHour f) 0 0 0 l).

End Time.

(** ** Package [net/http]: what the handler uses *)
Module Http.

Definition StatusOK : Z := 200.
Definition StatusForbidden : Z := 403.
Definition StatusNotFound : Z := 404.
Definition StatusMethodNotAllowed : Z := 405.
Definition StatusInternalServerError : Z := 500.

Definition MethodGet : gostring := $"GET".
Definition MethodHead : gostring := $"HEAD".

(** The [http.ResponseWriter] interface.  [Header()] returns a map that the
    caller mutates; its two mutations used here are methods of the class.
    [Write] returns the writer and the [(n, err)] pair of the call ([err] is
    [true] for a non-nil error). *)
Class ResponseWriter (W : Type) := {
  HeaderDel : gostring -> W -> W;
  HeaderSet : gostring -> gostring -> W -> W;
  WriteHeader : Z -> W -> W;
  Write : gostring -> W -> W * (Z * bool)
}.

(** [http.Error]. *)
Definition Error {W} `{ResponseWriter W} (w : W) (error : gostring) (code : Z) : W :=
  let w := HeaderDel $"Content-Length" w in
  let w := HeaderSet $"Content-Type" $"text/plain; charset=utf-8" w in
  let w := HeaderSet $"X-Content-Type-Options" $"nosniff" w in
  let w := WriteHeader code w in
  (* fmt.Fprintln(w, error) *)
  fst (Write (error ++ [ascii_of_nat 10]) w).

(** A call made on a [ResponseWriter]. *)
Inductive Call :=
| CallHeaderDel (key : gostring)
| CallHeaderSet (key value : gostring)
| CallWriteHeader (code : Z)
| CallWrite (p : gostring).

Definition call {W} `{ResponseWriter W} (w : W) (c : Call) : W :=
  match c with
  | CallHeaderDel k => HeaderDel k w
  | CallHeaderSet k v => HeaderSet k v w
  | CallWriteHeader code => WriteHeader code w
  | CallWrite p => fst (Write p w)
  end.

Definition calls {W} `{ResponseWriter W} (w : W) (cs : list Call) : W :=
  fold_left call cs w.

(** A writer that keeps the calls it received, oldest first, and reports
    every [Write] as complete. *)
Definition CallLog := list Call.

#[global] Instance CallLog_ResponseWriter : ResponseWriter CallLog := {|
  HeaderDel k w := w ++ [CallHeaderDel k];
  HeaderSet k v w := w ++ [CallHeaderSet k v];
  WriteHeader code w := w ++ [CallWriteHeader code];
  Write p w := (w ++ [CallWrite p], (Z.of_nat (length p), false))
|}.

(** A writer like [CallLog] whose [Write] reports the byte counts of a
    script, one per call (a short write reports fewer bytes than it was
    given). *)
Record Scripted := { received : list Call; script : list Z }.

#[global] Instance Scripted_ResponseWriter : ResponseWriter Scripted := {|
  HeaderDel k w := {| received := received w ++ [CallHeaderDel k]; script := script w |};
  HeaderSet k v w := {| received := received w ++ [CallHeaderSet k v]; script := script w |};
  WriteHeader code w :=
    {| received := received w ++ [CallWriteHeader code]; script := script w |};
  Write p w :=
    match script w with
    | n :: ns =>
        ({| received := received w ++ [CallWrite p]; script := ns |},
         (n, negb (n =? Z.of_nat (length p))))
    | [] => ({| received := received w ++ [CallWrite p]; script := [] |},
             (Z.of_nat (length p), false))
    end
|}.

End Http.

(** ** [responseRecorder] *)
Module responseRecorder.
Import Http.

Section Recorder.
Context {W : Type} `{ResponseWriter W}.

(** [type responseRecorder struct]; the embedded writer is [writer]. *)
Record t := {
  writer : W;
  statusCode : Z;
  bytesWritten : Z;
  wroteHeader : bool
}.

(** [func (rr *responseRecorder) WriteHeader(code int)] *)
Definition WriteHeader (code : Z) (rr : t) : t :=
  if negb (wroteHeader rr) then
    {| writer := Http.WriteHeader code (writer rr);
       statusCode := code;
       bytesWritten := bytesWritten rr;
       wroteHeader := true |}
  else rr.

(** [func (rr *responseRecorder) Write(p []byte) (int, error)] *)
Definition Write (p : gostring) (rr : t) : t * (Z * bool) :=
  let rr := if negb (wroteHeader rr) then WriteHeader StatusOK rr else rr in
  let '(w, (n, err)) := Http.Write p (writer rr) in
  ({| writer := w;
      statusCode := statusCode rr;
      bytesWritten := Time.wrapI64 (bytesWritten rr + n);
      wroteHeader := wroteHeader rr |}, (n, err)).

(** [Header()] is promoted from the embedded writer. *)
Definition onWriter (f : W -> W) (rr : t) : t :=
  {| writer := f (writer rr);
     statusCode := statusCode rr;
     bytesWritten := bytesWritten rr;
     wroteHeader := wroteHeader rr |}.

(** [&responseRecorder{ResponseWriter: w, statusCode: http.StatusOK}] *)
Definition new (w : W) : t :=
  {| writer := w; statusCode := StatusOK; bytesWritten := 0; wroteHeader := false |}.

End Recorder.

Arguments t W : clear implicits.

#[global] Instance recorder_ResponseWriter {W} `{ResponseWriter W} : ResponseWriter (t W) := {|
  Http.HeaderDel k := onWriter (Http.HeaderDel k);
  Http.HeaderSet k v := onWriter (Http.HeaderSet k v);
  Http.WriteHeader := WriteHeader;
  Http.Write := Write
|}.

End responseRecorder.

(** ** Package [os]: what the program sees of the file system *)
Module Os.

(** The outcome of [os.Stat]: file information ([IsDir]), an error for which
    [os.IsNotExist] holds, or another error. *)
Inductive StatResult :=
| StatInfo (isDir : bool)
| StatNotExist
| StatError.

(** The file system as the request path reads it. *)
Record FS := {
  Getwd : option gostring;
  Stat : gostring -> StatResult
}.

(** [os.DirEntry]. *)
Record DirEntry := { Name : gostring; IsDir : bool }.

(** The log directory as the retention sweep sees it: what [os.ReadDir]
    returns ([None] for an error) and the names on which [os.Remove] fails. *)
Record Dir := {
  entries : list DirEntry;
  readDirFails : bool;
  removeFails : gostring -> bool
}.

Definition ReadDir (d : Dir) : option (list DirEntry) :=
  if readDirFails d then None else Some (entries d).

(** [os.Remove] of the entry [name] of the directory, addressed by [path];
    returns the directory and whether the call failed. *)
Definition Remove (path name : gostring) (d : Dir) : Dir * bool :=
  if removeFails d path then (d, true)
  else ({| entries := filter (fun e => Name e <> name) (entries d);
           readDirFails := readDirFails d;
           removeFails := removeFails d |}, false).

End Os.

(** ** The server *)

(** [var allowedExts] and [var blockedExts]; a Go map read at a missing key
    yields [false]. *)
Definition allowedExts : gmap gostring bool :=
  list_to_map
    [($".html", true); ($".css", true); ($".js", true); ($".png", true);
     ($".jpg", true); ($".jpeg", true); ($".gif", true); ($".svg", true);
     ($".webp", true); ($".ico", true); ($".json", true); ($".txt", true);
     ($".md", true)].

Definition blockedExts : gmap gostring bool :=
  list_to_map [($".log", true)].

Definition mapIndex (m : gmap gostring bool) (k : gostring) : bool :=
  default false (m !! k).

(** The two package-level maps, as the handler reads them. *)
Record ExtTables := {
  allowed : gmap gostring bool;
  blocked : gmap gostring bool
}.

Definition extTables : ExtTables :=
  {| allowed := allowedExts; blocked := blockedExts |}.

Record LogEntry := {
  Timestamp : Time.Time;     (* printed in RFC 3339 *)
  Method : gostring;
  Path : gostring;
  Status : Z;
  Bytes : Z;
  Duration : Z               (* elapsed nanoseconds; printed as milliseconds *)
}.

Record Server := {
  wwwRoot : gostring;
  logDir : gostring;
  location : Time.Location;
  retentionHours : Z
}.

Record Request := { reqMethod : gostring; URLPath : gostring }.

(** The errors of [sanitizePath], one per [fmt.Errorf]. *)
Inductive PathError :=
| DirectoryAccess          (* "directory access not allowed" *)
| Subdirectories           (* "subdirectories not allowed" *)
| Traversal                (* "directory traversal detected" *)
| TraversalAfterClean      (* "directory traversal detected after clean" *)
| AbsRootFailed            (* "failed to get absolute www root" *)
| AbsPathFailed            (* "failed to get absolute path" *)
| EscapesRoot.             (* "path escapes www root" *)

(** [func (s *Server) sanitizePath(p string) (string, error)] *)
Definition sanitizePath (s : Server) (fs : Os.FS) (p : gostring) : gostring + PathError :=
  (* Remove leading slash *)
  let p := Strings.TrimPrefix p $"/" in
  (* Reject empty paths (would be directory) *)
  if bool_decide (p = []) || bool_decide (p = $".") then inr DirectoryAccess
  (* Check for any path separators - only flat structure allowed *)
  else if Strings.Contains p $"/" || Strings.Contains p $"\" then inr Subdirectories
  (* Check for directory traversal attempts *)
  else if Strings.Contains p $".." then inr Traversal
  else
    (* Clean the path *)
    let clean := Filepath.Clean p in
    (* Double-check after cleaning *)
    if Strings.Contains clean $".." then inr TraversalAfterClean
    else
      (* Join with www root *)
      let fullPath := Filepath.Join [wwwRoot s; clean] in
      (* Verify the path is still within www root (final safety check) *)
      match Filepath.Abs (Os.Getwd fs) (wwwRoot s) with
      | None => inr AbsRootFailed
      | Some absWwwRoot =>
          match Filepath.Abs (Os.Getwd fs) fullPath with
          | None => inr AbsPathFailed
          | Some absPath =>
              if negb (Strings.HasPrefix absPath (absWwwRoot ++ [Filepath.Separator]))
                 && negb (bool_decide (absPath = absWwwRoot))
              then inr EscapesRoot
              else inl fullPath
          end
      end.

(** The layout ["2006-01-02T15"], cut into chunks. *)
Definition bucketLayout : list Time.chunk :=
  [Time.stdLongYear; Time.Lit $"-"; Time.stdZeroMonth; Time.Lit $"-";
   Time.stdZeroDay; Time.Lit $"T"; Time.stdHour].

(** The layout ["2006-01-02T15.log"]. *)
Definition bucketFileLayout : list Time.chunk := bucketLayout ++ [Time.Lit $".log"].

(** The [filename] of [currentLogFile] at [now]. *)
Definition logFileName (s : Server) (now : Time.Time) : gostring :=
  let now := Time.In now (location s) in
  Time.Format now bucketLayout ++ $".log".

(** [func (s *Server) currentLogFile() string]; [now] is [time.Now()]. *)
Definition currentLogFile (s : Server) (now : Time.Time) : gostring :=
  Filepath.Join [logDir s; logFileName s now].

(** What the program prints with [log.Printf]. *)
Inductive Diagnostic :=
| FailedOpenLog (logFile : gostring)
| FailedEncode
| FailedReadDir
| FailedRemove (path : gostring)
| CleanedUp (name : gostring).

(** The log files: their records, oldest first, and the paths on which
    [os.OpenFile] or the encoder's write fails. *)
Record LogFiles := {
  records : gmap gostring (list LogEntry);
  openFails : gostring -> bool;
  encodeFails : gostring -> bool
}.

(** [func (s *Server) logRequest(entry LogEntry)] *)
Definition logRequest (s : Server) (now : Time.Time) (entry : LogEntry)
    (lf : LogFiles) : LogFiles * list Diagnostic :=
  let logFile := currentLogFile s now in
  if openFails lf logFile then (lf, [FailedOpenLog logFile])
  else if encodeFails lf logFile then (lf, [FailedEncode])
  else
    ({| records := <[logFile := default [] (records lf !! logFile) ++ [entry]]> (records lf);
        openFails := openFails lf;
        encodeFails := encodeFails lf |}, []).

(** [time.Duration(s.retentionHours) * time.Hour], negated first as the
    program writes it; both operations are on [int64]. *)
Definition retentionOffset (s : Server) : Z :=
  Time.wrapI64 (Time.wrapI64 (- retentionHours s) * Time.Hour).

(** [cutoff] in [cleanupOldLogs]. *)
Definition cutoff (s : Server) (now : Time.Time) : Time.Time :=
  Time.Add (Time.In now (location s)) (retentionOffset s).

(** The body of [for _, entry := range entries] in [cleanupOldLogs]. *)
Definition sweepEntry (s : Server) (cutoff : Time.Time) (entry : Os.DirEntry)
    (st : Os.Dir * list Diagnostic) : Os.Dir * list Diagnostic :=
  let '(d, diag) := st in
  if Os.IsDir entry then st
  else
    let name := Os.Name entry in
    if negb (Strings.HasSuffix name $".log") then st
    else
      (* Parse timestamp from filename *)
      match Time.ParseInLocation bucketFileLayout name (location s) with
      | None => st (* Skip files that don't match pattern *)
      | Some t =>
          if Time.Before t cutoff then
            let path := Filepath.Join [logDir s; name] in
            let '(d', failed) := Os.Remove path name d in
            if failed then (d', diag ++ [FailedRemove path])
            else (d', diag ++ [CleanedUp name])
          else st
      end.

(** [func (s *Server) cleanupOldLogs()]; [now] is [time.Now()]. *)
Definition cleanupOldLogs (s : Server) (now : Time.Time) (d : Os.Dir)
    : Os.Dir * list Diagnostic :=
  match Os.ReadDir d with
  | None => (d, [FailedReadDir])
  | Some entries =>
      let cutoff := cutoff s now in
      fold_left (fun st entry => sweepEntry s cutoff entry st) entries (d, [])
  end.

(** The states a request goes through (spec section 4.3), as marks on the
    statements of [handleRequest] that reach them. *)
Inductive State :=
| Received
| MethodChecked
| PathValidated
| ExtensionChecked
| Statd
| NotFound
| Forbidden
| Serving
| MethodNotAllowed
| InternalError
| Logged
| Done.

#[global] Instance State_eq_dec : EqDecision State.
Proof. solve_decision. Defined.

(** What surrounds one call of [handleRequest]: the file system, the
    successive readings of [time.Now()], the calls [http.ServeFile] makes on
    the writer it is given, and the Unicode lower-casing tables. *)
Record World := {
  fs : Os.FS;
  clock : nat -> Time.Time;
  ServeFile : Request -> gostring -> list Http.Call;
  unicodeLower : gostring -> gostring
}.

(** [Time.Sub], in nanoseconds. *)
Definition elapsed (t u : Time.Time) : Z :=
  (Time.unixSec t - Time.unixSec u) * 1000000000 + (Time.nsec t - Time.nsec u).

Section Handler.
Context {W : Type} `{Http.ResponseWriter W}.

(** What one call of [handleRequest] leaves behind. *)
Record Handled := {
  trace : list State;
  statCalls : list gostring;         (* arguments of [os.Stat] *)
  recorder : responseRecorder.t W;   (* [wrapped] on return *)
  logCalls : list LogEntry;          (* arguments of [s.logRequest] *)
  logFiles : LogFiles;
  diagnostics : list Diagnostic
}.

(** The statements of [handleRequest] after the [defer]: the marks passed,
    the [os.Stat] calls made and [wrapped] at the [return]. *)
Definition handleBody (tables : ExtTables) (s : Server) (w : World)
    (wrapped : responseRecorder.t W) (r : Request)
    : list State * list gostring * responseRecorder.t W :=
  let path := URLPath r in
  (* Only allow GET and HEAD *)
  if negb (bool_decide (reqMethod r = Http.MethodGet))
     && negb (bool_decide (reqMethod r = Http.MethodHead)) then
    ([MethodChecked; MethodNotAllowed], [],
     Http.Error wrapped $"Method Not Allowed" Http.StatusMethodNotAllowed)
  else
    (* Sanitize and validate path *)
    match sanitizePath s (fs w) path with
    | inr _ =>
        ([MethodChecked; PathValidated; Forbidden], [],
         Http.Error wrapped $"Forbidden" Http.StatusForbidden)
    | inl cleanPath =>
        (* Check if file exists and is not a directory *)
        match Os.Stat (fs w) cleanPath with
        | Os.StatNotExist =>
            ([MethodChecked; PathValidated; Statd; NotFound], [cleanPath],
             Http.Error wrapped $"Not Found" Http.StatusNotFound)
        | Os.StatError =>
            ([MethodChecked; PathValidated; Statd; InternalError], [cleanPath],
             Http.Error wrapped $"Internal Server Error" Http.StatusInternalServerError)
        | Os.StatInfo isDir =>
            if isDir then
              ([MethodChecked; PathValidated; Statd; Forbidden], [cleanPath],
               Http.Error wrapped $"Forbidden" Http.StatusForbidden)
            else
              (* Validate extension *)
              let ext := Strings.ToLower (unicodeLower w) (Filepath.Ext cleanPath) in
              if mapIndex (blocked tables) ext then
                ([MethodChecked; PathValidated; Statd; ExtensionChecked; Forbidden],
                 [cleanPath],
                 Http.Error wrapped $"Forbidden" Http.StatusForbidden)
              else if negb (mapIndex (allowed tables) ext) then
                ([MethodChecked; PathValidated; Statd; ExtensionChecked; Forbidden],
                 [cleanPath],
                 Http.Error wrapped $"Forbidden" Http.StatusForbidden)
              else
                (* Serve the file *)
                ([MethodChecked; PathValidated; Statd; ExtensionChecked; Serving],
                 [cleanPath],
                 Http.calls wrapped (ServeFile w r cleanPath))
        end
    end.

(** [func (s *Server) handleRequest(w http.ResponseWriter, r *http.Request)]:
    the body runs between the first clock reading and the deferred function,
    which builds the entry from [wrapped] and hands it to [logRequest]. *)
Definition handleRequest (tables : ExtTables) (s : Server) (w : World)
    (lf : LogFiles) (rw : W) (r : Request) : Handled :=
  let start := clock w 0%nat in
  let path := URLPath r in
  (* Wrap response writer to capture status *)
  let wrapped := responseRecorder.new rw in
  let '(marks, stats, wrapped) := handleBody tables s w wrapped r in
  (* Log the request at the end *)
  let duration := elapsed (clock w 1%nat) start in
  let entry :=
    {| Timestamp := Time.In (clock w 2%nat) (location s);
       Method := reqMethod r;
       Path := path;
       Status := responseRecorder.statusCode wrapped;
       Bytes := responseRecorder.bytesWritten wrapped;
       Duration := duration |} in
  let '(lf', diag) := logRequest s (clock w 3%nat) entry lf in
  {| trace := Received :: marks ++ [Logged; Done];
     statCalls := stats;
     recorder := wrapped;
     logCalls := [entry];
     logFiles := lf';
     diagnostics := diag |}.

End Handler.

Arguments Handled W : clear implicits.

(** ** The rest of the program: the periodic sweep, [main] and [init] *)

(** [func (s *Server) periodicCleanup()]: one sweep per tick of the hourly
    ticker, in a loop without exit.  [ticks] are the readings of
    [time.Now()] in the sweeps made so far; each sweep reads the directory
    as the one before it left it. *)
Definition periodicCleanup (s : Server) (ticks : list Time.Time) (d : Os.Dir)
    : Os.Dir * list Diagnostic :=
  fold_left
    (fun st now =>
       let '(d', diag) := cleanupOldLogs s now st.1 in (d', st.2 ++ diag))
    ticks (d, []).

(** [os.Getenv]: an unset variable reads as the empty string. *)
Definition Getenv (env : gmap gostring gostring) (key : gostring) : gostring :=
  default [] (env !! key).

(** [func getEnv(key, defaultValue string) string] *)
Definition getEnv (env : gmap gostring gostring) (key defaultValue : gostring) : gostring :=
  let value := Getenv env key in
  if negb (bool_decide (value = [])) then value else defaultValue.

(** What [main] prints before it serves. *)
Inductive StartupLine :=
| WarnTimezone      (* "Warning: Could not load America/Chicago timezone, ..." *)
| FatalMkdir        (* "Failed to create log directory: ..." *)
| FromSweep (line : Diagnostic)
| StartingServer (addr wwwRoot logDir : gostring).

(** [func main()] up to [http.ListenAndServe]: [loadLocation] is the result
    of [time.LoadLocation("America/Chicago")] ([None] for an error),
    [mkdirAllFails] tells whether [os.MkdirAll] fails, [now] is the clock
    reading of the first sweep and [d] the log directory.  The result is
    what was printed and, unless [log.Fatalf] ended the program, the server
    and the log directory when serving starts. *)
Definition main (env : gmap gostring gostring) (loadLocation : option Time.Location)
    (mkdirAllFails : bool) (now : Time.Time) (d : Os.Dir)
    : list StartupLine * option (Server * Os.Dir) :=
  let wwwRoot := getEnv env $"WWW_ROOT" $"/var/www" in
  let logDir := getEnv env $"LOG_DIR" $"/var/log/app" in
  let retentionHours := 168 (* 7 days *) in
  (* Load Central Time location *)
  let '(loc, lines) :=
    match loadLocation with
    | Some loc => (loc, [])
    | None =>
        (* Fallback: try constructing from fixed offset *)
        (Time.FixedZone (-6 * 60 * 60), [WarnTimezone])
    end in
  let server :=
    {| wwwRoot := wwwRoot; logDir := logDir; location := loc;
       retentionHours := retentionHours |} in
  (* Ensure log directory exists *)
  if mkdirAllFails then (lines ++ [FatalMkdir], None)
  else
    (* Clean up old logs on startup *)
    let '(d', printed) := cleanupOldLogs server now d in
    (lines ++ (FromSweep <$> printed) ++ [StartingServer $":8080" wwwRoot logDir],
     Some (server, d')).

(** ** Package [syscall] *)
Module Syscall.

(** [syscall.Umask] on Linux: the file mode creation mask of the process
    becomes [mask & 0777] and the mask it replaces is returned.  The result
    is the new mask of the process, then [oldmask]. *)
Definition Umask (mask : Z) (current : Z) : Z * Z := (Z.land mask 511, current).

End Syscall.

(** The state of the process that [init] touches: the patterns registered
    on [http.DefaultServeMux] and the file mode creation mask. *)
Record Process := { DefaultServeMux : list gostring; fileModeMask : Z }.

(** [func init()] *)
Definition init (p : Process) : Process :=
  (* Disable profiling endpoints that Go's default mux might expose *)
  let mux := [] (* http.NewServeMux() *) in
  (* Restrict file creation permissions *)
  let '(current, umask) := Syscall.Umask 0 (fileModeMask p) in
  let '(current, _) := Syscall.Umask umask current in
  {| DefaultServeMux := mux; fileModeMask := current |}.

(** ** Vocabulary of the properties *)

(** *** Paths *)

(** A real path element: not empty, without a separator, and neither [.]
    nor [..]. *)
Definition realElem (e : gostring) : Prop :=
  e <> [] /\ (Filepath.Separator ∉ e) /\ e <> $"." /\ e <> $"..".

(** The buffer of [Clean] when its loop ends, before an empty result is
    turned into [.]. *)
Definition cleanBuf (path : gostring) : gostring :=
  match path with
  | [] => []
  | c :: rest =>
      if Filepath.IsPathSeparator c
      then fst (Filepath.clean_loop true false rest ([Filepath.Separator], 1%nat))
      else fst (Filepath.clean_loop false false path ([], 0%nat))
  end.

(** Whether [Clean] treats the path as rooted. *)
Definition rooted (path : gostring) : bool :=
  match path with
  | [] => false
  | c :: _ => Filepath.IsPathSeparator c
  end.

(** The buffer of [Clean] on a rooted path once the real elements [es]
    are written (the [..] elements having taken back theirs). *)
Definition rootedBuf (es : list gostring) : gostring :=
  fold_left (fun out e => Filepath.addSeparator true out ++ e) es [Filepath.Separator].

(** [sub] occurs in [s]: what [strings.Contains] tests. *)
Definition occursIn (sub s : gostring) : Prop := exists a b, s = a ++ sub ++ b.

(** A flat file name: not empty, not [.], without a slash, a backslash or
    two dots in a row. *)
Definition flatName (q : gostring) : Prop :=
  q <> [] /\ q <> $"." /\ ("/"%char ∉ q) /\ ("\"%char ∉ q) /\ ~ occursIn $".." q.

(** *** The response recorder *)

Definition sumZ (ns : list Z) : Z := fold_right Z.add 0 ns.

Definition isWriteHeader (c : Http.Call) : bool :=
  match c with Http.CallWriteHeader _ => true | _ => false end.

(** A sequence of calls without its [WriteHeader] calls. *)
Definition dropWriteHeaders (cs : list Http.Call) : list Http.Call :=
  filter (fun c => isWriteHeader c = false) cs.

(** The byte counts a writer reports for the [Write] calls among the calls
    [cs] made on it, in order. *)
Fixpoint reportedCounts {W} `{Http.ResponseWriter W} (w : W) (cs : list Http.Call)
    : list Z :=
  match cs with
  | [] => []
  | Http.CallWrite p :: cs' =>
      fst (snd (Http.Write p w)) :: reportedCounts (fst (Http.Write p w)) cs'
  | c :: cs' => reportedCounts (Http.call w c) cs'
  end.

(** What the embedded writer receives when the calls [cs] are made on a
    recorder; [wrote] tells whether the recorder has written its header:
    the first [WriteHeader] passes and the later ones do not, and a [Write]
    before any [WriteHeader] is preceded by [WriteHeader(200)]. *)
Fixpoint forwardedCalls (wrote : bool) (cs : list Http.Call) : list Http.Call :=
  match cs with
  | [] => []
  | Http.CallWriteHeader code :: cs' =>
      if wrote then forwardedCalls true cs'
      else Http.CallWriteHeader code :: forwardedCalls true cs'
  | Http.CallWrite p :: cs' =>
      if wrote then Http.CallWrite p :: forwardedCalls true cs'
      else Http.CallWriteHeader Http.StatusOK :: Http.CallWrite p :: forwardedCalls true cs'
  | c :: cs' => c :: forwardedCalls wrote cs'
  end.

(** The [WriteHeader] calls of a sequence. *)
Definition writeHeaders (cs : list Http.Call) : list Http.Call :=
  filter (fun c => isWriteHeader c = true) cs.

(** *** The request handler *)

(** The request is a GET or a HEAD. *)
Definition methodAllowed (r : Request) : Prop :=
  reqMethod r = Http.MethodGet \/ reqMethod r = Http.MethodHead.

(** The order of the steps before the outcome, as the spec lists them, and
    as [handleRequest] performs them. *)
Definition specOrder : list State :=
  [Received; MethodChecked; PathValidated; ExtensionChecked; Statd].

Definition codeOrder : list State :=
  [Received; MethodChecked; PathValidated; Statd; ExtensionChecked].

Definition isStep (st : State) : Prop := st ∈ specOrder.

(** The steps of a trace, without its outcome, [Logged] and [Done]. *)
Definition steps (tr : list State) : list State := filter isStep tr.

Definition isOutcome (st : State) : Prop :=
  st ∈ [NotFound; Forbidden; Serving; MethodNotAllowed; InternalError].

(** The branches of [handleBody]. *)
Inductive Branch : list State -> list gostring -> gostring -> Z -> Prop :=
| BranchMethod :
    Branch [MethodChecked; MethodNotAllowed] [] $"Method Not Allowed" 405
| BranchRejected :
    Branch [MethodChecked; PathValidated; Forbidden] [] $"Forbidden" 403
| BranchNotFound p :
    Branch [MethodChecked; PathValidated; Statd; NotFound] [p] $"Not Found" 404
| BranchStatError p :
    Branch [MethodChecked; PathValidated; Statd; InternalError] [p]
      $"Internal Server Error" 500
| BranchDirectory p :
    Branch [MethodChecked; PathValidated; Statd; Forbidden] [p] $"Forbidden" 403
| BranchExtension p :
    Branch [MethodChecked; PathValidated; Statd; ExtensionChecked; Forbidden] [p]
      $"Forbidden" 403.

(** The calls [http.Error] makes on its writer. *)
Definition errorCalls (msg : gostring) (code : Z) : list Http.Call :=
  [Http.CallHeaderDel $"Content-Length";
   Http.CallHeaderSet $"Content-Type" $"text/plain; charset=utf-8";
   Http.CallHeaderSet $"X-Content-Type-Options" $"nosniff";
   Http.CallWriteHeader code;
   Http.CallWrite (msg ++ [ascii_of_nat 10])].

(** The extensions of the allow list. *)
Definition listedExts : list gostring :=
  [$".html"; $".css"; $".js"; $".png"; $".jpg"; $".jpeg"; $".gif"; $".svg";
   $".webp"; $".ico"; $".json"; $".txt"; $".md"].

(** *** The retention sweep *)

(** The offsets a location can give to a time. *)
Definition offsets (l : Time.Location) : list Z :=
  Time.firstOffset l :: map Time.transOffset (Time.tx l).

(** The largest difference between two offsets of the location, in
    seconds: 0 for a fixed zone, 3600 for a zone that switches between
    standard and daylight saving time. *)
Definition offsetSpread (l : Time.Location) : Z :=
  fold_right Z.max (Time.firstOffset l) (map Time.transOffset (Time.tx l))
  - fold_right Z.min (Time.firstOffset l) (map Time.transOffset (Time.tx l)).

(** The offset in force at a time. *)
Definition offsetAt (l : Time.Location) (t : Time.Time) : Z :=
  (Time.lookup l (Time.unixSec t)).1.1.

(** Unix seconds of 0000-01-01T00:00:00Z and of 10000-01-01T00:00:00Z, the
    bounds of the years that the four-digit layout prints. *)
Definition unixYear0 : Z := -62167219200.
Definition unixYear10000 : Z := 253402300800.

(** The nanoseconds of a [Time] lie within the second. *)
Definition validTime (t : Time.Time) : Prop := 0 <= Time.nsec t < 1000000000.

(** The range of an [int64]. *)
Definition int64 (z : Z) : Prop := - 2 ^ 63 <= z < 2 ^ 63.

(** The offsets of a location fit in 32 bits, as the time zone database
    stores them. *)
Definition validLocation (l : Time.Location) : Prop :=
  Forall (fun o => - 2 ^ 31 <= o < 2 ^ 31) (offsets l).

(** The test the sweep applies to a directory entry at [now]: it is no
    directory, its name parses as a bucket file name, and the parsed time is
    before [now] minus the retention window. *)
Definition expired (s : Server) (now : Time.Time) (e : Os.DirEntry) : bool :=
  negb (Os.IsDir e) &&
  match Time.ParseInLocation bucketFileLayout (Os.Name e) (location s) with
  | Some t => Time.Before t (cutoff s now)
  | None => false
  end.

(** [os.Remove] succeeds on the entry. *)
Definition removable (s : Server) (d : Os.Dir) (e : Os.DirEntry) : bool :=
  negb (Os.removeFails d (Filepath.Join [logDir s; Os.Name e])).

(** What the sweep prints for an entry it tries to remove. *)
Definition sweepMessage (s : Server) (d : Os.Dir) (e : Os.DirEntry) : Diagnostic :=
  if removable s d e then CleanedUp (Os.Name e)
  else FailedRemove (Filepath.Join [logDir s; Os.Name e]).

(** The sweep removes the entry [x] on account of one of the entries [es]:
    one that is expired, can be removed and has the name of [x]. *)
Definition swept (s : Server) (now : Time.Time) (d : Os.Dir) (es : list Os.DirEntry)
    (x : Os.DirEntry) : bool :=
  existsb (fun e => expired s now e && removable s d e
                    && bool_decide (Os.Name e = Os.Name x)) es.

(** [t] is not after [u] on the wall clock. *)
Definition notAfter (t u : Time.Time) : Prop :=
  Time.unixSec t < Time.unixSec u \/
  (Time.unixSec t = Time.unixSec u /\ Time.nsec t <= Time.nsec u).

(** The civil hour of a time in a location: the hours since the Unix epoch
    on the clock of the location. *)
Definition civilHour (l : Time.Location) (t : Time.Time) : Z :=
  (Time.unixSec t + offsetAt l t) / 3600.

(** The clock of the location shows a year of four digits at the time. *)
Definition fourDigitYear (l : Time.Location) (t : Time.Time) : Prop :=
  unixYear0 <= Time.unixSec t + offsetAt l t < unixYear10000.

(** A string of decimal digits. *)
Definition digits (s : gostring) : Prop := Forall (fun c => Time.isDigitChar c = true) s.

(** The shape of the names that the layout of the sweep parses: four
    digits, two digits and two digits joined by hyphens, [T], one or two
    digits, and [.log]. *)
Definition bucketShaped (name : gostring) : Prop :=
  exists y m d h,
    name = y ++ $"-" ++ m ++ $"-" ++ d ++ $"T" ++ h ++ $".log" /\
    length y = 4%nat /\ length m = 2%nat /\ length d = 2%nat /\
    (length h = 1%nat \/ length h = 2%nat) /\
    digits y /\ digits m /\ digits d /\ digits h.

(** *** The calendar, one 400-year cycle at a time *)

(** [absDate] after the 400-year cycles are cut off: the year within the
    cycle and the day within the year of day [r] of a cycle. *)
Definition cycleYear (r : Z) : Z * Z :=
  let d := r in
  let n := d / Time.daysPer100Years in
  let n := n - Z.shiftr n 2 in
  let y := 100 * n in
  let d := d - Time.daysPer100Years * n in
  let n := d / Time.daysPer4Years in
  let y := y + 4 * n in
  let d := d - Time.daysPer4Years * n in
  let n := d / 365 in
  let n := n - Z.shiftr n 2 in
  let y := y + n in
  let d := d - 365 * n in
  (y, d).

(** The end of [absDate]: month and day of month of a day of the year. *)
Definition monthDay (leap : bool) (yday : Z) : Z * Z :=
  if leap && (yday =? 31 + 29 - 1) then (Time.February, 29)
  else
    let day := if leap && (yday >? 31 + 29 - 1) then yday - 1 else yday in
    let month := day / 31 in
    let end_ := Time.daysBeforeAt (month + 1) in
    let '(month, begin) :=
      if day >=? end_ then (month + 1, end_) else (month, Time.daysBeforeAt month) in
    (month + 1, day - begin + 1).

(** Days from the start of a cycle to the start of its year [k]. *)
Definition cycleDays (k : Z) : Z :=
  Time.daysPer100Years * (k / 100) + Time.daysPer4Years * (k mod 100 / 4) + 365 * (k mod 4).

(** The day number that [Date] computes for a calendar date. *)
Definition dayNumber (year month day : Z) : Z :=
  Time.daysSinceEpoch year + Time.daysBeforeAt (month - 1)
  + (if Time.isLeap year && (month >=? Time.March) then 1 else 0) + (day - 1).

(** Year [k] of a cycle (the absolute years are congruent to [k + 1] modulo
    400) is a leap year exactly when it is the last of a four-year block
    that is not the last block of one of the first three centuries. *)
Definition leapCheck (k : Z) : bool :=
  Bool.eqb (Time.isLeap (k + 1))
    ((k mod 4 =? 3) && (negb (k mod 100 / 4 =? 24) || (k / 100 =? 3))).

Definition monthCheck (leap : bool) (yday : Z) : bool :=
  let '(m, d) := monthDay leap yday in
  (1 <=? m) && (m <=? 12) && (1 <=? d)
  && (d <=? (if (m =? Time.February) && leap then 29
             else Time.daysBeforeAt m - Time.daysBeforeAt (m - 1)))
  && (Time.daysBeforeAt (m - 1) + (if leap && (m >=? Time.March) then 1 else 0)
      + (d - 1) =? yday).

(** [f] holds on the [fuel] integers from [z] on. *)
Fixpoint checkFrom (f : Z -> bool) (fuel : nat) (z : Z) : bool :=
  match fuel with
  | O => true
  | S fuel' => f z && checkFrom f fuel' (z + 1)
  end.

(** *** Bucket file names *)

(** Two and four decimal digits, as [appendInt] prints a number that fits. *)
Definition fmt2 (n : Z) : gostring :=
  [Time.digitChar (n / 10); Time.digitChar (n mod 10)].

Definition fmt4 (y : Z) : gostring :=
  [Time.digitChar (y / 1000); Time.digitChar (y / 100 mod 10);
   Time.digitChar (y / 10 mod 10); Time.digitChar (y mod 10)].

(** The name of the bucket file of a calendar hour. *)
Definition bucketName (year month day hour : Z) : gostring :=
  fmt4 year ++ $"-" ++ fmt2 month ++ $"-" ++ fmt2 day ++ $"T" ++ fmt2 hour ++ $".log".

(** ** Deployments to evaluate the program on

    The server as [main] builds it with the default environment, a served
    root that holds [index.html], [access.log], [notes] and the directory
    [img.png], and a clock that starts on 2025-03-10 at 14:37 Central time. *)
Definition demoServer : Server :=
  {| wwwRoot := $"/var/www"; logDir := $"/var/log/app";
     location := Time.FixedZone (-6 * 60 * 60); retentionHours := 168 |}.

Definition demoFS : Os.FS :=
  {| Os.Getwd := Some $"/app";
     Os.Stat := fun p =>
       if bool_decide (p ∈ [$"/var/www/index.html"; $"/var/www/access.log";
                            $"/var/www/notes"])
       then Os.StatInfo false
       else if bool_decide (p = $"/var/www/img.png") then Os.StatInfo true
       else Os.StatNotExist |}.

Definition demoWorld : World :=
  {| fs := demoFS;
     clock := fun n =>
       {| Time.unixSec := 1741639020 + Z.of_nat n; Time.nsec := 0;
          Time.loc := Time.FixedZone 0 |};
     ServeFile := fun _ _ => [Http.CallWriteHeader 200; Http.CallWrite $"<html></html>"];
     unicodeLower := fun s => s |}.

Definition demoLogs : LogFiles :=
  {| records := ∅; openFails := fun _ => false; encodeFails := fun _ => false |}.

Definition GET (path : gostring) : Request :=
  {| reqMethod := Http.MethodGet; URLPath := path |}.

Definition demo (r : Request) : Handled Http.CallLog :=
  handleRequest extTables demoServer demoWorld demoLogs [] r.

(** America/Chicago in 2025: Central Standard Time, daylight saving time
    from March 9, 08:00 UTC, standard time again from November 2, 07:00 UTC. *)
Definition chicago2025 : Time.Location :=
  {| Time.firstOffset := -6 * 3600;
     Time.tx := [ {| Time.when := 1741507200; Time.transOffset := -5 * 3600 |};
                  {| Time.when := 1762066800; Time.transOffset := -6 * 3600 |} ] |}.

(** The same deployment with the file system root as the served root. *)
Definition rootServer : Server :=
  {| wwwRoot := $"/"; logDir := $"/var/log/app";
     location := Time.FixedZone (-6 * 60 * 60); retentionHours := 168 |}.

(** A time given by its Unix seconds. *)
Definition utc (sec : Z) : Time.Time :=
  {| Time.unixSec := sec; Time.nsec := 0; Time.loc := Time.FixedZone 0 |}.

(** A log directory on 2025-03-10: an old bucket, the bucket of 14:00
    Central time, and a file that is no bucket. *)
Definition marchDir : Os.Dir :=
  {| Os.entries :=
       [ {| Os.Name := $"2025-03-01T09.log"; Os.IsDir := false |};
         {| Os.Name := $"2025-03-10T14.log"; Os.IsDir := false |};
         {| Os.Name := $"notes.log"; Os.IsDir := false |} ];
     Os.readDirFails := false;
     Os.removeFails := fun _ => false |}.


(** * Properties *)

(** ** Strings *)
Section StringFacts.
Import Strings.

Lemma HasPrefix_true (s prefix : gostring) :
  HasPrefix s prefix = true <-> exists t, s = prefix ++ t.
Proof.
  unfold HasPrefix. rewrite andb_true_iff, bool_decide_eq_true, Nat.leb_le. split.
  - intros [_ Ht]. exists (drop (length prefix) s).
    rewrite <- Ht at 1. symmetry. apply take_drop.
  - intros [t ->]. rewrite length_app. split; [lia|].
    by rewrite take_app_length.
Qed.

Lemma HasPrefix_app (prefix t : gostring) : HasPrefix (prefix ++ t) prefix = true.
Proof. apply HasPrefix_true. by exists t. Qed.

Lemma HasPrefix_char (s : gostring) (c : ascii) :
  HasPrefix s [c] = true <-> exists t, s = c :: t.
Proof. rewrite HasPrefix_true. reflexivity. Qed.

(** [Contains] of a one-byte string is membership of the byte. *)
Lemma Contains_char (s : gostring) (c : ascii) :
  Contains s [c] = true <-> c ∈ s.
Proof.
  induction s as [|a s IH].
  - cbn. split; [discriminate | by intros ?%elem_of_nil].
  - cbn [Contains]. rewrite orb_true_iff, IH, HasPrefix_char, elem_of_cons. split.
    + intros [[t Ht]|Hin]; [left; congruence | by right].
    + intros [->|Hin]; [left; by exists s | by right].
Qed.

Lemma Contains_char_false (s : gostring) (c : ascii) :
  Contains s [c] = false <-> c ∉ s.
Proof.
  rewrite <- Contains_char. destruct (Contains s [c]); split; congruence.
Qed.

Lemma Contains_self (s : gostring) : Contains s s = true.
Proof.
  destruct s; cbn [Contains]; apply orb_true_iff; left;
    apply HasPrefix_true; exists []; by rewrite app_nil_r.
Qed.

Lemma TrimPrefix_slash (p : gostring) :
  TrimPrefix p $"/" = match p with
                      | c :: t => if bool_decide (c = "/"%char) then t else p
                      | [] => []
                      end.
Proof.
  unfold TrimPrefix. change $"/" with ["/"%char].
  destruct p as [|c t]; [reflexivity|].
  destruct (HasPrefix (c :: t) ["/"%char]) eqn:E.
  - apply HasPrefix_char in E as [t' [= -> <-]]. by rewrite bool_decide_eq_true_2.
  - case_bool_decide as Hc; [|reflexivity]. subst c.
    assert (E' : HasPrefix ("/"%char :: t) ["/"%char] = true)
      by (apply HasPrefix_char; eauto).
    congruence.
Qed.

End StringFacts.

(** ** [sanitizePath]: separators *)

(** C3.  A candidate whose remainder after the single leading slash holds a
    forward slash or a backslash is rejected by [sanitizePath], with the
    error "subdirectories not allowed". *)
Theorem sanitizePath_rejects_separators (s : Server) (fs : Os.FS) (p : gostring) :
  ("/"%char ∈ Strings.TrimPrefix p $"/" \/ "\"%char ∈ Strings.TrimPrefix p $"/") ->
  sanitizePath s fs p = inr Subdirectories.
Proof.
  intros Hsep. unfold sanitizePath.
  set (q := Strings.TrimPrefix p $"/") in *.
  assert (Hc : Strings.Contains q $"/" || Strings.Contains q $"\" = true).
  { apply orb_true_iff. destruct Hsep as [Hs|Hs];
      [left | right]; by apply Contains_char. }
  assert (Hne : bool_decide (q = []) || bool_decide (q = $".") = false).
  { apply orb_false_iff. split; apply bool_decide_eq_false; intros Hq;
      rewrite Hq in Hsep; destruct Hsep as [Hs|Hs];
      repeat (apply elem_of_cons in Hs as [Hs|Hs]; [discriminate|]);
      by apply elem_of_nil in Hs. }
  by rewrite Hne, Hc.
Qed.

Lemma sanitizePath_rejects_separators_witness :
  sanitizePath
    {| wwwRoot := $"/var/www"; logDir := $"/var/log/app";
       location := Time.FixedZone (-21600); retentionHours := 168 |}
    {| Os.Getwd := Some $"/app"; Os.Stat := fun _ => Os.StatNotExist |}
    $"/sub/dir/file.html" = inr Subdirectories.
Proof.
  apply sanitizePath_rejects_separators. left.
  apply Contains_char. vm_compute. reflexivity.
Defined.

(** ** The response recorder *)
Section RecorderFacts.
Context {W : Type} `{Http.ResponseWriter W}.
Import responseRecorder.

Lemma wrapI64_small (z : Z) : - 2 ^ 63 <= z < 2 ^ 63 -> Time.wrapI64 z = z.
Proof. intros Hz. unfold Time.wrapI64. rewrite Z.mod_small; lia. Qed.

Lemma wrapI64_add_l (a b : Z) : Time.wrapI64 (Time.wrapI64 a + b) = Time.wrapI64 (a + b).
Proof.
  unfold Time.wrapI64. f_equal.
  replace ((a + 2 ^ 63) mod 2 ^ 64 - 2 ^ 63 + b + 2 ^ 63)
    with ((a + 2 ^ 63) mod 2 ^ 64 + b) by lia.
  rewrite Zplus_mod_idemp_l. f_equal. lia.
Qed.

Lemma WriteHeader_fresh (code : Z) (rr : t W) :
  wroteHeader rr = false ->
  WriteHeader code rr =
    {| writer := Http.WriteHeader code (writer rr); statusCode := code;
       bytesWritten := bytesWritten rr; wroteHeader := true |}.
Proof. intros Hw. unfold WriteHeader. by rewrite Hw. Qed.

Lemma WriteHeader_again (code : Z) (rr : t W) :
  wroteHeader rr = true -> WriteHeader code rr = rr.
Proof. intros Hw. unfold WriteHeader. by rewrite Hw. Qed.

Lemma Write_after_header (p : gostring) (rr : t W) :
  wroteHeader rr = true ->
  fst (Write p rr) =
    {| writer := fst (Http.Write p (writer rr)); statusCode := statusCode rr;
       bytesWritten := Time.wrapI64 (bytesWritten rr + fst (snd (Http.Write p (writer rr))));
       wroteHeader := true |}.
Proof.
  intros Hw. unfold Write. rewrite Hw. cbn [negb].
  destruct (Http.Write p (writer rr)) as [w [n err]]. cbn. by rewrite Hw.
Qed.

(** [http.Error] through a recorder on which no header was written: the
    status is recorded, the embedded writer receives the same calls as if
    it had been given to [http.Error] itself, and the bytes it reports for
    the message are added to the count. *)
Lemma Error_recorded (rr : t W) (msg : gostring) (code : Z) :
  wroteHeader rr = false ->
  Http.Error rr msg code =
    {| writer := Http.Error (writer rr) msg code;
       statusCode := code;
       bytesWritten :=
         Time.wrapI64 (bytesWritten rr + fst (snd (Http.Write (msg ++ [ascii_of_nat 10])
           (Http.WriteHeader code
              (Http.HeaderSet $"X-Content-Type-Options" $"nosniff"
                 (Http.HeaderSet $"Content-Type" $"text/plain; charset=utf-8"
                    (Http.HeaderDel $"Content-Length" (writer rr))))))));
       wroteHeader := true |}.
Proof.
  intros Hw. unfold Http.Error at 1.
  cbn [Http.HeaderDel Http.HeaderSet Http.WriteHeader Http.Write recorder_ResponseWriter].
  rewrite WriteHeader_fresh by (cbn; exact Hw).
  rewrite Write_after_header by reflexivity. reflexivity.
Qed.

Lemma Error_status (w : W) (msg : gostring) (code : Z) :
  statusCode (Http.Error (new w) msg code) = code.
Proof. by rewrite Error_recorded. Qed.

Lemma Error_writer (w : W) (msg : gostring) (code : Z) :
  writer (Http.Error (new w) msg code) = Http.Error w msg code.
Proof. by rewrite Error_recorded. Qed.

End RecorderFacts.

Section RecorderSequences.
Context {W : Type} `{Http.ResponseWriter W}.
Import responseRecorder.

Lemma calls_cons {V} `{Http.ResponseWriter V} (v : V) (c : Http.Call) (cs : list Http.Call) :
  Http.calls v (c :: cs) = Http.calls (Http.call v c) cs.
Proof. reflexivity. Qed.

(** Once the header is written, a sequence of calls leaves the status
    alone, reaches the embedded writer without its [WriteHeader] calls, and
    adds up (in [int64]) the counts that writer reports. *)
Lemma calls_after_header (cs : list Http.Call) (rr : t W) :
  wroteHeader rr = true ->
  let rr' := Http.calls rr cs in
  statusCode rr' = statusCode rr /\
  wroteHeader rr' = true /\
  writer rr' = Http.calls (writer rr) (dropWriteHeaders cs) /\
  bytesWritten rr' =
    fold_left (fun b n => Time.wrapI64 (b + n))
      (reportedCounts (writer rr) (dropWriteHeaders cs)) (bytesWritten rr).
Proof.
  revert rr. induction cs as [|c cs IH]; intros rr Hw; [by cbn|].
  cbn zeta. rewrite calls_cons.
  assert (Hc : Http.call rr c =
    match c with
    | Http.CallHeaderDel k => onWriter (Http.HeaderDel k) rr
    | Http.CallHeaderSet k v => onWriter (Http.HeaderSet k v) rr
    | Http.CallWriteHeader _ => rr
    | Http.CallWrite p =>
        {| writer := fst (Http.Write p (writer rr)); statusCode := statusCode rr;
           bytesWritten :=
             Time.wrapI64 (bytesWritten rr + fst (snd (Http.Write p (writer rr))));
           wroteHeader := true |}
    end).
  { destruct c; cbn [Http.call Http.HeaderDel Http.HeaderSet Http.WriteHeader Http.Write
                     recorder_ResponseWriter]; try reflexivity.
    - by apply WriteHeader_again.
    - by apply Write_after_header. }
  rewrite Hc. unfold dropWriteHeaders. rewrite filter_cons.
  destruct c as [k|k v|code|p]; cbn [isWriteHeader];
    (case_decide; [|try congruence]); try discriminate;
    fold (dropWriteHeaders cs).
  - destruct (IH (onWriter (Http.HeaderDel k) rr) Hw) as (-> & -> & -> & ->). by cbn.
  - destruct (IH (onWriter (Http.HeaderSet k v) rr) Hw) as (-> & -> & -> & ->). by cbn.
  - by apply IH.
  - edestruct (IH {| writer := fst (Http.Write p (writer rr)); statusCode := statusCode rr;
       bytesWritten := Time.wrapI64 (bytesWritten rr + fst (snd (Http.Write p (writer rr))));
       wroteHeader := true |}) as (-> & -> & -> & ->); [done|].
    by cbn.
Qed.

Lemma fold_wrap_sum (ns : list Z) (b : Z) :
  fold_left (fun b n => Time.wrapI64 (b + n)) ns (Time.wrapI64 b) = Time.wrapI64 (b + sumZ ns).
Proof.
  revert b. induction ns as [|n ns IH]; intros b.
  - cbn [fold_left sumZ fold_right]. by rewrite Z.add_0_r.
  - change (sumZ (n :: ns)) with (n + sumZ ns). cbn [fold_left].
    rewrite wrapI64_add_l, IH. apply (f_equal Time.wrapI64). lia.
Qed.

(** C9.  On a new recorder, after a first [WriteHeader code] and any further
    calls: the recorded status is [code]; one more [WriteHeader] changes
    nothing, neither the recorder nor its embedded writer; the embedded
    writer has received the first [WriteHeader] and none of the later ones;
    and the recorded byte count is the [int64] sum of the counts the
    embedded writer reported for the [Write] calls, which is their exact sum
    when that fits in an [int64]. *)
Theorem recorder_first_status_and_byte_sum (w : W) (code : Z) (cs : list Http.Call) :
  let rr := Http.calls (new w) (Http.CallWriteHeader code :: cs) in
  let forwarded := Http.CallWriteHeader code :: dropWriteHeaders cs in
  statusCode rr = code /\
  (forall code', WriteHeader code' rr = rr) /\
  writer rr = Http.calls w forwarded /\
  bytesWritten rr = Time.wrapI64 (sumZ (reportedCounts w forwarded)) /\
  (- 2 ^ 63 <= sumZ (reportedCounts w forwarded) < 2 ^ 63 ->
   bytesWritten rr = sumZ (reportedCounts w forwarded)).
Proof.
  cbn zeta. rewrite calls_cons.
  cbn [Http.call Http.WriteHeader recorder_ResponseWriter].
  rewrite WriteHeader_fresh by reflexivity. cbn [new writer bytesWritten].
  match goal with |- context [Http.calls ?r cs] =>
    destruct (calls_after_header cs r eq_refl) as (Hs & Hw & Hwr & Hb) end.
  cbn [statusCode writer bytesWritten] in Hs, Hwr, Hb.
  assert (Hsum : forall v, fold_left (fun b n => Time.wrapI64 (b + n)) v 0
                           = Time.wrapI64 (sumZ v)).
  { intros v. pose proof (fold_wrap_sum v 0) as Hf.
    change (Time.wrapI64 0) with 0 in Hf. by rewrite Z.add_0_l in Hf. }
  rewrite Hsum in Hb.
  repeat split.
  - exact Hs.
  - intros code'. by apply WriteHeader_again.
  - rewrite Hwr. reflexivity.
  - rewrite Hb. reflexivity.
  - intros Hr. rewrite Hb. cbn [reportedCounts Http.call] in *.
    by apply wrapI64_small.
Qed.

End RecorderSequences.

Lemma recorder_first_status_and_byte_sum_witness :
  let rr := Http.calls (responseRecorder.new {| Http.received := []; Http.script := [3; 2] |})
              [Http.CallWriteHeader 404; Http.CallWrite $"Not Found";
               Http.CallWriteHeader 200; Http.CallWrite $"more"] in
  responseRecorder.statusCode rr = 404 /\ responseRecorder.bytesWritten rr = 5 /\
  Http.received (responseRecorder.writer rr) =
    [Http.CallWriteHeader 404; Http.CallWrite $"Not Found"; Http.CallWrite $"more"].
Proof.
  pose proof (recorder_first_status_and_byte_sum
    {| Http.received := []; Http.script := [3; 2] |} 404
    [Http.CallWrite $"Not Found"; Http.CallWriteHeader 200; Http.CallWrite $"more"])
    as (Hs & _ & Hw & _ & Hb).
  split; [exact Hs|]. split.
  - apply Hb. vm_compute. split; [discriminate | reflexivity].
  - rewrite Hw. vm_compute. reflexivity.
Defined.

(** ** The request handler *)
Section HandlerFacts.
Context {W : Type} `{Http.ResponseWriter W}.

(** [handleRequest] in terms of its body and of the deferred function. *)
Lemma handleRequest_unfold (tables : ExtTables) (s : Server) (w : World)
    (lf : LogFiles) (rw : W) (r : Request) :
  let h := handleRequest tables s w lf rw r in
  let b := handleBody tables s w (responseRecorder.new rw) r in
  let entry :=
    {| Timestamp := Time.In (clock w 2%nat) (location s);
       Method := reqMethod r; Path := URLPath r;
       Status := responseRecorder.statusCode b.2;
       Bytes := responseRecorder.bytesWritten b.2;
       Duration := elapsed (clock w 1%nat) (clock w 0%nat) |} in
  trace h = Received :: b.1.1 ++ [Logged; Done] /\
  statCalls h = b.1.2 /\
  recorder h = b.2 /\
  logCalls h = [entry] /\
  (logFiles h, diagnostics h) = logRequest s (clock w 3%nat) entry lf.
Proof.
  cbn zeta. unfold handleRequest.
  destruct (handleBody tables s w (responseRecorder.new rw) r) as [[marks stats] wrapped].
  cbn [fst snd].
  destruct (logRequest s (clock w 3%nat) _ lf) as [lf' diag]. by cbn.
Qed.

Lemma methodAllowed_test (r : Request) :
  negb (bool_decide (reqMethod r = Http.MethodGet))
  && negb (bool_decide (reqMethod r = Http.MethodHead)) = false <-> methodAllowed r.
Proof.
  unfold methodAllowed. rewrite andb_false_iff, !negb_false_iff, !bool_decide_eq_true.
  reflexivity.
Qed.

(** Every call of the body either answers with [http.Error] on one of the
    branches above or reaches [http.ServeFile]. *)
Lemma handleBody_cases (tables : ExtTables) (s : Server) (w : World)
    (wrapped : responseRecorder.t W) (r : Request) :
  (exists marks stats msg code,
     Branch marks stats msg code /\
     handleBody tables s w wrapped r = (marks, stats, Http.Error wrapped msg code)) \/
  (exists p,
     handleBody tables s w wrapped r =
       ([MethodChecked; PathValidated; Statd; ExtensionChecked; Serving], [p],
        Http.calls wrapped (ServeFile w r p))).
Proof.
  unfold handleBody.
  destruct (negb _ && negb _); [left; eauto 8 using Branch|].
  destruct (sanitizePath s (fs w) (URLPath r)) as [p|e]; [|left; eauto 8 using Branch].
  destruct (Os.Stat (fs w) p) as [[|]| |]; try solve [left; eauto 8 using Branch].
  destruct (mapIndex (blocked tables) _); [left; eauto 8 using Branch|].
  destruct (negb (mapIndex (allowed tables) _)); [left; eauto 8 using Branch|].
  right. eauto.
Qed.

End HandlerFacts.

Section HandlerClaims.
Context {W : Type} `{Http.ResponseWriter W}.

Lemma handleBody_method (tables : ExtTables) (s : Server) (w : World)
    (wrapped : responseRecorder.t W) (r : Request) :
  ~ methodAllowed r ->
  handleBody tables s w wrapped r =
    ([MethodChecked; MethodNotAllowed], [],
     Http.Error wrapped $"Method Not Allowed" Http.StatusMethodNotAllowed).
Proof.
  intros Hm. unfold handleBody.
  destruct (negb _ && negb _) eqn:E; [reflexivity|].
  by apply methodAllowed_test in E.
Qed.

Lemma handleBody_rejected (tables : ExtTables) (s : Server) (w : World)
    (wrapped : responseRecorder.t W) (r : Request) (e : PathError) :
  methodAllowed r ->
  sanitizePath s (fs w) (URLPath r) = inr e ->
  handleBody tables s w wrapped r =
    ([MethodChecked; PathValidated; Forbidden], [],
     Http.Error wrapped $"Forbidden" Http.StatusForbidden).
Proof.
  intros Hm He. unfold handleBody.
  rewrite (proj2 (methodAllowed_test r) Hm), He. reflexivity.
Qed.

Lemma handleBody_stat (tables : ExtTables) (s : Server) (w : World)
    (wrapped : responseRecorder.t W) (r : Request) (cleanPath : gostring) :
  methodAllowed r ->
  sanitizePath s (fs w) (URLPath r) = inl cleanPath ->
  handleBody tables s w wrapped r =
    match Os.Stat (fs w) cleanPath with
    | Os.StatNotExist =>
        ([MethodChecked; PathValidated; Statd; NotFound], [cleanPath],
         Http.Error wrapped $"Not Found" Http.StatusNotFound)
    | Os.StatError =>
        ([MethodChecked; PathValidated; Statd; InternalError], [cleanPath],
         Http.Error wrapped $"Internal Server Error" Http.StatusInternalServerError)
    | Os.StatInfo true =>
        ([MethodChecked; PathValidated; Statd; Forbidden], [cleanPath],
         Http.Error wrapped $"Forbidden" Http.StatusForbidden)
    | Os.StatInfo false =>
        let ext := Strings.ToLower (unicodeLower w) (Filepath.Ext cleanPath) in
        if mapIndex (blocked tables) ext || negb (mapIndex (allowed tables) ext) then
          ([MethodChecked; PathValidated; Statd; ExtensionChecked; Forbidden],
           [cleanPath], Http.Error wrapped $"Forbidden" Http.StatusForbidden)
        else
          ([MethodChecked; PathValidated; Statd; ExtensionChecked; Serving],
           [cleanPath], Http.calls wrapped (ServeFile w r cleanPath))
    end.
Proof.
  intros Hm Hp. unfold handleBody.
  rewrite (proj2 (methodAllowed_test r) Hm), Hp.
  destruct (Os.Stat (fs w) cleanPath) as [[|]| |]; try reflexivity.
  cbn zeta. by destruct (mapIndex (blocked tables) _), (mapIndex (allowed tables) _).
Qed.

(** C6.  Whatever branch a request takes, [handleRequest] hands exactly one
    entry to [logRequest]: it carries the request's method and path and the
    status and byte count of the recorder, the trace passes [Logged] once,
    and when the log file can be opened and written that entry, and nothing
    else, is appended to the current hour's file. *)
Theorem one_log_entry_per_request (tables : ExtTables) (s : Server) (w : World)
    (lf : LogFiles) (rw : W) (r : Request) :
  let h := handleRequest tables s w lf rw r in
  let logFile := currentLogFile s (clock w 3%nat) in
  (exists entry,
     logCalls h = [entry] /\
     Method entry = reqMethod r /\ Path entry = URLPath r /\
     Status entry = responseRecorder.statusCode (recorder h) /\
     Bytes entry = responseRecorder.bytesWritten (recorder h)) /\
  length (filter (fun st => st = Logged) (trace h)) = 1%nat /\
  (openFails lf logFile = false -> encodeFails lf logFile = false ->
   records (logFiles h) =
     <[logFile := default [] (records lf !! logFile) ++ logCalls h]> (records lf)).
Proof.
  cbn zeta.
  destruct (handleRequest_unfold tables s w lf rw r) as (Ht & _ & Hr & Hl & Hlog).
  cbn zeta in *. split; [|split].
  - eexists. split; [exact Hl|]. rewrite Hr. by cbn.
  - rewrite Ht.
    destruct (handleBody_cases tables s w (responseRecorder.new rw) r)
      as [(marks & stats & msg & code & Hb & ->)|[p ->]]; [destruct Hb|]; reflexivity.
  - intros Ho He. unfold logRequest in Hlog. rewrite Ho, He in Hlog.
    injection Hlog as -> _. rewrite Hl. reflexivity.
Qed.

End HandlerClaims.

Lemma one_log_entry_per_request_witness :
  length (logCalls (demo (GET $"/index.html"))) = 1%nat /\
  length (logCalls (demo (GET $"/sub/dir/file.html"))) = 1%nat /\
  records (logFiles (demo (GET $"/missing.png"))) !! $"/var/log/app/2025-03-10T14.log"
    = Some (logCalls (demo (GET $"/missing.png"))).
Proof.
  split; [|split].
  - destruct (one_log_entry_per_request extTables demoServer demoWorld demoLogs
                ([] : Http.CallLog) (GET $"/index.html")) as ((e & -> & _) & _).
    reflexivity.
  - destruct (one_log_entry_per_request extTables demoServer demoWorld demoLogs
                ([] : Http.CallLog) (GET $"/sub/dir/file.html")) as ((e & -> & _) & _).
    reflexivity.
  - destruct (one_log_entry_per_request extTables demoServer demoWorld demoLogs
                ([] : Http.CallLog) (GET $"/missing.png")) as (_ & _ & Hrec).
    unfold demo. etrans.
    { apply (f_equal (lookup _)). exact (Hrec eq_refl eq_refl). }
    assert (Hfile : currentLogFile demoServer (clock demoWorld 3%nat)
                    = $"/var/log/app/2025-03-10T14.log") by (vm_compute; reflexivity).
    rewrite Hfile, lookup_insert_eq. reflexivity.
Defined.

Section HandlerOutcomes.
Context {W : Type} `{Http.ResponseWriter W}.

(** C5.  Two requests that [sanitizePath] rejects, for whatever reasons and
    in whatever surroundings, leave the recorder in the same state when they
    start from the same writer: status 403, and on the wire what
    [http.Error] writes for "Forbidden". *)
Theorem rejections_indistinguishable (tables : ExtTables) (s : Server)
    (w1 w2 : World) (lf1 lf2 : LogFiles) (rw : W) (r1 r2 : Request)
    (e1 e2 : PathError) :
  methodAllowed r1 -> methodAllowed r2 ->
  sanitizePath s (fs w1) (URLPath r1) = inr e1 ->
  sanitizePath s (fs w2) (URLPath r2) = inr e2 ->
  let h1 := handleRequest tables s w1 lf1 rw r1 in
  let h2 := handleRequest tables s w2 lf2 rw r2 in
  recorder h1 = recorder h2 /\
  responseRecorder.statusCode (recorder h1) = 403 /\
  responseRecorder.writer (recorder h1) = Http.Error rw $"Forbidden" 403.
Proof.
  intros Hm1 Hm2 He1 He2. cbn zeta.
  destruct (handleRequest_unfold tables s w1 lf1 rw r1) as (_ & _ & -> & _).
  destruct (handleRequest_unfold tables s w2 lf2 rw r2) as (_ & _ & -> & _).
  rewrite (handleBody_rejected _ _ _ _ _ _ Hm1 He1),
          (handleBody_rejected _ _ _ _ _ _ Hm2 He2).
  cbn [fst snd]. split; [reflexivity|]. split.
  - apply Error_status.
  - apply Error_writer.
Qed.

(** C4.  For a request that reaches the extension check (an allowed method,
    an accepted path, an existing file that is no directory), whatever the
    two tables hold: when the lower-cased extension is blocked the answer is
    403, also when the allow table holds it; when the allow table does not
    hold it the answer is 403; the file is served only when the extension
    is allowed and not blocked.  In the program's tables [.log] is blocked
    and the empty extension is not allowed. *)
Theorem extension_policy (tables : ExtTables) (s : Server) (w : World)
    (lf : LogFiles) (rw : W) (r : Request) (cleanPath : gostring) :
  methodAllowed r ->
  sanitizePath s (fs w) (URLPath r) = inl cleanPath ->
  Os.Stat (fs w) cleanPath = Os.StatInfo false ->
  let ext := Strings.ToLower (unicodeLower w) (Filepath.Ext cleanPath) in
  let h := handleRequest tables s w lf rw r in
  let denied :=
    trace h = [Received; MethodChecked; PathValidated; Statd; ExtensionChecked;
               Forbidden; Logged; Done] /\
    responseRecorder.statusCode (recorder h) = 403 /\
    responseRecorder.writer (recorder h) = Http.Error rw $"Forbidden" 403 in
  (blocked tables !! ext = Some true -> denied) /\
  (allowed tables !! ext = None \/ allowed tables !! ext = Some false -> denied) /\
  (Serving ∈ trace h ->
   allowed tables !! ext = Some true /\ blocked tables !! ext <> Some true) /\
  blockedExts !! $".log" = Some true /\
  allowedExts !! ($"" : gostring) = None.
Proof.
  intros Hm Hp Hst. cbn zeta.
  destruct (handleRequest_unfold tables s w lf rw r) as (-> & _ & -> & _).
  rewrite (handleBody_stat _ _ _ _ _ _ Hm Hp), Hst. cbn zeta.
  set (ext := Strings.ToLower (unicodeLower w) (Filepath.Ext cleanPath)).
  assert (Hdeny : mapIndex (blocked tables) ext || negb (mapIndex (allowed tables) ext) = true ->
    forall b : list State * list gostring * responseRecorder.t W,
    b = (if mapIndex (blocked tables) ext || negb (mapIndex (allowed tables) ext)
         then ([MethodChecked; PathValidated; Statd; ExtensionChecked; Forbidden],
               [cleanPath], Http.Error (responseRecorder.new rw) $"Forbidden" Http.StatusForbidden)
         else ([MethodChecked; PathValidated; Statd; ExtensionChecked; Serving],
               [cleanPath], Http.calls (responseRecorder.new rw) (ServeFile w r cleanPath))) ->
    Received :: b.1.1 ++ [Logged; Done] =
      [Received; MethodChecked; PathValidated; Statd; ExtensionChecked;
       Forbidden; Logged; Done] /\
    responseRecorder.statusCode b.2 = 403 /\
    responseRecorder.writer b.2 = Http.Error rw $"Forbidden" 403).
  { intros -> b ->. cbn [fst snd]. split; [reflexivity|]. split.
    - apply Error_status.
    - apply Error_writer. }
  unfold mapIndex in *. split; [|split; [|split; [|split]]].
  - intros Hb. apply Hdeny; [|reflexivity]. by rewrite Hb.
  - intros Ha. apply Hdeny; [|reflexivity].
    destruct Ha as [-> | ->]; cbn; by rewrite orb_true_r.
  - destruct (blocked tables !! ext) as [[|]|], (allowed tables !! ext) as [[|]|];
      cbn; intros Hin; try (split; [reflexivity | discriminate]);
      repeat (apply elem_of_cons in Hin as [Hin|Hin]; [discriminate|]);
      by apply elem_of_nil in Hin.
  - vm_compute. reflexivity.
  - vm_compute. reflexivity.
Qed.

(** C2, as the code has it.  Every trace is a prefix of at least
    [Received; MethodChecked], continued in the order [PathValidated],
    [Statd], [ExtensionChecked], then one outcome, [Logged] and [Done]: the
    file is looked up with [os.Stat] before its extension is checked.  A
    request for a file that does not exist is answered 404 by the lookup,
    whatever its extension, and never reaches the extension check. *)
Theorem stat_before_extension_check (tables : ExtTables) (s : Server) (w : World)
    (lf : LogFiles) (rw : W) (r : Request) :
  let h := handleRequest tables s w lf rw r in
  (exists k outcome,
     (2 <= k)%nat /\ isOutcome outcome /\
     trace h = take k codeOrder ++ [outcome; Logged; Done]) /\
  (forall cleanPath,
     methodAllowed r ->
     sanitizePath s (fs w) (URLPath r) = inl cleanPath ->
     Os.Stat (fs w) cleanPath = Os.StatNotExist ->
     trace h = [Received; MethodChecked; PathValidated; Statd; NotFound; Logged; Done] /\
     statCalls h = [cleanPath] /\
     responseRecorder.statusCode (recorder h) = 404).
Proof.
  cbn zeta.
  destruct (handleRequest_unfold tables s w lf rw r) as (-> & -> & -> & _).
  split.
  - unfold isOutcome.
    destruct (handleBody_cases tables s w (responseRecorder.new rw) r)
      as [(marks & stats & msg & code & Hb & ->)|[p ->]]; [destruct Hb|]; cbn [fst snd].
    + exists 2%nat, MethodNotAllowed. repeat split; [lia|set_solver].
    + exists 3%nat, Forbidden. repeat split; [lia|set_solver].
    + exists 4%nat, NotFound. repeat split; [lia|set_solver].
    + exists 4%nat, InternalError. repeat split; [lia|set_solver].
    + exists 4%nat, Forbidden. repeat split; [lia|set_solver].
    + exists 5%nat, Forbidden. repeat split; [lia|set_solver].
    + exists 5%nat, Serving. repeat split; [lia|set_solver].
  - intros cleanPath Hm Hp Hst.
    rewrite (handleBody_stat _ _ _ _ _ _ Hm Hp), Hst. cbn [fst snd].
    repeat split. apply Error_status.
Qed.

End HandlerOutcomes.

Lemma rejections_indistinguishable_witness :
  recorder (demo (GET $"/")) = recorder (demo (GET $"/sub/dir/file.html")) /\
  recorder (demo (GET $"/sub/dir/file.html")) = recorder (demo (GET $"/../etc/passwd")) /\
  responseRecorder.writer (recorder (demo (GET $"/x..y"))) =
    [Http.CallHeaderDel $"Content-Length";
     Http.CallHeaderSet $"Content-Type" $"text/plain; charset=utf-8";
     Http.CallHeaderSet $"X-Content-Type-Options" $"nosniff";
     Http.CallWriteHeader 403;
     Http.CallWrite ($"Forbidden" ++ [ascii_of_nat 10])].
Proof.
  assert (Hget : forall p, methodAllowed (GET p)) by (by left).
  split; [|split].
  - eapply (rejections_indistinguishable extTables demoServer demoWorld demoWorld
              demoLogs demoLogs ([] : Http.CallLog) (GET $"/") (GET $"/sub/dir/file.html")
              DirectoryAccess Subdirectories); try apply Hget; reflexivity.
  - eapply (rejections_indistinguishable extTables demoServer demoWorld demoWorld
              demoLogs demoLogs ([] : Http.CallLog) (GET $"/sub/dir/file.html")
              (GET $"/../etc/passwd") Subdirectories Subdirectories);
      try apply Hget; reflexivity.
  - etrans.
    + eapply (rejections_indistinguishable extTables demoServer demoWorld demoWorld
                demoLogs demoLogs ([] : Http.CallLog) (GET $"/x..y") (GET $"/x..y")
                Traversal Traversal); try apply Hget; reflexivity.
    + reflexivity.
Defined.

Lemma extension_policy_witness :
  responseRecorder.statusCode (recorder (demo (GET $"/access.log"))) = 403 /\
  responseRecorder.statusCode (recorder (demo (GET $"/notes"))) = 403.
Proof.
  assert (Hget : forall p, methodAllowed (GET p)) by (by left).
  split.
  - destruct (extension_policy extTables demoServer demoWorld demoLogs ([] : Http.CallLog)
                (GET $"/access.log") $"/var/www/access.log" (Hget _) eq_refl eq_refl)
      as (Hblocked & _).
    apply Hblocked. vm_compute. reflexivity.
  - destruct (extension_policy extTables demoServer demoWorld demoLogs ([] : Http.CallLog)
                (GET $"/notes") $"/var/www/notes" (Hget _) eq_refl eq_refl)
      as (_ & Hdefault & _).
    apply Hdefault. left. vm_compute. reflexivity.
Defined.

Lemma stat_before_extension_check_witness :
  trace (demo (GET $"/missing.exe")) =
    [Received; MethodChecked; PathValidated; Statd; NotFound; Logged; Done] /\
  statCalls (demo (GET $"/missing.exe")) = [$"/var/www/missing.exe"] /\
  responseRecorder.statusCode (recorder (demo (GET $"/missing.exe"))) = 404.
Proof.
  eapply (stat_before_extension_check extTables demoServer demoWorld demoLogs
            ([] : Http.CallLog) (GET $"/missing.exe")); [by left | reflexivity | reflexivity].
Defined.

(** C2, as the spec states it, fails: the steps of the request for
    [/missing.exe], a file that does not exist and whose extension is not
    allowed, are not in the order of the spec; the lookup is made, the
    extension is never checked, and the answer is 404 rather than 403. *)
Lemma extension_check_before_stat_fails :
  let h := demo (GET $"/missing.exe") in
  ~ (steps (trace h) `prefix_of` specOrder) /\
  statCalls h = [$"/var/www/missing.exe"] /\
  (ExtensionChecked ∉ trace h) /\
  responseRecorder.statusCode (recorder h) = 404 /\
  allowedExts !! $".exe" = None.
Proof.
  cbn zeta. split; [|split; [|split; [|split]]].
  - vm_compute steps. intros [k Hk]. discriminate Hk.
  - reflexivity.
  - vm_compute trace. intros Hin.
    repeat (apply elem_of_cons in Hin as [Hin|Hin]; [discriminate|]).
    by apply elem_of_nil in Hin.
  - reflexivity.
  - vm_compute. reflexivity.
Qed.

(** ** [filepath.Clean] on the paths the server builds *)
Section CleanFacts.
Import Filepath.

Lemma IsPathSeparator_true (c : ascii) : IsPathSeparator c = true <-> c = Separator.
Proof. apply bool_decide_eq_true. Qed.

Lemma IsPathSeparator_false (c : ascii) : IsPathSeparator c = false <-> c <> Separator.
Proof. apply bool_decide_eq_false. Qed.

Lemma IsPathSeparator_Separator : IsPathSeparator Separator = true.
Proof. reflexivity. Qed.

Lemma clean_loop_nil (r cp : bool) (st : lazybuf * nat) : clean_loop r cp [] st = st.
Proof. by destruct st. Qed.

Lemma clean_loop_cons (r cp : bool) (c : ascii) (rest : gostring) (out : lazybuf)
    (dotdot : nat) :
  clean_loop r cp (c :: rest) (out, dotdot) =
    if IsPathSeparator c then clean_loop r false rest (out, dotdot)
    else if cp then clean_loop r true rest (out ++ [c], dotdot)
    else if isDot c && atElemEnd rest then clean_loop r false rest (out, dotdot)
    else
      let real := clean_loop r true rest (addSeparator r out ++ [c], dotdot) in
      match rest with
      | c2 :: rest2 =>
          if isDot c && isDot c2 && atElemEnd rest2 then
            if (dotdot <? length out)%nat then
              clean_loop r false rest2 (backtrack out dotdot, dotdot)
            else if negb r then
              let out' :=
                (if (0 <? length out)%nat then out ++ [Separator] else out)
                ++ ["."%char; "."%char] in
              clean_loop r false rest2 (out', length out')
            else clean_loop r false rest2 (out, dotdot)
          else real
      | [] => real
      end.
Proof. reflexivity. Qed.

Lemma atElemEnd_app_sep (x b : gostring) :
  atElemEnd (x ++ Separator :: b) = atElemEnd x.
Proof. destruct x; [|reflexivity]. cbn. by apply IsPathSeparator_true. Qed.

(** The loop on [a/b] is the loop on [b] started from the state the loop
    reaches on [a]: nothing that [Clean] does at an element looks past the
    next separator. *)
Lemma clean_loop_app_sep (r : bool) (b : gostring) (n : nat) :
  forall (a : gostring) (cp : bool) (st : lazybuf * nat),
    (length a <= n)%nat ->
    clean_loop r cp (a ++ Separator :: b) st = clean_loop r false b (clean_loop r cp a st).
Proof.
  induction n as [|n IH]; intros a cp [out dd] Hlen.
  - destruct a; [|cbn in Hlen; lia]. cbn [app].
    rewrite clean_loop_cons, clean_loop_nil.
    by rewrite IsPathSeparator_Separator.
  - destruct a as [|c rest].
    { cbn [app]. rewrite clean_loop_cons, clean_loop_nil.
      by rewrite IsPathSeparator_Separator. }
    cbn in Hlen. cbn [app]. rewrite !clean_loop_cons, atElemEnd_app_sep.
    destruct (IsPathSeparator c); [apply IH; lia|].
    destruct cp; [apply IH; lia|].
    destruct (isDot c && atElemEnd rest); [apply IH; lia|].
    cbn zeta. destruct rest as [|c2 rest2].
    + cbn [app]. rewrite clean_loop_cons, clean_loop_nil.
      rewrite IsPathSeparator_Separator.
      replace (isDot Separator) with false by reflexivity.
      by rewrite andb_false_r.
    + cbn in Hlen. cbn [app]. rewrite atElemEnd_app_sep.
      destruct (isDot c && isDot c2 && atElemEnd rest2).
      * destruct (dd <? length out)%nat; [apply IH; lia|].
        destruct (negb r); apply IH; lia.
      * apply (IH (c2 :: rest2)). cbn. lia.
Qed.

Lemma clean_loop_slash (r cp : bool) (a b : gostring) (st : lazybuf * nat) :
  clean_loop r cp (a ++ Separator :: b) st = clean_loop r false b (clean_loop r cp a st).
Proof. by apply (clean_loop_app_sep r b (length a)). Qed.

(** Copying the rest of an element. *)
Lemma clean_loop_copy (r : bool) (e : gostring) (out : lazybuf) (dd : nat) :
  Separator ∉ e -> clean_loop r true e (out, dd) = (out ++ e, dd).
Proof.
  revert out. induction e as [|c e IH]; intros out Hsep.
  - by rewrite clean_loop_nil, app_nil_r.
  - apply not_elem_of_cons in Hsep as [Hc Hsep].
    rewrite clean_loop_cons, (proj2 (IsPathSeparator_false c)) by done.
    rewrite IH by done. by rewrite <- app_assoc.
Qed.

(** A real element is appended to the buffer, after a separator if one is
    needed. *)
Lemma clean_loop_real (r : bool) (e : gostring) (out : lazybuf) (dd : nat) :
  realElem e -> clean_loop r false e (out, dd) = (addSeparator r out ++ e, dd).
Proof.
  intros (Hne & Hsep & Hdot & Hdotdot).
  destruct e as [|c e]; [done|].
  apply not_elem_of_cons in Hsep as [Hc Hsep].
  rewrite clean_loop_cons, (proj2 (IsPathSeparator_false c)) by done.
  assert (Hcopy : clean_loop r true e (addSeparator r out ++ [c], dd)
                  = (addSeparator r out ++ c :: e, dd)).
  { rewrite clean_loop_copy by done. by rewrite <- app_assoc. }
  destruct (isDot c) eqn:Ec; cbn [andb].
  - apply bool_decide_eq_true in Ec as ->.
    destruct e as [|c2 e]; [done|].
    apply not_elem_of_cons in Hsep as [Hc2 Hsep].
    cbn [atElemEnd]. rewrite (proj2 (IsPathSeparator_false c2)) by done.
    destruct (isDot c2) eqn:Ec2; cbn [andb]; [|exact Hcopy].
    apply bool_decide_eq_true in Ec2 as ->.
    destruct e as [|c3 e]; [done|].
    apply not_elem_of_cons in Hsep as [Hc3 Hsep].
    cbn [atElemEnd]. rewrite (proj2 (IsPathSeparator_false c3)) by done.
    exact Hcopy.
  - destruct e; exact Hcopy.
Qed.

End CleanFacts.

Section JoinFacts.
Import Filepath.

Lemma backtrack_loop_ge (out : lazybuf) (dd w : nat) :
  (dd <= w)%nat -> (dd <= backtrack_loop out dd w)%nat.
Proof.
  induction w as [|w IH]; intros Hle; [done|]. cbn [backtrack_loop].
  destruct (dd <? S w)%nat eqn:E; cbn [andb]; [|done].
  apply Nat.ltb_lt in E. destruct (negb _); [apply IH; lia | done].
Qed.

(** The buffer of a rooted path always starts with the separator, and
    [dotdot] stays at 1. *)
Lemma clean_loop_rooted (n : nat) :
  forall (path : gostring) (cp : bool) (t : lazybuf),
    (length path <= n)%nat ->
    exists t', clean_loop true cp path (Separator :: t, 1%nat) = (Separator :: t', 1%nat).
Proof.
  induction n as [|n IH]; intros path cp t Hlen.
  { destruct path; [|cbn in Hlen; lia]. rewrite clean_loop_nil. eauto. }
  destruct path as [|c rest]; [rewrite clean_loop_nil; eauto|].
  cbn in Hlen. rewrite clean_loop_cons.
  assert (Hadd : exists u, addSeparator true (Separator :: t) ++ [c] = Separator :: u).
  { unfold addSeparator. destruct (_ || _); cbn; eauto. }
  destruct Hadd as [u Hu].
  destruct (IsPathSeparator c); [apply IH; lia|].
  destruct cp; [apply (IH rest true (t ++ [c])); lia|].
  destruct (isDot c && atElemEnd rest); [apply IH; lia|].
  cbn zeta. rewrite Hu. destruct rest as [|c2 rest2]; [apply IH; cbn; lia|].
  cbn in Hlen.
  destruct (isDot c && isDot c2 && atElemEnd rest2); [|apply IH; cbn; lia].
  destruct (1 <? length (Separator :: t))%nat eqn:E; [|apply IH; lia].
  unfold backtrack.
  pose proof (backtrack_loop_ge (Separator :: t) 1 (length (Separator :: t) - 1)) as Hk.
  apply Nat.ltb_lt in E. specialize (Hk ltac:(lia)).
  destruct (backtrack_loop _ _ _) as [|k]; [lia|]. cbn [take].
  apply IH. lia.
Qed.

Lemma cleanBuf_rooted (path : gostring) :
  rooted path = true -> exists t, cleanBuf path = Separator :: t.
Proof.
  destruct path as [|c rest]; [discriminate|]. cbn [rooted cleanBuf]. intros ->.
  destruct (clean_loop_rooted (length rest) rest false [] (le_n _)) as [t' ->]. eauto.
Qed.

Lemma Clean_cleanBuf (path : gostring) :
  path <> [] ->
  Clean path = if (length (cleanBuf path) =? 0)%nat then $"." else cleanBuf path.
Proof.
  destruct path as [|c rest]; [done|]. intros _. unfold Clean, cleanBuf.
  by destruct (IsPathSeparator c).
Qed.

Lemma Clean_rooted (path : gostring) : rooted path = true -> Clean path = cleanBuf path.
Proof.
  intros Hr. rewrite Clean_cleanBuf by (by destruct path).
  by destruct (cleanBuf_rooted path Hr) as [t ->].
Qed.

(** [Clean] leaves a real element as it is. *)
Lemma Clean_real (q : gostring) : realElem q -> Clean q = q.
Proof.
  intros Hq. pose proof Hq as (Hne & Hsep & _).
  destruct q as [|c q]; [done|].
  apply not_elem_of_cons in Hsep as [Hc Hsep].
  unfold Clean. rewrite (proj2 (IsPathSeparator_false c)) by done.
  by rewrite (clean_loop_real false (c :: q) [] 0 Hq).
Qed.

(** [Clean] of [root/q] for a real element [q]: the buffer of [root], a
    separator if one is needed, and [q]. *)
Lemma Clean_slash_real (root q : gostring) :
  root <> [] -> realElem q ->
  Clean (root ++ Separator :: q) = addSeparator (rooted root) (cleanBuf root) ++ q.
Proof.
  intros Hroot Hq. destruct root as [|c r]; [done|].
  assert (Hlen : forall out : lazybuf,
             (length (addSeparator (IsPathSeparator c) out ++ q) =? 0)%nat = false).
  { intros out. apply Nat.eqb_neq. rewrite length_app.
    destruct Hq as (Hne & _). destruct q; [done|]. cbn. lia. }
  unfold Clean. cbn [app rooted cleanBuf].
  destruct (IsPathSeparator c) eqn:Ec.
  - rewrite clean_loop_slash.
    destruct (clean_loop true false r ([Separator], 1%nat)) as [out dd].
    rewrite clean_loop_real by done. cbn [fst].
    by rewrite Hlen.
  - rewrite app_comm_cons, (clean_loop_slash false false (c :: r)).
    destruct (clean_loop false false (c :: r) ([], 0%nat)) as [out dd].
    rewrite clean_loop_real by done. cbn [fst].
    by rewrite Hlen.
Qed.

Lemma Join_root_real (root q : gostring) :
  realElem q ->
  Join [root; q] =
    if bool_decide (root = []) then q
    else addSeparator (rooted root) (cleanBuf root) ++ q.
Proof.
  intros Hq. cbn [Join joinSep]. case_bool_decide as Hroot.
  - pose proof Hq as (Hne & _). rewrite bool_decide_eq_false_2 by done.
    by apply Clean_real.
  - destruct root; [done|]. by apply Clean_slash_real.
Qed.

Lemma last_real (pre q : gostring) :
  q <> [] -> Separator ∉ q ->
  exists c, last (pre ++ q) = Some c /\ IsPathSeparator c = false.
Proof.
  intros Hne Hsep. destruct (exists_last Hne) as (q' & c & ->).
  exists c. rewrite app_assoc, last_snoc. split; [done|].
  apply IsPathSeparator_false. intros ->. apply Hsep, elem_of_app. right. by left.
Qed.

Lemma stripTrailing_real (pre q : gostring) :
  q <> [] -> Separator ∉ q ->
  stripTrailing (length (pre ++ q)) (pre ++ q) = pre ++ q.
Proof.
  intros Hne Hsep. destruct (last_real pre q Hne Hsep) as (c & Hl & Hc).
  destruct (length (pre ++ q)); [done|]. cbn [stripTrailing]. by rewrite Hl, Hc.
Qed.

Lemma lastElem_loop_found (pre q : gostring) (k : nat) :
  Separator ∉ q -> (k <= length q)%nat ->
  lastElem_loop (pre ++ Separator :: q) (length pre + 1 + k) = q.
Proof.
  intros Hsep. induction k as [|k IH]; intros Hk.
  - replace (length pre + 1 + 0)%nat with (S (length pre)) by lia.
    cbn [lastElem_loop]. rewrite list_lookup_middle by done.
    rewrite IsPathSeparator_Separator.
    change (pre ++ Separator :: q) with (pre ++ [Separator] ++ q).
    rewrite app_assoc. rewrite drop_app_length'; [done|].
    rewrite length_app. cbn. lia.
  - replace (length pre + 1 + S k)%nat with (S (length pre + 1 + k)) by lia.
    cbn [lastElem_loop].
    destruct (lookup_lt_is_Some_2 q k ltac:(lia)) as [c Hc].
    assert (Hl : (pre ++ Separator :: q) !! (length pre + 1 + k)%nat = Some c).
    { rewrite lookup_app_r by lia.
      replace (length pre + 1 + k - length pre)%nat with (S k) by lia. exact Hc. }
    rewrite Hl. rewrite (proj2 (IsPathSeparator_false c)).
    + apply IH. lia.
    + intros ->. apply Hsep. by eapply list_elem_of_lookup_2.
Qed.

Lemma lastElem_loop_none (q : gostring) (k : nat) :
  Separator ∉ q -> (k <= length q)%nat -> lastElem_loop q k = q.
Proof.
  intros Hsep. induction k as [|k IH]; intros Hk; [done|].
  cbn [lastElem_loop].
  destruct (lookup_lt_is_Some_2 q k ltac:(lia)) as [c Hc]. rewrite Hc.
  rewrite (proj2 (IsPathSeparator_false c)).
  - apply IH. lia.
  - intros ->. apply Hsep. by eapply list_elem_of_lookup_2.
Qed.

(** The base name of [pre/q] and of [q] is [q]. *)
Lemma Base_slash (pre q : gostring) :
  q <> [] -> Separator ∉ q -> Base (pre ++ Separator :: q) = q.
Proof.
  intros Hne Hsep. unfold Base.
  rewrite bool_decide_eq_false_2 by (by destruct pre).
  change (pre ++ Separator :: q) with (pre ++ [Separator] ++ q).
  rewrite app_assoc, stripTrailing_real by done. rewrite <- app_assoc.
  cbn [app]. replace (length (pre ++ Separator :: q)) with (length pre + 1 + length q)%nat
    by (rewrite length_app; cbn; lia).
  rewrite lastElem_loop_found by done. by rewrite bool_decide_eq_false_2.
Qed.

Lemma Base_plain (q : gostring) : q <> [] -> Separator ∉ q -> Base q = q.
Proof.
  intros Hne Hsep. unfold Base. rewrite bool_decide_eq_false_2 by done.
  pose proof (stripTrailing_real [] q Hne Hsep) as Hs. cbn [app] in Hs. rewrite Hs.
  rewrite lastElem_loop_none by done. by rewrite bool_decide_eq_false_2.
Qed.

End JoinFacts.

(** ** [sanitizePath]: what acceptance means *)
Section SanitizeFacts.
Import Filepath.

(** The checks an accepted candidate has passed. *)
Lemma sanitizePath_accepted (s : Server) (fs : Os.FS) (p full : gostring) :
  sanitizePath s fs p = inl full ->
  let q := Strings.TrimPrefix p $"/" in
  realElem q /\
  ("\"%char ∉ q) /\
  Strings.Contains q $".." = false /\
  full = Join [wwwRoot s; Clean q] /\
  exists absWwwRoot absPath,
    Abs (Os.Getwd fs) (wwwRoot s) = Some absWwwRoot /\
    Abs (Os.Getwd fs) full = Some absPath /\
    (Strings.HasPrefix absPath (absWwwRoot ++ [Separator]) = true \/ absPath = absWwwRoot).
Proof.
  unfold sanitizePath. set (q := Strings.TrimPrefix p $"/"). cbn zeta.
  destruct (bool_decide (q = []) || bool_decide (q = $".")) eqn:Edir; [discriminate|].
  destruct (Strings.Contains q $"/" || Strings.Contains q $"\") eqn:Esep; [discriminate|].
  destruct (Strings.Contains q $"..") eqn:Edd; [discriminate|].
  destruct (Strings.Contains (Clean q) $"..") eqn:Edd'; [discriminate|].
  destruct (Abs (Os.Getwd fs) (wwwRoot s)) as [absWwwRoot|] eqn:Eroot; [|discriminate].
  destruct (Abs (Os.Getwd fs) (Join [wwwRoot s; Clean q])) as [absPath|] eqn:Epath;
    [|discriminate].
  destruct (negb _ && negb _) eqn:Echeck; [discriminate|].
  intros [= <-].
  apply orb_false_iff in Edir as [Hne%bool_decide_eq_false Hdot%bool_decide_eq_false].
  apply orb_false_iff in Esep as [Hslash Hback].
  change $"/" with ["/"%char] in Hslash. change $"\" with ["\"%char] in Hback.
  apply Contains_char_false in Hslash, Hback.
  split; [|split; [|split; [|split]]]; try done.
  - repeat split; try done. intros Hq. rewrite Hq in Edd. discriminate.
  - exists absWwwRoot, absPath. repeat split; try done.
    apply andb_false_iff in Echeck as [Hc|Hc]; apply negb_false_iff in Hc.
    + by left.
    + right. by apply bool_decide_eq_true in Hc.
Qed.

Lemma IsAbs_rooted (path : gostring) : IsAbs path = rooted path.
Proof.
  unfold IsAbs. change $"/" with ["/"%char]. destruct path as [|c t]; [reflexivity|].
  cbn [rooted]. destruct (IsPathSeparator c) eqn:Ec.
  - apply IsPathSeparator_true in Ec as ->. apply HasPrefix_char. eauto.
  - apply IsPathSeparator_false in Ec.
    destruct (Strings.HasPrefix (c :: t) ["/"%char]) eqn:E; [|reflexivity].
    apply HasPrefix_char in E as [t' [= -> _]]. done.
Qed.

(** C10.  For an accepted candidate, with [q] the candidate without its
    single leading slash: [Clean] leaves [q] as it is, the returned path is
    [Join] of the served root and [q], and its base name is [q], byte for
    byte. *)
Theorem accepted_path_is_root_joined_with_name (s : Server) (fs : Os.FS)
    (p full : gostring) :
  sanitizePath s fs p = inl full ->
  let q := Strings.TrimPrefix p $"/" in
  (p = q \/ p = Separator :: q) /\
  Clean q = q /\
  full = Join [wwwRoot s; q] /\
  Base full = q.
Proof.
  intros Hacc. cbn zeta.
  destruct (sanitizePath_accepted s fs p full Hacc) as (Hq & _ & _ & Hfull & _).
  pose proof Hq as (Hne & Hsep & _).
  rewrite (Clean_real _ Hq) in Hfull.
  split; [|split; [by apply Clean_real|split; [done|]]].
  - rewrite TrimPrefix_slash. destruct p as [|c t]; [by left|].
    case_bool_decide as Hc; [right; by rewrite Hc | by left].
  - rewrite Hfull, Join_root_real by done. case_bool_decide; [by apply Base_plain|].
    unfold addSeparator. destruct (_ || _) eqn:Eadd.
    + rewrite <- app_assoc. by apply Base_slash.
    + destruct (rooted (wwwRoot s)) eqn:Er; cbn [andb orb negb] in Eadd.
      * destruct (cleanBuf_rooted _ Er) as [t Ht]. rewrite Ht in *.
        rewrite orb_false_r in Eadd.
        apply negb_false_iff, Nat.eqb_eq in Eadd.
        destruct t; [|discriminate]. by apply (Base_slash []).
      * apply negb_false_iff, Nat.eqb_eq in Eadd.
        destruct (cleanBuf (wwwRoot s)); [|discriminate]. by apply Base_plain.
Qed.

Lemma accepted_path_is_root_joined_with_name_witness :
  Clean $"report.html" = $"report.html" /\
  Join [$"/var/www"; $"report.html"] = $"/var/www/report.html" /\
  Base $"/var/www/report.html" = $"report.html".
Proof.
  destruct (accepted_path_is_root_joined_with_name demoServer demoFS $"/report.html"
              $"/var/www/report.html" eq_refl) as (_ & Hc & Hj & Hb).
  split; [exact Hc|]. split; [|exact Hb]. symmetry. exact Hj.
Defined.

(** C1.  For an accepted candidate the canonical absolute form of the
    returned path is the canonical absolute served root or starts with that
    root followed by a separator.  When the served root is an absolute path,
    as the data model has it, its canonical form is [Clean] of it and the
    returned path itself is that root or starts with that root followed by a
    separator. *)
Theorem accepted_path_within_root (s : Server) (fs : Os.FS) (p full : gostring) :
  sanitizePath s fs p = inl full ->
  (exists absWwwRoot absPath,
     Abs (Os.Getwd fs) (wwwRoot s) = Some absWwwRoot /\
     Abs (Os.Getwd fs) full = Some absPath /\
     (absPath = absWwwRoot \/ exists t, absPath = absWwwRoot ++ Separator :: t)) /\
  (IsAbs (wwwRoot s) = true ->
     Abs (Os.Getwd fs) (wwwRoot s) = Some (Clean (wwwRoot s)) /\
     (full = Clean (wwwRoot s) \/
      exists t, full = Clean (wwwRoot s) ++ Separator :: t)).
Proof.
  intros Hacc.
  destruct (sanitizePath_accepted s fs p full Hacc)
    as (Hq & _ & _ & Hfull & absWwwRoot & absPath & Hroot & Hpath & Hcheck).
  cbn zeta in *. set (q := Strings.TrimPrefix p $"/") in *.
  assert (Hin : absPath = absWwwRoot \/ exists t, absPath = absWwwRoot ++ Separator :: t).
  { destruct Hcheck as [Hpre|Heq]; [right | by left].
    apply HasPrefix_true in Hpre as [t ->]. exists t. by rewrite <- app_assoc. }
  split; [by exists absWwwRoot, absPath|].
  intros Habs. pose proof Habs as Hr. rewrite IsAbs_rooted in Hr.
  unfold Abs in Hroot, Hpath |- *. rewrite Habs in Hroot |- *.
  injection Hroot as <-. split; [done|].
  rewrite (Clean_real _ Hq) in Hfull.
  rewrite Join_root_real in Hfull by done.
  rewrite bool_decide_eq_false_2 in Hfull by (by destruct (wwwRoot s)).
  rewrite Hr in Hfull. rewrite (Clean_rooted _ Hr) in *.
  destruct (cleanBuf_rooted _ Hr) as [t Ht]. rewrite Ht in *.
  pose proof Hq as (Hne & Hsep & _).
  unfold addSeparator in Hfull. cbn [andb orb negb] in Hfull.
  rewrite orb_false_r in Hfull.
  destruct (negb (length (Separator :: t) =? 1)%nat) eqn:E.
  - right. exists q. by rewrite Hfull, <- app_assoc.
  - (* the root is [/]: the final check of [sanitizePath] lets nothing through *)
    exfalso. apply negb_false_iff, Nat.eqb_eq in E. destruct t; [|discriminate].
    cbn [app] in Hfull. subst full.
    replace (IsAbs (Separator :: q)) with true in Hpath by reflexivity.
    assert (Hp : Clean (Separator :: q) = absPath) by congruence.
    assert (Hc : Clean (Separator :: q) = Separator :: q).
    { unfold Clean. rewrite IsPathSeparator_Separator. by rewrite clean_loop_real. }
    rewrite <- Hp, Hc in Hin. destruct Hin as [[= Hq0]|[t' [= Hq0]]]; [done|].
    apply Hsep. rewrite Hq0. by left.
Qed.

Lemma accepted_path_within_root_witness :
  Abs (Some $"/app") $"/var//www/" = Some $"/var/www" /\
  exists t, $"/var/www/report.html" = $"/var/www" ++ Separator :: t.
Proof.
  destruct (accepted_path_within_root
              {| wwwRoot := $"/var//www/"; logDir := $"/var/log/app";
                 location := Time.FixedZone 0; retentionHours := 168 |}
              demoFS $"/report.html" $"/var/www/report.html" eq_refl)
    as (_ & Hlit).
  destruct (Hlit eq_refl) as (Hroot & [Heq|Hpre]).
  - split; [exact Hroot|]. discriminate Heq.
  - split; [exact Hroot|]. exact Hpre.
Defined.

End SanitizeFacts.

(** ** The calendar *)
Section CalendarFacts.
Import Time.

Lemma checkFrom_spec (f : Z -> bool) (fuel : nat) (z : Z) :
  checkFrom f fuel z = true -> forall k, z <= k < z + Z.of_nat fuel -> f k = true.
Proof.
  revert z. induction fuel as [|fuel IH]; intros z Hc k Hk; [lia|].
  cbn [checkFrom] in Hc. apply andb_true_iff in Hc as [Hz Hc].
  destruct (Z.eq_dec k z) as [->|Hne]; [done|]. apply (IH (z + 1)); [done|lia].
Qed.

(** Every year of a 400-year cycle and every day of a year, by evaluation. *)
Lemma leapCheck_cycle : checkFrom leapCheck 400 0 = true.
Proof. vm_compute. reflexivity. Qed.

Lemma monthCheck_year :
  checkFrom (monthCheck false) 365 0 && checkFrom (monthCheck true) 366 0 = true.
Proof. vm_compute. reflexivity. Qed.

Lemma leapCheck_all (k : Z) :
  0 <= k < 400 ->
  isLeap (k + 1) = (k mod 4 =? 3) && (negb (k mod 100 / 4 =? 24) || (k / 100 =? 3)).
Proof.
  intros Hk. apply eqb_prop. apply (checkFrom_spec _ _ _ leapCheck_cycle). lia.
Qed.

(** The day [r] of a cycle falls in year [k] of the cycle, [yday] days after
    its start; the last day of a four-year block is day 365 of its fourth
    year, except in the last block of a century that ends without a leap
    year, which is a day shorter. *)
Lemma cycleYear_spec (r : Z) :
  0 <= r < 146097 ->
  let '(k, yday) := cycleYear r in
  0 <= k < 400 /\ 0 <= yday < (if isLeap (k + 1) then 366 else 365) /\
  cycleDays k + yday = r /\ (k = 399 <-> 145731 <= r).
Proof.
  intros Hr.
  assert (Hgoal : let '(k, yday) := cycleYear r in
    0 <= k < 400 /\ 0 <= yday /\
    (yday < 365 \/ (yday = 365 /\ k mod 4 = 3 /\ (k mod 100 / 4 <> 24 \/ k / 100 = 3))) /\
    cycleDays k + yday = r /\ (k = 399 <-> 145731 <= r)).
  { unfold cycleYear, cycleDays, daysPer100Years, daysPer4Years. cbv zeta.
    rewrite !Z.shiftr_div_pow2 by lia. change (2 ^ 2) with 4.
    change (365 * 100 + 24) with 36524. change (365 * 4 + 1) with 1461.
    set (n100 := r / 36524).
    pose proof (Z.div_mod r 36524 ltac:(lia)) as H1.
    pose proof (Z.mod_pos_bound r 36524 ltac:(lia)) as B1. fold n100 in H1.
    assert (Hn100 : 0 <= n100 <= 4) by lia.
    set (s1 := n100 / 4).
    assert (Hs1 : s1 = if n100 =? 4 then 1 else 0).
    { unfold s1. destruct (n100 =? 4) eqn:E;
        [apply Z.eqb_eq in E; rewrite E; reflexivity|].
      apply Z.eqb_neq in E. apply Z.div_small. lia. }
    set (n1 := n100 - s1). set (r1 := r - 36524 * n1). set (n2 := r1 / 1461).
    pose proof (Z.div_mod r1 1461 ltac:(lia)) as H2.
    pose proof (Z.mod_pos_bound r1 1461 ltac:(lia)) as B2. fold n2 in H2.
    set (r2 := r1 - 1461 * n2). set (n3' := r2 / 365).
    pose proof (Z.div_mod r2 365 ltac:(lia)) as H3.
    pose proof (Z.mod_pos_bound r2 365 ltac:(lia)) as B3. fold n3' in H3.
    set (s3 := n3' / 4).
    assert (Hr1 : 0 <= r1 <= 36524 /\ (n1 < 3 -> r1 < 36524) /\ 0 <= n1 <= 3).
    { unfold r1, n1. destruct (n100 =? 4) eqn:E; lia. }
    assert (Hn2 : 0 <= n2 <= 24) by lia.
    assert (Hr2 : 0 <= r2 < 1461 /\ (n2 = 24 -> n1 < 3 -> r2 < 1460))
      by (unfold r2; lia).
    assert (Hn3' : 0 <= n3' <= 4) by lia.
    assert (Hs3 : s3 = if n3' =? 4 then 1 else 0).
    { unfold s3. destruct (n3' =? 4) eqn:E;
        [apply Z.eqb_eq in E; rewrite E; reflexivity|].
      apply Z.eqb_neq in E. apply Z.div_small. lia. }
    set (n3 := n3' - s3).
    assert (Hn3 : 0 <= n3 <= 3 /\ (n3' = 4 -> n3 = 3) /\ (n3' < 4 -> n3 = n3')).
    { unfold n3. destruct (n3' =? 4) eqn:E; lia. }
    set (k := 100 * n1 + 4 * n2 + n3).
    assert (Hk100 : k / 100 = n1)
      by (unfold k; symmetry; apply (Z.div_unique _ _ _ (4 * n2 + n3)); lia).
    assert (Hkm : k mod 100 = 4 * n2 + n3)
      by (unfold k; symmetry; apply (Z.mod_unique _ _ n1); lia).
    assert (Hk4 : k mod 4 = n3)
      by (unfold k; symmetry; apply (Z.mod_unique _ _ (25 * n1 + n2)); lia).
    assert (Hkq : k mod 100 / 4 = n2)
      by (rewrite Hkm; symmetry; apply (Z.div_unique _ _ _ n3); lia).
    rewrite Hk100, Hkq, Hk4.
    unfold r2, r1 in *. clearbody n100 s1 n2 n3' s3.
    destruct (n100 =? 4) eqn:E4; destruct (n3' =? 4) eqn:E3; lia. }
  destruct (cycleYear r) as [k yday].
  destruct Hgoal as (Hk & Hy0 & Hy & Hsum & H399).
  split; [done|]. split; [|done].
  rewrite leapCheck_all by done.
  destruct Hy as [Hy|(-> & -> & Hq)]; [destruct (_ && _); lia|].
  rewrite Z.eqb_refl. cbn [andb].
  destruct Hq as [Hq| ->]; [|rewrite Z.eqb_refl, orb_true_r; lia].
  apply Z.eqb_neq in Hq. rewrite Hq. cbn. lia.
Qed.

Lemma monthCheck_all (leap : bool) (yday : Z) :
  0 <= yday < (if leap then 366 else 365) -> monthCheck leap yday = true.
Proof.
  pose proof monthCheck_year as Hc. apply andb_true_iff in Hc as [Hf Ht].
  intros Hy. destruct leap.
  - apply (checkFrom_spec _ _ _ Ht). lia.
  - apply (checkFrom_spec _ _ _ Hf). lia.
Qed.

Lemma rem_eqb_shift (a b m : Z) :
  m <> 0 -> (m | a) -> (Z.rem (a + b) m =? 0) = (Z.rem b m =? 0).
Proof.
  intros Hm Ha. apply eq_true_iff_eq. rewrite !Z.eqb_eq, !Z.rem_divide by done.
  split; intros Hd.
  - replace b with (a + b - a) by lia. by apply Z.divide_sub_r.
  - by apply Z.divide_add_r.
Qed.

(** Leap years repeat every 400 years. *)
Lemma isLeap_cycle (n y : Z) : isLeap (400 * n + y) = isLeap y.
Proof.
  unfold isLeap.
  rewrite (rem_eqb_shift (400 * n) y 4), (rem_eqb_shift (400 * n) y 100),
    (rem_eqb_shift (400 * n) y 400); try done.
  - by exists n; lia.
  - exists (4 * n). lia.
  - exists (100 * n). lia.
Qed.

Lemma isLeap_absolute (n k : Z) : isLeap (400 * n + k + absoluteZeroYear) = isLeap (k + 1).
Proof.
  replace (400 * n + k + absoluteZeroYear) with (400 * (n - 730692556) + (k + 1))
    by (unfold absoluteZeroYear; lia).
  apply isLeap_cycle.
Qed.

Lemma daysSinceEpoch_cycle (n k : Z) :
  0 <= n -> 0 <= k < 400 -> 400 * n + k < 2 ^ 64 ->
  daysSinceEpoch (400 * n + k + absoluteZeroYear) = daysPer400Years * n + cycleDays k.
Proof.
  intros Hn Hk Hlt. unfold daysSinceEpoch, cycleDays, wrapU64.
  replace (400 * n + k + absoluteZeroYear - absoluteZeroYear) with (400 * n + k) by lia.
  rewrite Z.mod_small by lia. cbv zeta.
  assert (Hq : (400 * n + k) / 400 = n).
  { rewrite Z.mul_comm, Z.div_add_l by done. rewrite Z.div_small; lia. }
  rewrite Hq. replace (400 * n + k - 400 * n) with k by lia.
  unfold daysPer400Years, daysPer100Years, daysPer4Years.
  rewrite (Z.mod_eq k 100), (Z.mod_eq k 4) by done.
  pose proof (Z.div_mod k 100 ltac:(done)) as H100.
  pose proof (Z.mod_pos_bound k 100 ltac:(done)) as B100.
  set (c := k / 100) in *.
  pose proof (Z.div_mod (k - 100 * c) 4 ltac:(done)) as H4.
  pose proof (Z.mod_pos_bound (k - 100 * c) 4 ltac:(done)) as B4.
  set (q := (k - 100 * c) / 4) in *.
  pose proof (Z.div_mod k 4 ltac:(done)) as K4.
  pose proof (Z.mod_pos_bound k 4 ltac:(done)) as KB4.
  lia.
Qed.

(** [absDate] in terms of the cycle. *)
Lemma absDate_cycle (abs : Z) :
  absDate abs =
    let D := abs / secondsPerDay in
    let n := D / daysPer400Years in
    let '(k, yday) := cycleYear (D - daysPer400Years * n) in
    let year := 400 * n + k + absoluteZeroYear in
    let '(m, d) := monthDay (isLeap year) yday in
    (year, m, d).
Proof.
  unfold absDate, cycleYear, monthDay. cbv zeta.
  set (D := abs / secondsPerDay). set (n := D / daysPer400Years).
  set (r := D - daysPer400Years * n).
  set (n1 := r / daysPer100Years - Z.shiftr (r / daysPer100Years) 2).
  set (r1 := r - daysPer100Years * n1).
  set (n2 := r1 / daysPer4Years).
  set (r2 := r1 - daysPer4Years * n2).
  set (n3 := r2 / 365 - Z.shiftr (r2 / 365) 2).
  set (yday := r2 - 365 * n3).
  replace (400 * n + 100 * n1 + 4 * n2 + n3 + absoluteZeroYear)
    with (400 * n + (100 * n1 + 4 * n2 + n3) + absoluteZeroYear) by lia.
  set (year := 400 * n + (100 * n1 + 4 * n2 + n3) + absoluteZeroYear).
  destruct (isLeap year && (yday =? 31 + 29 - 1)); [reflexivity|].
  set (day := if isLeap year && (yday >? 31 + 29 - 1) then yday - 1 else yday).
  destruct (day >=? daysBeforeAt (day / 31 + 1)); reflexivity.
Qed.

(** The date of an absolute time is a valid calendar date, [Date] maps it
    back to the same day, and its year is the year of the cycle it is in. *)
Lemma absDate_valid (abs : Z) :
  0 <= abs < 2 ^ 64 ->
  let D := abs / secondsPerDay in
  let '(year, m, d) := absDate abs in
  1 <= m <= 12 /\ 1 <= d <= daysIn m year /\ dayNumber year m d = D /\
  exists k, 0 <= k < 400 /\
    year = 400 * (D / daysPer400Years) + k + absoluteZeroYear /\
    (k = 399 <-> 145731 <= D mod daysPer400Years).
Proof.
  intros Habs. rewrite absDate_cycle. cbv zeta.
  set (D := abs / secondsPerDay). set (n := D / daysPer400Years).
  assert (HD : 0 <= D < 2 ^ 64).
  { unfold D, secondsPerDay, secondsPerHour, secondsPerMinute. split.
    - apply Z.div_pos; lia.
    - apply Z.div_lt_upper_bound; lia. }
  assert (Hn : 0 <= n < 2 ^ 50).
  { unfold n, daysPer400Years. split.
    - apply Z.div_pos; lia.
    - apply Z.div_lt_upper_bound; lia. }
  assert (Hr : D - daysPer400Years * n = D mod daysPer400Years).
  { unfold n. rewrite Z.mod_eq; [lia|done]. }
  rewrite Hr.
  pose proof (Z.mod_pos_bound D daysPer400Years ltac:(done)) as Hrb.
  set (r := D mod daysPer400Years) in *.
  pose proof (cycleYear_spec r Hrb) as Hy.
  destruct (cycleYear r) as [k yday]. destruct Hy as (Hk & Hyd & Hsum & Hk399).
  rewrite isLeap_absolute.
  pose proof (monthCheck_all (isLeap (k + 1)) yday Hyd) as Hm. unfold monthCheck in Hm.
  destruct (monthDay (isLeap (k + 1)) yday) as [m d].
  repeat (apply andb_true_iff in Hm as [Hm ?]).
  split; [lia|]. split; [|split].
  - unfold daysIn. rewrite isLeap_absolute. lia.
  - unfold dayNumber. rewrite isLeap_absolute, daysSinceEpoch_cycle by lia.
    unfold daysPer400Years in *. lia.
  - exists k. split; [done|]. split; [done|]. exact Hk399.
Qed.

End CalendarFacts.

(** ** Bucket file names: printing and parsing *)
Section LayoutFacts.
Import Time.

Lemma appendInt_2 (n : Z) : 0 <= n < 100 -> appendInt n 2 = fmt2 n.
Proof.
  intros Hn.
  assert (Hc : checkFrom (fun n => bool_decide (appendInt n 2 = fmt2 n)) 100 0 = true)
    by (vm_compute; reflexivity).
  pose proof (checkFrom_spec _ _ _ Hc n ltac:(lia)) as Hd. cbv beta in Hd.
  by apply bool_decide_eq_true in Hd.
Qed.

Lemma appendInt_4 (y : Z) : 0 <= y < 10000 -> appendInt y 4 = fmt4 y.
Proof.
  intros Hy.
  assert (Hc : checkFrom (fun y => bool_decide (appendInt y 4 = fmt4 y))
                 (Z.to_nat 10000) 0 = true)
    by (vm_compute; reflexivity).
  pose proof (checkFrom_spec _ _ _ Hc y ltac:(lia)) as Hd. cbv beta in Hd.
  by apply bool_decide_eq_true in Hd.
Qed.

Lemma digitChar_digit (k : Z) :
  0 <= k < 10 -> isDigitChar (digitChar k) = true /\ digitVal (digitChar k) = k.
Proof.
  intros Hk.
  assert (Hc : checkFrom (fun k => isDigitChar (digitChar k)
                                   && (digitVal (digitChar k) =? k)) 10 0 = true)
    by (vm_compute; reflexivity).
  pose proof (checkFrom_spec _ _ _ Hc k ltac:(lia)) as Hd. cbv beta in Hd.
  apply andb_true_iff in Hd as [? ?%Z.eqb_eq]. done.
Qed.

Lemma getnum_fmt2 (n : Z) (rest : gostring) (fixed : bool) :
  0 <= n < 100 -> getnum (fmt2 n ++ rest) fixed = Some (n, rest).
Proof.
  intros Hn. unfold fmt2. cbn [app getnum].
  destruct (digitChar_digit (n / 10)) as [-> ->];
    [split; [apply Z.div_pos | apply Z.div_lt_upper_bound]; lia|].
  destruct (digitChar_digit (n mod 10)) as [-> ->];
    [apply Z.mod_pos_bound; lia|].
  do 2 f_equal. rewrite (Z.div_mod n 10) at 3 by done. lia.
Qed.

Lemma atoi_fmt4 (y : Z) : 0 <= y < 10000 -> atoi (fmt4 y) = Some y.
Proof.
  intros Hy. unfold atoi, fmt4. cbn [forallb fold_left].
  assert (H1 : 0 <= y / 1000 < 10)
    by (split; [apply Z.div_pos | apply Z.div_lt_upper_bound]; lia).
  assert (H2 : 0 <= y / 100 mod 10 < 10) by (apply Z.mod_pos_bound; lia).
  assert (H3 : 0 <= y / 10 mod 10 < 10) by (apply Z.mod_pos_bound; lia).
  assert (H4 : 0 <= y mod 10 < 10) by (apply Z.mod_pos_bound; lia).
  destruct (digitChar_digit _ H1) as [-> ->]. destruct (digitChar_digit _ H2) as [-> ->].
  destruct (digitChar_digit _ H3) as [-> ->]. destruct (digitChar_digit _ H4) as [-> ->].
  cbn [andb]. f_equal.
  pose proof (Z.div_mod y 10 ltac:(done)). pose proof (Z.div_mod (y / 10) 10 ltac:(done)).
  pose proof (Z.div_mod (y / 100) 10 ltac:(done)).
  replace (y / 100) with (y / 10 / 10) in * by (rewrite Z.div_div by lia; done).
  replace (y / 1000) with (y / 10 / 10 / 10) in * by (rewrite !Z.div_div by lia; done).
  lia.
Qed.

Lemma skip_literal (text rest : gostring) : skip (text ++ rest) text = Some rest.
Proof. unfold skip. by rewrite HasPrefix_app, drop_app_length. Qed.

Lemma parseChunks_app (l1 l2 : list chunk) (st : fields * gostring) :
  parseChunks (l1 ++ l2) st = parseChunks l1 st ≫= parseChunks l2.
Proof.
  revert st. induction l1 as [|c l1 IH]; intros st; [reflexivity|].
  cbn [app parseChunks]. destruct (parseChunk c st) as [st'|]; [apply IH|reflexivity].
Qed.

Lemma parseChunk_Lit (f : fields) (text rest : gostring) :
  parseChunk (Lit text) (f, text ++ rest) = Some (f, rest).
Proof. unfold parseChunk. by rewrite skip_literal. Qed.

Lemma parseChunk_year (f : fields) (year : Z) (rest : gostring) :
  0 <= year < 10000 ->
  parseChunk stdLongYear (f, fmt4 year ++ rest) =
    Some ({| fYear := year; fMonth := fMonth f; fDay := fDay f; fHour := fHour f |}, rest).
Proof.
  intros Hy. unfold parseChunk. change (take 4 (fmt4 year ++ rest)) with (fmt4 year).
  change (drop 4 (fmt4 year ++ rest)) with rest. rewrite atoi_fmt4 by done.
  unfold fmt4 at 1 2. cbn [app length Nat.ltb Nat.leb].
  destruct (digitChar_digit (year / 1000)) as [-> _];
    [split; [apply Z.div_pos | apply Z.div_lt_upper_bound]; lia|].
  reflexivity.
Qed.

Lemma parseChunk_month (f : fields) (month : Z) (rest : gostring) :
  1 <= month <= 12 ->
  parseChunk stdZeroMonth (f, fmt2 month ++ rest) =
    Some ({| fYear := fYear f; fMonth := month; fDay := fDay f; fHour := fHour f |}, rest).
Proof.
  intros Hm. unfold parseChunk. rewrite getnum_fmt2 by lia. cbn [mbind option_bind].
  by replace ((month <=? 0) || (12 <? month)) with false by lia.
Qed.

Lemma parseChunk_day (f : fields) (day : Z) (rest : gostring) :
  0 <= day < 100 ->
  parseChunk stdZeroDay (f, fmt2 day ++ rest) =
    Some ({| fYear := fYear f; fMonth := fMonth f; fDay := day; fHour := fHour f |}, rest).
Proof. intros Hd. unfold parseChunk. by rewrite getnum_fmt2 by lia. Qed.

Lemma parseChunk_hour (f : fields) (hour : Z) (rest : gostring) :
  0 <= hour < 24 ->
  parseChunk stdHour (f, fmt2 hour ++ rest) =
    Some ({| fYear := fYear f; fMonth := fMonth f; fDay := fDay f; fHour := hour |}, rest).
Proof.
  intros Hh. unfold parseChunk. rewrite getnum_fmt2 by lia. cbn [mbind option_bind].
  by replace ((hour <? 0) || (24 <=? hour)) with false by lia.
Qed.

(** A bucket file name parses back to the fields it was printed from. *)
Lemma parse_bucketName (f : fields) (year month day hour : Z) :
  0 <= year < 10000 -> 1 <= month <= 12 -> 0 <= day < 100 -> 0 <= hour < 24 ->
  parseChunks bucketFileLayout (f, bucketName year month day hour) =
    Some ({| fYear := year; fMonth := month; fDay := day; fHour := hour |}, []).
Proof.
  intros Hy Hm Hd Hh. unfold bucketFileLayout, bucketLayout, bucketName.
  cbn [app parseChunks].
  rewrite parseChunk_year by done. cbn [mbind option_bind].
  rewrite parseChunk_Lit. cbn [mbind option_bind].
  rewrite parseChunk_month by done. cbn [mbind option_bind].
  rewrite parseChunk_Lit. cbn [mbind option_bind].
  rewrite parseChunk_day by done. cbn [mbind option_bind].
  rewrite parseChunk_Lit. cbn [mbind option_bind].
  rewrite parseChunk_hour by done. cbn [mbind option_bind].
  match goal with |- context [parseChunk (Lit _) (?g, _)] =>
    pose proof (parseChunk_Lit g $".log" []) as Hl end.
  rewrite app_nil_r in Hl. rewrite Hl. reflexivity.
Qed.

(** What [Format] prints for the bucket layout. *)
Lemma Format_bucketLayout (t : Time) :
  let '(year, month, day) := absDate (abs t) in
  0 <= year < 10000 -> 0 <= month < 100 -> 0 <= day < 100 ->
  Format t bucketLayout ++ $".log" = bucketName year month day (absHour (abs t)).
Proof.
  destruct (absDate (abs t)) as [[year month] day] eqn:Ed. intros Hy Hm Hd.
  unfold Format, bucketLayout, bucketName. cbn [map concat].
  unfold formatChunk. rewrite Ed.
  assert (Hh : 0 <= absHour (abs t) < 100).
  { unfold absHour, secondsPerDay, secondsPerHour, secondsPerMinute.
    pose proof (Z.mod_pos_bound (abs t) (24 * (60 * 60)) ltac:(done)).
    split; [apply Z.div_pos | apply Z.div_lt_upper_bound]; lia. }
  rewrite appendInt_4, !appendInt_2 by done.
  by rewrite app_nil_r, <- !app_assoc.
Qed.

End LayoutFacts.

(** ** The time of a bucket file *)
Section BucketTime.
Import Time.

Lemma norm_id (hi lo base : Z) : 0 <= lo < base -> norm hi lo base = (hi, lo).
Proof.
  intros Hlo. unfold norm.
  replace (lo <? 0) with false by lia. by replace (lo >=? base) with false by lia.
Qed.

Lemma lookup_tx_in (offset start : Z) (tx : list zoneTrans) (sec : Z) :
  (lookup_tx offset start tx sec).1.1 ∈ offset :: map transOffset tx.
Proof.
  revert offset start. induction tx as [|t tx IH]; intros offset start; cbn.
  - by left.
  - destruct (sec <? when t); cbn; [by left|]. right. apply IH.
Qed.

Lemma lookup_in (l : Location) (sec : Z) : (lookup l sec).1.1 ∈ offsets l.
Proof. apply lookup_tx_in. Qed.

Lemma offsetAt_in (l : Location) (t : Time) : offsetAt l t ∈ offsets l.
Proof. apply lookup_in. Qed.

Lemma fold_max_ge (x0 : Z) (xs : list Z) (a : Z) :
  a ∈ x0 :: xs -> a <= fold_right Z.max x0 xs.
Proof.
  induction xs as [|x xs IH]; cbn.
  - intros ->%list_elem_of_singleton. lia.
  - rewrite elem_of_cons, elem_of_cons. intros [->|[->|Hin]].
    + assert (Hx : x0 <= fold_right Z.max x0 xs) by (apply IH; by left). lia.
    + lia.
    + assert (Hx : a <= fold_right Z.max x0 xs) by (apply IH; by right). lia.
Qed.

Lemma fold_min_le (x0 : Z) (xs : list Z) (a : Z) :
  a ∈ x0 :: xs -> fold_right Z.min x0 xs <= a.
Proof.
  induction xs as [|x xs IH]; cbn.
  - intros ->%list_elem_of_singleton. lia.
  - rewrite elem_of_cons, elem_of_cons. intros [->|[->|Hin]].
    + assert (Hx : fold_right Z.min x0 xs <= x0) by (apply IH; by left). lia.
    + lia.
    + assert (Hx : fold_right Z.min x0 xs <= a) by (apply IH; by right). lia.
Qed.

(** Two offsets of a location differ by at most its spread. *)
Lemma offsetSpread_bound (l : Location) (a b : Z) :
  a ∈ offsets l -> b ∈ offsets l -> a - b <= offsetSpread l.
Proof.
  intros Ha Hb. unfold offsetSpread.
  pose proof (fold_max_ge _ _ _ Ha). pose proof (fold_min_le _ _ _ Hb). lia.
Qed.

(** [Date] of a calendar hour: the seconds of that hour read as UTC, less
    one of the offsets of the location. *)
Lemma Date_unix (year month day hour : Z) (l : Location) :
  1 <= month <= 12 -> 0 <= hour < 24 ->
  exists off,
    off ∈ offsets l /\
    Date year month day hour 0 0 0 l =
      {| unixSec :=
           wrapI64 (dayNumber year month day * secondsPerDay + hour * secondsPerHour
                    + (absoluteToInternal + internalToUnix)) - off;
         nsec := 0; loc := l |}.
Proof.
  intros Hm Hh. unfold Date.
  rewrite (norm_id year (month - 1) 12) by lia.
  rewrite (norm_id 0 0 1000000000), (norm_id 0 0 60), (norm_id hour 0 60),
    (norm_id day hour 24) by lia.
  replace (month - 1 + 1) with month by lia.
  set (U := wrapI64 _).
  assert (HU : U = wrapI64 (dayNumber year month day * secondsPerDay + hour * secondsPerHour
                            + (absoluteToInternal + internalToUnix))).
  { unfold U, dayNumber. f_equal. destruct (isLeap year && (month >=? March)); lia. }
  rewrite <- HU. clearbody U.
  pose proof (lookup_in l U) as H1.
  destruct (lookup l U) as [[offset start] end_]. cbn [fst] in H1.
  destruct (offset =? 0) eqn:E0; cbn [negb].
  - apply Z.eqb_eq in E0. subst offset. exists 0. split; [done|].
    by rewrite Z.sub_0_r.
  - destruct ((U - offset <? start) || (U - offset >=? end_)).
    + pose proof (lookup_in l (U - offset)) as H2.
      destruct (lookup l (U - offset)) as [[offset' ?] ?]. cbn [fst] in H2. eauto.
    + eauto.
Qed.

(** The bucket file name of [now] parses, in the same location, to the
    start of the civil hour of [now], taken at one of the offsets of the
    location. *)
Lemma current_bucket_time (l : Location) (now : Time) :
  let c := unixSec now + offsetAt l now in
  unixYear0 <= c < unixYear10000 ->
  exists off,
    off ∈ offsets l /\
    ParseInLocation bucketFileLayout (Format (In now l) bucketLayout ++ $".log") l =
      Some {| unixSec := c - c mod 3600 - off; nsec := 0; loc := l |}.
Proof.
  cbn zeta. unfold unixYear0, unixYear10000. intros Hc.
  set (c := unixSec now + offsetAt l now) in *.
  set (K := unixToInternal + internalToAbsolute).
  assert (HK : K = 9223372028715321600) by reflexivity.
  assert (Habs : abs (In now l) = c + K).
  { assert (Hw : abs (In now l) = wrapU64 (c + K)).
    { unfold abs, c, offsetAt. cbn [In loc unixSec].
      by destruct (lookup l (unixSec now)) as [[o st] en]. }
    rewrite Hw. unfold wrapU64. rewrite Z.mod_small; lia. }
  pose proof (Format_bucketLayout (In now l)) as Hfmt. rewrite Habs in Hfmt.
  pose proof (absDate_valid (c + K) ltac:(lia)) as Hval. cbv zeta in Hval.
  destruct (absDate (c + K)) as [[year month] day].
  destruct Hval as (Hm & Hd & HD & k & Hk & Hyear & Hk399).
  set (D := (c + K) / secondsPerDay) in *.
  assert (HDb : 106751990353566 <= D < 106751994005991).
  { unfold D, secondsPerDay, secondsPerHour, secondsPerMinute. split.
    - apply Z.div_le_lower_bound; lia.
    - apply Z.div_lt_upper_bound; lia. }
  unfold daysPer400Years in *. change (365 * 400 + 97) with 146097 in *.
  pose proof (Z.div_mod D 146097 ltac:(done)) as HDm.
  pose proof (Z.mod_pos_bound D 146097 ltac:(done)) as HDr.
  assert (Hy : 0 <= year < 10000) by (unfold absoluteZeroYear in *; lia).
  assert (Hdin : daysIn month year <= 31).
  { unfold daysIn. destruct ((month =? February) && isLeap year); [lia|].
    assert (Hms : month = 1 \/ month = 2 \/ month = 3 \/ month = 4 \/ month = 5 \/
                  month = 6 \/ month = 7 \/ month = 8 \/ month = 9 \/ month = 10 \/
                  month = 11 \/ month = 12) by lia.
    repeat (destruct Hms as [->|Hms]; [by vm_compute|]). subst. by vm_compute. }
  rewrite Hfmt by lia.
  set (h := absHour (c + K)).
  assert (Hh : 0 <= h < 24).
  { unfold h, absHour, secondsPerDay, secondsPerHour, secondsPerMinute.
    pose proof (Z.mod_pos_bound (c + K) (24 * (60 * 60)) ltac:(done)).
    split; [apply Z.div_pos | apply Z.div_lt_upper_bound]; lia. }
  destruct (Date_unix year month day h l Hm Hh) as (off & Hoff & HDate).
  exists off. split; [done|].
  unfold ParseInLocation. rewrite parse_bucketName by lia.
  cbn [mbind option_bind bool_decide decide_rel fYear fMonth fDay fHour].
  rewrite bool_decide_eq_true_2 by done. cbn [negb].
  replace (month <? 0) with false by lia. replace (day <? 0) with false by lia.
  replace ((day <? 1) || (day >? daysIn month year)) with false by lia.
  rewrite HDate. do 2 f_equal.
  rewrite HD. fold D.
  assert (Hsec : D * secondsPerDay + h * secondsPerHour = c + K - (c + K) mod 3600).
  { unfold h, absHour, D, secondsPerDay, secondsPerHour, secondsPerMinute.
    change (24 * (60 * 60)) with 86400. change (60 * 60) with 3600.
    pose proof (Z.div_mod (c + K) 86400 ltac:(done)).
    pose proof (Z.div_mod ((c + K) mod 86400) 3600 ltac:(done)).
    assert (((c + K) mod 86400) mod 3600 = (c + K) mod 3600).
    { apply Z.mod_mod_divide. exists 24. lia. }
    lia. }
  rewrite Hsec.
  assert (Hmod : (c + K) mod 3600 = c mod 3600).
  { rewrite HK. replace 9223372028715321600 with (2562047785754256 * 3600) by lia.
    apply Z.mod_add. lia. }
  rewrite Hmod.
  pose proof (Z.mod_pos_bound c 3600 ltac:(done)).
  replace (c + K - c mod 3600 + (absoluteToInternal + internalToUnix))
    with (c - c mod 3600) by (unfold K, internalToAbsolute, internalToUnix; lia).
  rewrite wrapI64_small by lia. reflexivity.
Qed.

End BucketTime.

(** ** Years that the layout cannot print in four digits *)
Section WideYears.
Import Time.

Lemma decimal_length_acc (fuel : nat) (u : Z) (acc : gostring) :
  (length acc <= length (decimal fuel u acc))%nat.
Proof.
  revert u acc. induction fuel as [|fuel IH]; intros u acc; cbn [decimal]; [done|].
  destruct (u >? 0); [|done]. etrans; [|apply IH]. cbn. lia.
Qed.

Lemma decimal_length_ge (k : nat) :
  forall (fuel : nat) (u : Z) (acc : gostring),
    10 ^ Z.of_nat k <= u -> (k < fuel)%nat ->
    (k + 1 + length acc <= length (decimal fuel u acc))%nat.
Proof.
  induction k as [|k IH]; intros fuel u acc Hu Hf;
    (destruct fuel as [|fuel]; [lia|]); cbn [decimal].
  - replace (u >? 0) with true by (cbn in Hu; lia).
    etrans; [|apply decimal_length_acc]. cbn. lia.
  - assert (Hp : 10 ^ Z.of_nat (S k) = 10 * 10 ^ Z.of_nat k).
    { rewrite Nat2Z.inj_succ, Z.pow_succ_r by lia. done. }
    assert (0 < 10 ^ Z.of_nat k) by (apply Z.pow_pos_nonneg; lia).
    replace (u >? 0) with true by lia.
    etrans; [|apply IH; [|lia]].
    + cbn. lia.
    + apply Z.div_le_lower_bound; lia.
Qed.

Lemma decimal_digits (fuel : nat) (u : Z) (acc : gostring) :
  Forall (fun c => isDigitChar c = true) acc ->
  Forall (fun c => isDigitChar c = true) (decimal fuel u acc).
Proof.
  revert u acc. induction fuel as [|fuel IH]; intros u acc Hacc; cbn [decimal]; [done|].
  destruct (u >? 0) eqn:E; [|done]. apply IH. constructor; [|done].
  apply digitChar_digit. apply Z.mod_pos_bound. lia.
Qed.

(** A year of five digits or more is printed with all its digits. *)
Lemma appendInt_wide (year : Z) :
  10000 <= year < 2 ^ 64 ->
  exists d1 d2 d3 d4 d5 ds,
    appendInt year 4 = d1 :: d2 :: d3 :: d4 :: d5 :: ds /\
    Forall (fun c => isDigitChar c = true) [d1; d2; d3; d4; d5].
Proof.
  intros Hy. unfold appendInt, wrapU64.
  replace (year <? 0) with false by lia. rewrite Z.mod_small by lia.
  replace (year =? 0) with false by lia. cbn [app].
  pose proof (decimal_length_ge 4 20 year [] ltac:(cbn; lia) ltac:(lia)) as Hlen.
  pose proof (decimal_digits 20 year [] ltac:(constructor)) as Hdig.
  destruct (decimal 20 year []) as [|d1 [|d2 [|d3 [|d4 [|d5 ds]]]]];
    try (cbn in Hlen; lia).
  cbn [length Nat.sub replicate app]. exists d1, d2, d3, d4, d5, ds. split; [done|].
  repeat (apply Forall_cons in Hdig as [? Hdig]). repeat constructor; done.
Qed.

(** The name printed for a year outside 0..9999 does not parse. *)
Lemma parse_wide_year (f : fields) (t : Time) (rest : gostring) :
  let year := (absDate (abs t)).1.1 in
  year < 2 ^ 64 -> ~ (0 <= year < 10000) ->
  parseChunks bucketFileLayout (f, Format t bucketLayout ++ rest) = None.
Proof.
  cbn zeta. intros Hlt Hyear. unfold Format, bucketFileLayout, bucketLayout.
  cbn [map concat app parseChunks]. unfold formatChunk at 1.
  destruct (absDate (abs t)) as [[year month] day]. cbn [fst] in Hlt, Hyear.
  rewrite <- app_assoc.
  destruct (Z.lt_ge_cases year 0) as [Hneg|Hpos].
  - unfold appendInt at 1. replace (year <? 0) with true by lia.
    cbn [list_ascii_of_string app parseChunk].
    destruct (_ <? 4)%nat; reflexivity.
  - destruct (appendInt_wide year ltac:(lia)) as (d1 & d2 & d3 & d4 & d5 & ds & -> & Hdig).
    repeat (apply Forall_cons in Hdig as [? Hdig]).
    cbn [app parseChunk length Nat.ltb Nat.leb take drop firstn skipn].
    unfold atoi. cbn [forallb].
    repeat match goal with H : isDigitChar _ = true |- _ => rewrite H end.
    cbn [andb mbind option_bind parseChunk]. unfold skip, Strings.HasPrefix.
    cbn [list_ascii_of_string length Nat.leb take firstn andb].
    rewrite bool_decide_eq_false_2; [reflexivity|].
    intros [= ->]. discriminate.
Qed.

(** The year of an absolute time has at most four digits only between the
    years 0 and 9999. *)
Lemma absDate_year_range (abs : Z) :
  0 <= abs < 2 ^ 64 ->
  let year := (absDate abs).1.1 in
  year < 2 ^ 64 /\
  (0 <= year < 10000 ->
   unixYear0 + (unixToInternal + internalToAbsolute) <= abs
   < unixYear10000 + (unixToInternal + internalToAbsolute)).
Proof.
  intros Habs. pose proof (absDate_valid abs Habs) as Hval. cbv zeta in Hval.
  destruct (absDate abs) as [[year month] day]. cbn [fst].
  destruct Hval as (_ & _ & _ & k & Hk & Hyear & Hk399).
  set (D := abs / secondsPerDay) in *.
  assert (HD : 0 <= D < 2 ^ 64 /\ 86400 * D <= abs < 86400 * D + 86400).
  { unfold D, secondsPerDay, secondsPerHour, secondsPerMinute.
    change (24 * (60 * 60)) with 86400.
    pose proof (Z.div_mod abs 86400 ltac:(done)).
    pose proof (Z.mod_pos_bound abs 86400 ltac:(done)).
    split; [split|lia].
    - apply Z.div_pos; lia.
    - apply Z.div_lt_upper_bound; lia. }
  unfold daysPer400Years in *. change (365 * 400 + 97) with 146097 in *.
  pose proof (Z.div_mod D 146097 ltac:(done)) as HDm.
  pose proof (Z.mod_pos_bound D 146097 ltac:(done)) as HDr.
  assert (Hn : 0 <= D / 146097 < 2 ^ 50).
  { split; [apply Z.div_pos | apply Z.div_lt_upper_bound]; lia. }
  unfold absoluteZeroYear, unixYear0, unixYear10000 in *.
  change (unixToInternal + internalToAbsolute) with 9223372028715321600.
  split; [lia|]. intros Hy. lia.
Qed.

(** The bucket file name of any time either does not parse (its year does
    not have four digits) or parses to the start of the civil hour, taken
    at one of the offsets of the location. *)
Lemma current_bucket_parse (l : Location) (now : Time) :
  int64 (unixSec now) -> validLocation l ->
  let c := unixSec now + offsetAt l now in
  ParseInLocation bucketFileLayout (Format (In now l) bucketLayout ++ $".log") l = None \/
  exists off,
    off ∈ offsets l /\
    ParseInLocation bucketFileLayout (Format (In now l) bucketLayout ++ $".log") l =
      Some {| unixSec := c - c mod 3600 - off; nsec := 0; loc := l |}.
Proof.
  unfold int64, validLocation. intros Hsec Hloc. cbn zeta.
  set (c := unixSec now + offsetAt l now).
  set (K := unixToInternal + internalToAbsolute).
  assert (HK : K = 9223372028715321600) by reflexivity.
  assert (Hoff : - 2 ^ 31 <= offsetAt l now < 2 ^ 31).
  { rewrite Forall_forall in Hloc. apply Hloc, offsetAt_in. }
  assert (Hw : abs (In now l) = (c + K) mod 2 ^ 64).
  { unfold abs, c, offsetAt. cbn [In loc unixSec].
    by destruct (lookup l (unixSec now)) as [[o st] en]. }
  pose proof (Z.mod_pos_bound (c + K) (2 ^ 64) ltac:(done)) as Hb.
  destruct (absDate_year_range _ Hb) as [Hlt Hrange]. rewrite <- Hw in Hlt, Hrange.
  destruct (decide (0 <= (absDate (abs (In now l))).1.1 < 10000)) as [Hy|Hy].
  - right. apply current_bucket_time. fold c. specialize (Hrange Hy). fold K in Hrange.
    rewrite Hw in Hrange. unfold unixYear0, unixYear10000 in *.
    pose proof (Z.div_mod (c + K) (2 ^ 64) ltac:(done)) as Hdm.
    assert (Hq : (c + K) / 2 ^ 64 = 0) by lia.
    lia.
  - left. unfold ParseInLocation. by rewrite parse_wide_year.
Qed.

End WideYears.

(** ** The retention sweep *)
Section SweepFacts.
Import Time.

Lemma getnum_consumes (v : gostring) (fixed : bool) (n : Z) (rest : gostring) :
  getnum v fixed = Some (n, rest) -> exists pre, v = pre ++ rest.
Proof.
  unfold getnum. destruct v as [|c0 [|c1 v]]; [done| |].
  - destruct (isDigitChar c0), fixed; intros [= _ <-]. by exists [c0].
  - destruct (isDigitChar c0); [|done]. destruct (isDigitChar c1).
    + intros [= _ <-]. by exists [c0; c1].
    + destruct fixed; intros [= _ <-]. by exists [c0].
Qed.

Lemma parseChunk_consumes (c : chunk) (f f' : fields) (v v' : gostring) :
  parseChunk c (f, v) = Some (f', v') -> exists pre, v = pre ++ v'.
Proof.
  destruct c; cbn [parseChunk].
  - unfold skip. destruct (Strings.HasPrefix v text) eqn:E; [|done].
    cbn [mbind option_bind]. intros Heq. inversion Heq; subst.
    exists (take (length text) v). symmetry. apply take_drop.
  - destruct (length v <? 4)%nat; [done|]. destruct v as [|c0 v0]; [done|].
    destruct (isDigitChar c0); [|done]. destruct (atoi _); [|done].
    cbn [mbind option_bind]. intros Heq. inversion Heq; subst.
    exists (take 4 (c0 :: v0)). symmetry. exact (take_drop 4 (c0 :: v0)).
  - destruct (getnum v true) as [[n rest]|] eqn:E; [|done]. cbn [mbind option_bind].
    destruct (_ || _); [done|]. intros Heq. inversion Heq; subst.
    by eapply getnum_consumes.
  - destruct (getnum v true) as [[n rest]|] eqn:E; [|done]. cbn [mbind option_bind].
    intros Heq. inversion Heq; subst. by eapply getnum_consumes.
  - destruct (getnum v false) as [[n rest]|] eqn:E; [|done]. cbn [mbind option_bind].
    destruct (_ || _); [done|]. intros Heq. inversion Heq; subst.
    by eapply getnum_consumes.
Qed.

Lemma parseChunks_consumes (layout : list chunk) (f f' : fields) (v v' : gostring) :
  parseChunks layout (f, v) = Some (f', v') -> exists pre, v = pre ++ v'.
Proof.
  revert f v. induction layout as [|c layout IH]; intros f v; cbn [parseChunks].
  - intros [= _ <-]. by exists [].
  - destruct (parseChunk c (f, v)) as [[f1 v1]|] eqn:E; [|done]. cbn.
    intros Hrest. apply parseChunk_consumes in E as [pre1 ->].
    apply IH in Hrest as [pre2 ->]. exists (pre1 ++ pre2). by rewrite app_assoc.
Qed.

(** A name that parses as a bucket file name ends in [.log]: the suffix
    test of the sweep never decides on its own. *)
Lemma parse_suffix (name : gostring) (l : Location) (t : Time) :
  ParseInLocation bucketFileLayout name l = Some t ->
  Strings.HasSuffix name $".log" = true.
Proof.
  unfold ParseInLocation, bucketFileLayout. rewrite parseChunks_app.
  destruct (parseChunks bucketLayout _) as [[f1 v1]|] eqn:E1; [|done].
  cbn [mbind option_bind parseChunks parseChunk].
  unfold skip. destruct (Strings.HasPrefix v1 $".log") eqn:Ep; [|done].
  cbn [mbind option_bind]. case_bool_decide as Hrest; [|done]. intros _.
  apply parseChunks_consumes in E1 as [pre ->].
  apply HasPrefix_true in Ep as [t' ->].
  rewrite drop_app_length in Hrest. subst t'. rewrite app_nil_r.
  unfold Strings.HasSuffix. rewrite length_app. apply andb_true_iff. split.
  - apply Nat.leb_le. lia.
  - apply bool_decide_eq_true. rewrite drop_app_length'; [done|lia].
Qed.

(** The body of the loop, in terms of [expired]. *)
Lemma sweepEntry_expired (s : Server) (now : Time) (e : Os.DirEntry) (d : Os.Dir)
    (diag : list Diagnostic) :
  sweepEntry s (cutoff s now) e (d, diag) =
    if expired s now e then
      (if removable s d e
       then {| Os.entries := filter (fun x => Os.Name x <> Os.Name e) (Os.entries d);
               Os.readDirFails := Os.readDirFails d;
               Os.removeFails := Os.removeFails d |}
       else d,
       diag ++ [sweepMessage s d e])
    else (d, diag).
Proof.
  unfold sweepEntry, expired, sweepMessage, removable, Os.Remove.
  destruct (Os.IsDir e); [reflexivity|]. cbn [negb andb].
  destruct (ParseInLocation bucketFileLayout (Os.Name e) (location s)) as [t|] eqn:Ep.
  - rewrite (parse_suffix _ _ _ Ep). cbn [negb].
    destruct (Before t (cutoff s now)); [|reflexivity].
    by destruct (Os.removeFails d _).
  - by destruct (negb _).
Qed.

(** The loop of [cleanupOldLogs] over the entries [es]: an entry of the
    directory is gone afterwards exactly when one of [es] with its name was
    expired and could be removed; a line is printed for each expired entry. *)
Lemma sweep_loop (s : Server) (now : Time) (es : list Os.DirEntry) :
  forall (d : Os.Dir) (diag : list Diagnostic),
    let st := fold_left (fun st entry => sweepEntry s (cutoff s now) entry st) es (d, diag) in
    Os.removeFails st.1 = Os.removeFails d /\
    (forall x, x ∈ Os.entries st.1 <->
       x ∈ Os.entries d /\
       ~ exists e, e ∈ es /\ expired s now e = true /\ removable s d e = true /\
                   Os.Name e = Os.Name x) /\
    st.2 = diag ++ (sweepMessage s d <$> filter (fun e => expired s now e = true) es).
Proof.
  induction es as [|e es IH]; intros d diag; cbn zeta.
  { cbn. split; [done|]. split; [|by rewrite app_nil_r].
    intros x. split; [|by intros [? _]]. intros Hx. split; [done|].
    intros (e & He%elem_of_nil & _). done. }
  cbn [fold_left]. rewrite sweepEntry_expired, filter_cons.
  destruct (expired s now e) eqn:Ee.
  - rewrite decide_True by done.
    set (d1 := if removable s d e then _ else d).
    assert (Hrf : Os.removeFails d1 = Os.removeFails d)
      by (unfold d1; by destruct (removable s d e)).
    assert (Hrem : forall y, removable s d1 y = removable s d y)
      by (intros y; unfold removable; by rewrite Hrf).
    assert (Hmsg : forall y, sweepMessage s d1 y = sweepMessage s d y)
      by (intros y; unfold sweepMessage; by rewrite Hrem).
    destruct (IH d1 (diag ++ [sweepMessage s d e])) as (Hf & Hin & Hdiag).
    split; [by rewrite Hf|]. split.
    + intros x. rewrite Hin. clear Hin Hdiag Hf Hmsg.
      assert (Hd1 : x ∈ Os.entries d1 <->
                    x ∈ Os.entries d /\
                    (removable s d e = true -> Os.Name x <> Os.Name e)).
      { unfold d1. destruct (removable s d e); cbn [Os.entries].
        - rewrite list_elem_of_filter. intuition.
        - intuition discriminate. }
      rewrite Hd1. split.
      * intros [[Hx Hne] Hno]. split; [done|].
        intros (e' & [->|He']%elem_of_cons & Hexp & Hr & Hn).
        -- by apply Hne.
        -- apply Hno. exists e'. pose proof (Hrem e'). repeat split; try done. congruence.
      * intros [Hx Hno]. split; [split; [done|]|].
        -- intros Hr Heq. apply Hno. exists e. repeat split; try done. by left.
        -- intros (e' & He' & Hexp & Hr & Hn). apply Hno. exists e'.
           pose proof (Hrem e'). repeat split; try done; [by right | congruence].
    + rewrite Hdiag, fmap_cons, <- app_assoc. cbn [app]. do 2 f_equal.
      apply list_fmap_ext. intros _ y _. apply Hmsg.
  - rewrite decide_False by done.
    destruct (IH d diag) as (Hf & Hin & Hdiag).
    split; [done|]. split; [|done].
    intros x. rewrite Hin. split.
    + intros [Hx Hno]. split; [done|].
      intros (e' & [->|He']%elem_of_cons & Hexp & Hr & Hn); [congruence|].
      apply Hno. by exists e'.
    + intros [Hx Hno]. split; [done|].
      intros (e' & He' & Hexp & Hr & Hn). apply Hno. exists e'.
      repeat split; try done. by right.
Qed.

End SweepFacts.

Section RetentionClaims.
Import Time.

Lemma NoDup_fmap_eq {A B} (f : A -> B) (l : list A) (x y : A) :
  NoDup (f <$> l) -> x ∈ l -> y ∈ l -> f x = f y -> x = y.
Proof.
  induction l as [|a l IH]; [by intros _ ?%elem_of_nil|].
  rewrite fmap_cons, NoDup_cons.
  intros [Hna Hnd] [->|Hx]%elem_of_cons [->|Hy]%elem_of_cons Hf; try done.
  - exfalso. apply Hna. rewrite Hf. by apply list_elem_of_fmap_2.
  - exfalso. apply Hna. rewrite <- Hf. by apply list_elem_of_fmap_2.
  - by apply IH.
Qed.

(** [cutoff] is [now] minus the retention window, for every window whose
    nanoseconds fit in a [Duration]. *)
Lemma cutoff_value (s : Server) (now : Time) :
  validTime now -> 0 <= retentionHours s <= 2562047 ->
  cutoff s now =
    {| unixSec := unixSec now - 3600 * retentionHours s; nsec := nsec now;
       loc := location s |}.
Proof.
  unfold validTime. intros Hns Hr. unfold cutoff, retentionOffset, Add, In, Hour, Second,
    Nanosecond. cbn [unixSec nsec loc].
  rewrite (wrapI64_small (- retentionHours s)) by lia.
  rewrite wrapI64_small by lia.
  replace (- retentionHours s * (3600 * (1000000000 * 1)))
    with ((- (3600 * retentionHours s)) * 1000000000) by lia.
  rewrite Z.quot_mul, Z.rem_mul by done.
  replace (nsec now + 0 >=? 1000000000) with false by lia.
  replace (nsec now + 0 <? 0) with false by lia.
  f_equal; lia.
Qed.

(** C7.  When the log directory can be listed, a run of the sweep leaves in
    it exactly the entries that are not expired, or whose [os.Remove]
    failed; it prints one line per expired entry, in directory order.  An
    entry is expired when it is no directory, its name parses under the
    layout [2006-01-02T15.log] in the server's location, and the parsed time
    is before [cutoff], which is [now] minus the retention window; a name
    without the [.log] suffix never is. *)
Theorem retention_sweep_exact (s : Server) (now : Time) (d : Os.Dir) :
  Os.readDirFails d = false ->
  NoDup (Os.Name <$> Os.entries d) ->
  let d' := (cleanupOldLogs s now d).1 in
  (forall e, e ∈ Os.entries d' <->
     e ∈ Os.entries d /\ ~ (expired s now e = true /\ removable s d e = true)) /\
  (cleanupOldLogs s now d).2 =
    (sweepMessage s d <$> filter (fun e => expired s now e = true) (Os.entries d)) /\
  (forall e, expired s now e = true <->
     Os.IsDir e = false /\
     exists t, ParseInLocation bucketFileLayout (Os.Name e) (location s) = Some t /\
               Before t (cutoff s now) = true) /\
  (forall e, Strings.HasSuffix (Os.Name e) $".log" = false -> expired s now e = false) /\
  (validTime now -> 0 <= retentionHours s <= 2562047 ->
   cutoff s now =
     {| unixSec := unixSec now - 3600 * retentionHours s; nsec := nsec now;
        loc := location s |}).
Proof.
  intros Hread Hnd. cbn zeta. unfold cleanupOldLogs, Os.ReadDir. rewrite Hread.
  destruct (sweep_loop s now (Os.entries d) d []) as (_ & Hin & Hdiag).
  cbn zeta in Hin, Hdiag. split; [|split; [|split; [|split]]].
  - intros x. rewrite Hin. split.
    + intros [Hx Hno]. split; [done|]. intros [He Hr]. apply Hno. by exists x.
    + intros [Hx Hno]. split; [done|]. intros (e & He & Hexp & Hr & Hn).
      apply Hno. by rewrite <- (NoDup_fmap_eq Os.Name _ e x Hnd He Hx Hn).
  - exact Hdiag.
  - intros e. unfold expired. destruct (Os.IsDir e); cbn [negb andb].
    + split; [done|]. by intros [? _].
    + destruct (ParseInLocation _ _ _) as [t|].
      * split; [intros Hb; split; [done|by exists t]|]. by intros [_ (t' & [= <-] & Hb)].
      * split; [done|]. by intros [_ (t' & ? & _)].
  - intros e Hsuf. unfold expired.
    destruct (ParseInLocation _ _ _) as [t|] eqn:Ep; [|by rewrite andb_false_r].
    apply parse_suffix in Ep. congruence.
  - apply cutoff_value.
Qed.

(** C8, as the code has it.  For every time and a retention window of [R]
    hours (whose nanoseconds fit in a [Duration]) with
    [spread + 3600 <= 3600 * R], where [spread] is the largest difference,
    in seconds, between two UTC offsets of the location: the bucket file
    that [currentLogFile] names at [now] is not expired at [now], and the
    sweep leaves it in the directory.  The spread is 0 in a fixed zone,
    where every window of at least one hour qualifies, and one hour in a
    zone with daylight saving time, where every window of at least two
    hours does. *)
Theorem current_bucket_survives (s : Server) (now : Time) (d : Os.Dir) :
  validTime now -> int64 (unixSec now) -> validLocation (location s) ->
  1 <= retentionHours s <= 2562047 ->
  offsetSpread (location s) + 3600 <= 3600 * retentionHours s ->
  (forall e, Os.Name e = logFileName s now -> expired s now e = false) /\
  (forall e, e ∈ Os.entries d -> Os.Name e = logFileName s now ->
     e ∈ Os.entries (cleanupOldLogs s now d).1) /\
  (forall offset, offsetSpread (FixedZone offset) = 0) /\
  offsetSpread chicago2025 = 3600.
Proof.
  intros Hns Hsec Hloc Hr Hspread.
  assert (Hexp : forall e, Os.Name e = logFileName s now -> expired s now e = false).
  { intros e Hname. unfold expired. rewrite Hname. unfold logFileName.
    destruct (current_bucket_parse (location s) now Hsec Hloc)
      as [->|(off & Hoff & ->)]; [by rewrite andb_false_r|].
    rewrite cutoff_value by (done || lia). unfold Before. cbn [unixSec nsec].
    pose proof (offsetSpread_bound _ _ _ Hoff (offsetAt_in (location s) now)).
    pose proof (Z.mod_pos_bound (unixSec now + offsetAt (location s) now) 3600
                  ltac:(done)).
    apply andb_false_iff. right. apply orb_false_iff. split.
    - apply Z.ltb_ge. lia.
    - apply andb_false_iff. left. apply Z.eqb_neq. lia. }
  split; [exact Hexp|]. split; [|split].
  - intros e He Hname. unfold cleanupOldLogs, Os.ReadDir.
    destruct (Os.readDirFails d); [done|].
    destruct (sweep_loop s now (Os.entries d) d []) as (_ & Hin & _).
    apply Hin. split; [done|]. intros (e' & _ & He' & _ & Hn).
    rewrite Hexp in He' by congruence. done.
  - intros offset. unfold offsetSpread. cbn. lia.
  - reflexivity.
Qed.

End RetentionClaims.

Lemma retention_sweep_exact_witness :
  let now := {| Time.unixSec := 1741639020; Time.nsec := 0; Time.loc := Time.FixedZone 0 |} in
  let d := {| Os.entries :=
                [ {| Os.Name := $"2025-03-01T09.log"; Os.IsDir := false |};
                  {| Os.Name := $"2025-03-09T23.log"; Os.IsDir := false |};
                  {| Os.Name := $"2025-02-01T00.log"; Os.IsDir := true |};
                  {| Os.Name := $"notes.log"; Os.IsDir := false |};
                  {| Os.Name := $"2025-03-01T09.txt"; Os.IsDir := false |} ];
              Os.readDirFails := false;
              Os.removeFails := fun _ => false |} in
  ({| Os.Name := $"2025-03-01T09.log"; Os.IsDir := false |}
     ∉ Os.entries (cleanupOldLogs demoServer now d).1) /\
  ({| Os.Name := $"notes.log"; Os.IsDir := false |}
     ∈ Os.entries (cleanupOldLogs demoServer now d).1).
Proof.
  cbn zeta.
  match goal with |- (_ ∉ Os.entries (cleanupOldLogs _ ?now ?d).1) /\ _ =>
    destruct (retention_sweep_exact demoServer now d eq_refl) as (Hin & _) end.
  { cbn. repeat (apply NoDup_cons; split;
      [rewrite ?not_elem_of_cons; repeat split; (discriminate || apply not_elem_of_nil)|]).
    apply NoDup_nil_2. }
  split.
  - rewrite Hin. intros [_ Hno]. apply Hno. split; vm_compute; reflexivity.
  - apply Hin. split.
    + do 3 (apply elem_of_cons; right). apply elem_of_cons. by left.
    + intros [He _]. vm_compute in He. discriminate He.
Defined.

Lemma current_bucket_survives_witness :
  let now := {| Time.unixSec := 1762068600; Time.nsec := 0; Time.loc := Time.FixedZone 0 |} in
  let s := {| wwwRoot := $"/var/www"; logDir := $"/var/log/app";
              location := chicago2025; retentionHours := 168 |} in
  expired s now {| Os.Name := $"2025-11-02T01.log"; Os.IsDir := false |} = false.
Proof.
  cbn zeta.
  match goal with |- expired ?s ?now ?e = false =>
    destruct (current_bucket_survives s now
                {| Os.entries := []; Os.readDirFails := false;
                   Os.removeFails := fun _ => false |}) as (Hexp & _) end.
  - vm_compute. split; first [discriminate | reflexivity].
  - vm_compute. split; first [discriminate | reflexivity].
  - repeat constructor; vm_compute; first [discriminate | reflexivity].
  - vm_compute. split; first [discriminate | reflexivity].
  - vm_compute. discriminate.
  - apply Hexp. vm_compute. reflexivity.
Defined.

(** C8, as the spec states it, fails.  In America/Chicago on 2025-11-02 the
    hour from 01:00 to 02:00 occurs twice.  At 01:30 Central Standard Time
    (07:30 UTC) the current bucket file is [2025-11-02T01.log]; its name
    parses to 01:00 Central Daylight Time (06:00 UTC), which is an hour and
    a half before [now]; with a retention window of one hour the sweep
    removes it. *)
Lemma current_bucket_deleted_at_fall_back :
  let now := {| Time.unixSec := 1762068600; Time.nsec := 0; Time.loc := Time.FixedZone 0 |} in
  let s := {| wwwRoot := $"/var/www"; logDir := $"/var/log/app";
              location := chicago2025; retentionHours := 1 |} in
  let d := {| Os.entries := [ {| Os.Name := $"2025-11-02T01.log"; Os.IsDir := false |} ];
              Os.readDirFails := false;
              Os.removeFails := fun _ => false |} in
  logFileName s now = $"2025-11-02T01.log" /\
  currentLogFile s now = $"/var/log/app/2025-11-02T01.log" /\
  Time.ParseInLocation bucketFileLayout $"2025-11-02T01.log" chicago2025 =
    Some {| Time.unixSec := 1762063200; Time.nsec := 0; Time.loc := chicago2025 |} /\
  cutoff s now = {| Time.unixSec := 1762065000; Time.nsec := 0; Time.loc := chicago2025 |} /\
  cleanupOldLogs s now d =
    ({| Os.entries := []; Os.readDirFails := false; Os.removeFails := Os.removeFails d |},
     [CleanedUp $"2025-11-02T01.log"]).
Proof. vm_compute. repeat split; reflexivity. Qed.

(** * Further properties of the code *)

(** ** [strings.Contains] and flat names *)
Section MoreStringFacts.
Import Strings.

Lemma Contains_occursIn (s sub : gostring) : Contains s sub = true <-> occursIn sub s.
Proof.
  unfold occursIn. induction s as [|c s IH].
  - cbn [Contains]. rewrite orb_false_r, HasPrefix_true. split.
    + intros [t Ht]. exists [], t. done.
    + intros (a & b & Hab). destruct a; [|done]. by exists b.
  - cbn [Contains]. rewrite orb_true_iff, IH, HasPrefix_true. split.
    + intros [[t Ht]|(a & b & Hab)].
      * by exists [], t.
      * exists (c :: a), b. by rewrite Hab.
    + intros (a & b & Hab). destruct a as [|c' a].
      * left. by exists b.
      * right. injection Hab as -> ->. by exists a, b.
Qed.

Lemma Contains_false_occursIn (s sub : gostring) :
  Contains s sub = false <-> ~ occursIn sub s.
Proof.
  rewrite <- Contains_occursIn. destruct (Contains s sub); split; congruence.
Qed.

End MoreStringFacts.

(** Checks a flat name given by its bytes. *)
Ltac flat_name :=
  repeat split;
    [ discriminate | discriminate
    | apply (proj1 (Contains_char_false _ _)); vm_compute; reflexivity
    | apply (proj1 (Contains_char_false _ _)); vm_compute; reflexivity
    | apply (proj1 (Contains_false_occursIn _ _)); vm_compute; reflexivity ].

(** ** [filepath.Clean] on rooted paths *)
Section RootedFacts.
Import Filepath.

Lemma flatName_real (q : gostring) : flatName q -> realElem q.
Proof.
  intros (Hne & Hdot & Hsep & _ & Hdd). repeat split; try done.
  intros ->. apply Hdd. by exists [], [].
Qed.

Lemma rootedBuf_snoc (es : list gostring) (e : gostring) :
  rootedBuf (es ++ [e]) = addSeparator true (rootedBuf es) ++ e.
Proof. unfold rootedBuf. by rewrite fold_left_app. Qed.

Lemma addSeparator_rooted (out : lazybuf) :
  addSeparator true out = if (length out =? 1)%nat then out else out ++ [Separator].
Proof.
  unfold addSeparator. cbn [negb andb]. rewrite orb_false_r.
  by destruct (length out =? 1)%nat.
Qed.

Lemma rootedBuf_head (es : list gostring) : exists t, rootedBuf es = Separator :: t.
Proof.
  induction es as [|e es IH] using rev_ind; [by exists []|].
  destruct IH as [t Ht]. rewrite rootedBuf_snoc, addSeparator_rooted, Ht.
  destruct (length (Separator :: t) =? 1)%nat; cbn; eauto.
Qed.

Lemma rootedBuf_length (es : list gostring) :
  Forall realElem es -> (length (rootedBuf es) =? 1)%nat = bool_decide (es = []).
Proof.
  induction es as [|e es _] using rev_ind; [done|].
  intros [_ Hne%Forall_inv]%Forall_app. destruct Hne as (Hne & _).
  rewrite bool_decide_eq_false_2 by (by destruct es).
  apply Nat.eqb_neq. rewrite rootedBuf_snoc, length_app.
  destruct (rootedBuf_head es) as [t ->]. rewrite addSeparator_rooted.
  destruct e; [done|].
  destruct (length (Separator :: t) =? 1)%nat; cbn; rewrite ?length_app; cbn; lia.
Qed.

(** Back-tracking over the last element of the buffer. *)
Lemma backtrack_loop_root (e : gostring) (w : nat) :
  Separator ∉ e -> (1 <= w <= length e)%nat ->
  backtrack_loop (Separator :: e) 1 w = 1%nat.
Proof.
  intros Hsep. induction w as [|w IH]; intros Hw; [lia|].
  cbn [backtrack_loop]. destruct w as [|w]; [reflexivity|].
  replace (1 <? S (S w))%nat with true by (symmetry; apply Nat.ltb_lt; lia).
  cbn [andb nth].
  destruct (lookup_lt_is_Some_2 e (S w) ltac:(lia)) as [c Hc].
  rewrite (nth_lookup_Some _ _ _ _ Hc).
  rewrite (proj2 (IsPathSeparator_false c)).
  - apply IH. lia.
  - intros ->. apply Hsep. by eapply list_elem_of_lookup_2.
Qed.

Lemma backtrack_loop_elem (out e : gostring) (k : nat) :
  Separator ∉ e -> (1 <= length out)%nat -> (k <= length e)%nat ->
  backtrack_loop (out ++ Separator :: e) 1 (length out + k) = length out.
Proof.
  intros Hsep Hout. induction k as [|k IH]; intros Hk.
  - rewrite Nat.add_0_r. destruct (length out) as [|n] eqn:En; [lia|].
    cbn [backtrack_loop]. rewrite <- En.
    rewrite (nth_lookup_Some _ _ _ Separator (list_lookup_middle out e Separator _ eq_refl)).
    rewrite IsPathSeparator_Separator. by rewrite andb_false_r.
  - replace (length out + S k)%nat with (S (length out + k)) by lia.
    cbn [backtrack_loop].
    replace (1 <? S (length out + k))%nat with true by (symmetry; apply Nat.ltb_lt; lia).
    destruct (lookup_lt_is_Some_2 e k ltac:(lia)) as [c Hc].
    assert (Hl : (out ++ Separator :: e) !! S (length out + k) = Some c).
    { rewrite lookup_app_r by lia.
      replace (S (length out + k) - length out)%nat with (S k) by lia. exact Hc. }
    rewrite (nth_lookup_Some _ _ _ _ Hl).
    rewrite (proj2 (IsPathSeparator_false c)).
    + apply IH. lia.
    + intros ->. apply Hsep. by eapply list_elem_of_lookup_2.
Qed.

Lemma backtrack_rootedBuf (es : list gostring) (e : gostring) :
  Forall realElem es -> realElem e ->
  backtrack (rootedBuf (es ++ [e])) 1 = rootedBuf es.
Proof.
  intros Hes (Hne & Hsep & _). unfold backtrack.
  rewrite rootedBuf_snoc, addSeparator_rooted.
  pose proof (rootedBuf_length es Hes) as Hlen.
  destruct (rootedBuf_head es) as [t Ht]. rewrite Ht in *.
  destruct e as [|c e]; [done|].
  destruct (length (Separator :: t) =? 1)%nat eqn:El.
  - apply Nat.eqb_eq in El. destruct t; [|discriminate]. cbn [app length].
    replace (S (S (length e)) - 1)%nat with (S (length e)) by lia.
    rewrite (backtrack_loop_root (c :: e)) by (done || cbn; lia). reflexivity.
  - rewrite <- app_assoc. cbn [app].
    change (Separator :: t ++ Separator :: c :: e)
      with ((Separator :: t) ++ Separator :: c :: e).
    replace (length ((Separator :: t) ++ Separator :: c :: e) - 1)%nat
      with (length (Separator :: t) + length (c :: e))%nat
      by (rewrite length_app; cbn; lia).
    rewrite backtrack_loop_elem by (done || cbn; lia).
    by rewrite take_app_length.
Qed.

(** One path element, read from the start of an element in a rooted path. *)
Lemma clean_loop_elem (a : gostring) (out : lazybuf) :
  Separator ∉ a ->
  clean_loop true false a (out, 1%nat) =
    (if bool_decide (a = [] \/ a = $".") then out
     else if bool_decide (a = $"..")
          then (if (1 <? length out)%nat then backtrack out 1 else out)
          else addSeparator true out ++ a,
     1%nat).
Proof.
  intros Hsep.
  destruct (decide (a = [] \/ a = $".")) as [[->| ->]|Hn].
  - reflexivity.
  - reflexivity.
  - rewrite bool_decide_eq_false_2 by done.
    destruct (decide (a = $"..")) as [->|Hdd].
    + rewrite bool_decide_eq_true_2 by done.
      cbn. change (IsPathSeparator "."%char) with false.
      change (isDot "."%char) with true. cbn [andb].
      by destruct (length out) as [|[|?]].
    + rewrite bool_decide_eq_false_2 by done. apply clean_loop_real.
      repeat split; try done; intros ->; apply Hn; auto.
Qed.

(** The buffer of a rooted path stays of the form [rootedBuf es]. *)
Lemma clean_loop_rootedBuf (n : nat) :
  forall (path : gostring) (es : list gostring),
    (length path <= n)%nat -> Forall realElem es ->
    exists es', Forall realElem es' /\
      clean_loop true false path (rootedBuf es, 1%nat) = (rootedBuf es', 1%nat).
Proof.
  assert (Helem : forall (a : gostring) (es : list gostring),
    Separator ∉ a -> Forall realElem es ->
    exists es', Forall realElem es' /\
      clean_loop true false a (rootedBuf es, 1%nat) = (rootedBuf es', 1%nat)).
  { intros a es Hsep Hes. rewrite clean_loop_elem by done.
    case_bool_decide as H1; [by exists es|].
    case_bool_decide as H2.
    - replace (1 <? length (rootedBuf es))%nat
        with (negb (length (rootedBuf es) =? 1)%nat).
      2:{ destruct (rootedBuf_head es) as [t ->]. by destruct t. }
      rewrite rootedBuf_length by done.
      induction es as [|e es _] using rev_ind; [by exists []|].
      rewrite bool_decide_eq_false_2 by (by destruct es). cbn [negb].
      apply Forall_app in Hes as [Hes He%Forall_inv].
      exists es. split; [done|]. by rewrite backtrack_rootedBuf.
    - exists (es ++ [a]). split.
      + apply Forall_app. split; [done|]. apply Forall_singleton.
        repeat split; try done; intros ->; apply H1; auto.
      + by rewrite rootedBuf_snoc. }
  induction n as [|n IH]; intros path es Hlen Hes.
  { destruct path; [|cbn in Hlen; lia]. rewrite clean_loop_nil. by exists es. }
  destruct (decide (Separator ∈ path)) as [Hin|Hnot]; [|by apply Helem].
  apply list_elem_of_split_l in Hin as (a & b & -> & Ha).
  rewrite clean_loop_slash.
  destruct (Helem a es Ha Hes) as (es1 & Hes1 & ->).
  apply IH; [|done]. rewrite length_app in Hlen. cbn in Hlen. lia.
Qed.

(** [Clean] of a rooted path is the separator followed by real elements. *)
Lemma cleanBuf_rootedBuf (path : gostring) :
  rooted path = true -> exists es, Forall realElem es /\ cleanBuf path = rootedBuf es.
Proof.
  destruct path as [|c rest]; [discriminate|]. cbn [rooted cleanBuf]. intros ->.
  destruct (clean_loop_rootedBuf (length rest) rest [] (le_n _) (Forall_nil_2 _))
    as (es & Hes & Heq).
  exists es. split; [done|]. change [Separator] with (rootedBuf []). by rewrite Heq.
Qed.

(** Such a buffer is left as it is. *)
Lemma clean_loop_canonical (es : list gostring) :
  Forall realElem es ->
  clean_loop true false (tail (rootedBuf es)) ([Separator], 1%nat) = (rootedBuf es, 1%nat).
Proof.
  induction es as [|e es IH] using rev_ind; intros Hes; [reflexivity|].
  apply Forall_app in Hes as [Hes He%Forall_inv].
  specialize (IH Hes). pose proof (rootedBuf_length es Hes) as Hlen.
  rewrite rootedBuf_snoc, addSeparator_rooted.
  destruct (rootedBuf_head es) as [t Ht]. rewrite Ht in *. cbn [tail] in IH.
  destruct (length (Separator :: t) =? 1)%nat eqn:El.
  - apply Nat.eqb_eq in El. destruct t; [|discriminate]. cbn [app tail].
    by rewrite clean_loop_real.
  - rewrite <- app_assoc. cbn [app tail]. rewrite clean_loop_slash, IH.
    rewrite clean_loop_real by done. rewrite addSeparator_rooted, El.
    by rewrite <- app_assoc.
Qed.

Lemma Clean_rootedBuf (es : list gostring) :
  Forall realElem es -> Clean (rootedBuf es) = rootedBuf es.
Proof.
  intros Hes. pose proof (clean_loop_canonical es Hes) as Hc.
  destruct (rootedBuf_head es) as [t Ht]. rewrite Ht in *. cbn [tail] in Hc.
  unfold Clean. rewrite IsPathSeparator_Separator, Hc. reflexivity.
Qed.

(** [Clean] is idempotent on rooted paths. *)
Lemma Clean_Clean_rooted (path : gostring) :
  rooted path = true -> Clean (Clean path) = Clean path.
Proof.
  intros Hr. rewrite (Clean_rooted _ Hr).
  destruct (cleanBuf_rootedBuf _ Hr) as (es & Hes & ->). by apply Clean_rootedBuf.
Qed.

Lemma ext_loop_slash (pre q : gostring) (k : nat) :
  Separator ∉ q -> (k <= length q)%nat ->
  ext_loop (pre ++ Separator :: q) (length pre + 1 + k) = ext_loop q k.
Proof.
  intros Hsep. induction k as [|k IH]; intros Hk.
  - replace (length pre + 1 + 0)%nat with (S (length pre)) by lia.
    cbn [ext_loop]. rewrite list_lookup_middle by done.
    by rewrite IsPathSeparator_Separator.
  - replace (length pre + 1 + S k)%nat with (S (length pre + 1 + k)) by lia.
    cbn [ext_loop].
    destruct (lookup_lt_is_Some_2 q k ltac:(lia)) as [c Hc].
    assert (Hl : (pre ++ Separator :: q) !! (length pre + 1 + k)%nat = Some c).
    { rewrite lookup_app_r by lia.
      replace (length pre + 1 + k - length pre)%nat with (S k) by lia. exact Hc. }
    rewrite Hl, Hc. destruct (IsPathSeparator c); [done|].
    destruct (isDot c); [|apply IH; lia].
    change (pre ++ Separator :: q) with (pre ++ [Separator] ++ q).
    rewrite app_assoc, drop_app_ge by (rewrite length_app; cbn; lia).
    f_equal. rewrite length_app. cbn. lia.
Qed.

(** The extension of [pre/q] is the extension of [q]. *)
Lemma Ext_slash (pre q : gostring) : Separator ∉ q -> Ext (pre ++ Separator :: q) = Ext q.
Proof.
  intros Hsep. unfold Ext.
  replace (length (pre ++ Separator :: q)) with (length pre + 1 + length q)%nat
    by (rewrite length_app; cbn; lia).
  by apply ext_loop_slash.
Qed.

(** [Join] of a root and a real element: the element itself, or a prefix
    that ends in the separator followed by the element. *)
Lemma Join_root_real_shape (root q : gostring) :
  realElem q ->
  Join [root; q] = q \/ exists pre, Join [root; q] = pre ++ Separator :: q.
Proof.
  intros Hq. rewrite Join_root_real by done. case_bool_decide; [by left|].
  unfold addSeparator. destruct (_ || _) eqn:Eadd.
  - right. exists (cleanBuf root). by rewrite <- app_assoc.
  - destruct (rooted root) eqn:Er; cbn [andb orb negb] in Eadd.
    + destruct (cleanBuf_rooted _ Er) as [t Ht]. rewrite Ht in *.
      rewrite orb_false_r in Eadd. apply negb_false_iff, Nat.eqb_eq in Eadd.
      destruct t; [|discriminate]. right. by exists [].
    + apply negb_false_iff, Nat.eqb_eq in Eadd.
      destruct (cleanBuf root); [|discriminate]. by left.
Qed.

Lemma Clean_abs_head (root : gostring) :
  IsAbs root = true -> exists t, Clean root = Separator :: t.
Proof.
  rewrite IsAbs_rooted. intros Hr. rewrite (Clean_rooted _ Hr).
  by apply cleanBuf_rooted.
Qed.

(** [Join] of an absolute root other than [/] and a real element. *)
Lemma Join_abs_root (root q : gostring) :
  IsAbs root = true -> Clean root <> [Separator] -> realElem q ->
  Join [root; q] = Clean root ++ Separator :: q.
Proof.
  intros Habs Hroot Hq. pose proof Habs as Hr. rewrite IsAbs_rooted in Hr.
  rewrite Join_root_real by done.
  rewrite bool_decide_eq_false_2 by (by destruct root).
  rewrite Hr, <- (Clean_rooted _ Hr), addSeparator_rooted.
  destruct (Clean_abs_head _ Habs) as [t Ht]. rewrite Ht in *.
  destruct t; [done|]. cbn [length Nat.eqb]. by rewrite <- app_assoc.
Qed.

(** ... and of a root whose clean form is [/]. *)
Lemma Join_slash_root (root q : gostring) :
  IsAbs root = true -> Clean root = [Separator] -> realElem q ->
  Join [root; q] = Separator :: q.
Proof.
  intros Habs Hroot Hq. pose proof Habs as Hr. rewrite IsAbs_rooted in Hr.
  rewrite Join_root_real by done.
  rewrite bool_decide_eq_false_2 by (by destruct root).
  by rewrite Hr, <- (Clean_rooted _ Hr), addSeparator_rooted, Hroot.
Qed.

Lemma Clean_slash_elem (q : gostring) : realElem q -> Clean (Separator :: q) = Separator :: q.
Proof.
  intros Hq. unfold Clean. rewrite IsPathSeparator_Separator.
  by rewrite clean_loop_real.
Qed.

(** The clean form of a path under a clean absolute root. *)
Lemma Clean_under_root (root q : gostring) :
  IsAbs root = true -> Clean root <> [Separator] -> realElem q ->
  Clean (Clean root ++ Separator :: q) = Clean root ++ Separator :: q.
Proof.
  intros Habs Hroot Hq. pose proof Habs as Hr. rewrite IsAbs_rooted in Hr.
  destruct (Clean_abs_head _ Habs) as [t Ht].
  assert (Hr' : rooted (Clean root) = true) by (by rewrite Ht).
  rewrite Clean_slash_real by (done || by rewrite Ht).
  rewrite Hr', <- (Clean_rooted _ Hr'), (Clean_Clean_rooted _ Hr), addSeparator_rooted.
  rewrite Ht in *. destruct t; [done|]. cbn [length Nat.eqb]. by rewrite <- app_assoc.
Qed.

Lemma Join_rooted (root q : gostring) :
  IsAbs root = true -> realElem q -> IsAbs (Join [root; q]) = true.
Proof.
  intros Habs Hq. destruct (Clean_abs_head _ Habs) as [t Ht].
  destruct (decide (Clean root = [Separator])) as [Hr|Hr].
  - by rewrite Join_slash_root.
  - rewrite Join_abs_root by done. by rewrite Ht.
Qed.


Lemma ext_loop_dot (pre e : gostring) (k : nat) :
  Separator ∉ e -> ("."%char ∉ e) -> (k <= length e)%nat ->
  ext_loop (pre ++ "."%char :: e) (length pre + 1 + k) = "."%char :: e.
Proof.
  intros Hsep Hdot. induction k as [|k IH]; intros Hk.
  - replace (length pre + 1 + 0)%nat with (S (length pre)) by lia.
    cbn [ext_loop]. rewrite list_lookup_middle by done.
    replace (IsPathSeparator "."%char) with false by reflexivity.
    replace (isDot "."%char) with true by reflexivity.
    by rewrite drop_app_length.
  - replace (length pre + 1 + S k)%nat with (S (length pre + 1 + k)) by lia.
    cbn [ext_loop].
    destruct (lookup_lt_is_Some_2 e k ltac:(lia)) as [c Hc].
    assert (Hl : (pre ++ "."%char :: e) !! (length pre + 1 + k)%nat = Some c).
    { rewrite lookup_app_r by lia.
      replace (length pre + 1 + k - length pre)%nat with (S k) by lia. exact Hc. }
    rewrite Hl.
    rewrite (proj2 (IsPathSeparator_false c))
      by (intros ->; apply Hsep; by eapply list_elem_of_lookup_2).
    unfold isDot. rewrite bool_decide_eq_false_2
      by (intros ->; apply Hdot; by eapply list_elem_of_lookup_2).
    apply IH. lia.
Qed.

(** The extension of a name that ends in a dot and bytes that are neither
    dots nor separators. *)
Lemma Ext_dot (pre e : gostring) :
  Separator ∉ e -> ("."%char ∉ e) -> Ext (pre ++ "."%char :: e) = "."%char :: e.
Proof.
  intros Hsep Hdot. unfold Ext.
  replace (length (pre ++ "."%char :: e)) with (length pre + 1 + length e)%nat
    by (rewrite length_app; cbn; lia).
  by apply ext_loop_dot.
Qed.

End RootedFacts.

(** ** [sanitizePath]: what is accepted, and the errors *)
Section SanitizeMore.
Import Filepath.

(** The name checks of [sanitizePath], as one test. *)
Lemma sanitizePath_flat (s : Server) (fs : Os.FS) (p : gostring) :
  let q := Strings.TrimPrefix p $"/" in
  flatName q ->
  sanitizePath s fs p =
    match Abs (Os.Getwd fs) (wwwRoot s) with
    | None => inr AbsRootFailed
    | Some absWwwRoot =>
        match Abs (Os.Getwd fs) (Join [wwwRoot s; q]) with
        | None => inr AbsPathFailed
        | Some absPath =>
            if negb (Strings.HasPrefix absPath (absWwwRoot ++ [Separator]))
               && negb (bool_decide (absPath = absWwwRoot))
            then inr EscapesRoot
            else inl (Join [wwwRoot s; q])
        end
    end.
Proof.
  cbn zeta. intros Hq. pose proof (flatName_real _ Hq) as Hreal.
  destruct Hq as (Hne & Hdot & Hslash & Hback & Hdd).
  unfold sanitizePath. set (q := Strings.TrimPrefix p $"/") in *.
  rewrite !bool_decide_eq_false_2 by done. cbn [orb].
  change $"/" with ["/"%char]. change $"\" with ["\"%char].
  rewrite (proj2 (Contains_char_false q "/"%char)) by done.
  rewrite (proj2 (Contains_char_false q "\"%char)) by done. cbn [orb].
  rewrite (proj2 (Contains_false_occursIn q $"..")) by done.
  rewrite (Clean_real _ Hreal).
  by rewrite (proj2 (Contains_false_occursIn q $"..")) by done.
Qed.

Lemma sanitizePath_accepted_flat (s : Server) (fs : Os.FS) (p full : gostring) :
  sanitizePath s fs p = inl full -> flatName (Strings.TrimPrefix p $"/").
Proof.
  intros Hacc.
  destruct (sanitizePath_accepted s fs p full Hacc) as (Hq & Hback & Hdd & _).
  destruct Hq as (Hne & Hsep & Hdot & _).
  repeat split; try done. by apply Contains_false_occursIn.
Qed.

(** The name checks either pass or give one of the first three errors. *)
Lemma sanitizePath_name_checks (s : Server) (p : gostring) :
  flatName (Strings.TrimPrefix p $"/") \/
  (~ flatName (Strings.TrimPrefix p $"/") /\
   exists e, (forall fs, sanitizePath s fs p = inr e) /\
             (e = DirectoryAccess \/ e = Subdirectories \/ e = Traversal)).
Proof.
  unfold sanitizePath, flatName. set (q := Strings.TrimPrefix p $"/").
  destruct (bool_decide (q = []) || bool_decide (q = $".")) eqn:E1.
  { right. split; [|eauto].
    apply orb_true_iff in E1 as [?%bool_decide_eq_true| ?%bool_decide_eq_true];
      by intros (? & ? & _). }
  destruct (Strings.Contains q $"/" || Strings.Contains q $"\") eqn:E2.
  { right. split; [|eauto].
    change $"/" with ["/"%char] in E2. change $"\" with ["\"%char] in E2.
    apply orb_true_iff in E2 as [?%Contains_char| ?%Contains_char];
      by intros (_ & _ & ? & ? & _). }
  destruct (Strings.Contains q $"..") eqn:E3.
  { right. split; [|eauto]. apply Contains_occursIn in E3. by intros (_ & _ & _ & _ & ?). }
  left.
  apply orb_false_iff in E1 as [?%bool_decide_eq_false ?%bool_decide_eq_false].
  apply orb_false_iff in E2 as [H1 H2].
  change $"/" with ["/"%char] in H1. change $"\" with ["\"%char] in H2.
  apply Contains_char_false in H1, H2. apply Contains_false_occursIn in E3.
  by repeat split.
Qed.

(** Under an absolute root other than [/], exactly the flat names are
    accepted, and each is mapped to its place under the clean root. *)
Lemma sanitizePath_abs_root (s : Server) (fs : Os.FS) (p full : gostring) :
  IsAbs (wwwRoot s) = true -> Clean (wwwRoot s) <> [Separator] ->
  sanitizePath s fs p = inl full <->
  flatName (Strings.TrimPrefix p $"/") /\
  full = Clean (wwwRoot s) ++ Separator :: Strings.TrimPrefix p $"/".
Proof.
  intros Habs Hroot. split.
  - intros Hacc. pose proof (sanitizePath_accepted_flat _ _ _ _ Hacc) as Hq.
    split; [done|]. rewrite sanitizePath_flat in Hacc by done.
    rewrite Join_abs_root in Hacc by (done || by apply flatName_real).
    repeat case_match; congruence.
  - intros [Hq ->]. pose proof (flatName_real _ Hq) as Hreal.
    rewrite sanitizePath_flat by done. rewrite Join_abs_root by done.
    unfold Abs. rewrite Habs.
    destruct (Clean_abs_head _ Habs) as [t Ht].
    replace (IsAbs (Clean (wwwRoot s) ++ Separator :: Strings.TrimPrefix p $"/"))
      with true by (by rewrite Ht).
    rewrite Clean_under_root by done.
    change (Clean (wwwRoot s) ++ Separator :: Strings.TrimPrefix p $"/")
      with (Clean (wwwRoot s) ++ [Separator] ++ Strings.TrimPrefix p $"/") at 1.
    by rewrite app_assoc, HasPrefix_app.
Qed.

(** With a root whose clean form is [/], a flat name fails the final check. *)
Lemma sanitizePath_slash_root (s : Server) (fs : Os.FS) (p : gostring) :
  IsAbs (wwwRoot s) = true -> Clean (wwwRoot s) = [Separator] ->
  flatName (Strings.TrimPrefix p $"/") -> sanitizePath s fs p = inr EscapesRoot.
Proof.
  intros Habs Hroot Hq. pose proof (flatName_real _ Hq) as Hreal.
  rewrite sanitizePath_flat by done. rewrite Join_slash_root by done.
  unfold Abs. rewrite Habs, Hroot.
  replace (IsAbs (Separator :: Strings.TrimPrefix p $"/")) with true by done.
  rewrite Clean_slash_elem by done.
  destruct Hreal as (Hne & Hsep & _).
  generalize dependent (Strings.TrimPrefix p $"/"). intros q _ Hne Hsep.
  destruct (Strings.HasPrefix _ _) eqn:Ep.
  - apply HasPrefix_true in Ep as [t [= Ht]]. exfalso. apply Hsep. rewrite Ht. by left.
  - cbn [negb andb]. rewrite bool_decide_eq_false_2; [done|].
    intros [= Ht]. done.
Qed.

(** X1.  Under an absolute served root other than [/], [sanitizePath]
    accepts exactly the flat names.  A candidate whose remainder after the
    single leading slash is not empty, is not [.] and holds no slash, no
    backslash and no two dots in a row is accepted, and the path returned is
    the clean root, a separator and that name; every other candidate is
    rejected.  The answer is the same for every file system: neither the
    working directory nor what the path names is looked at. *)
Theorem sanitizePath_accepts_exactly_flat_names (s : Server) (fs : Os.FS)
    (p : gostring) :
  IsAbs (wwwRoot s) = true -> Clean (wwwRoot s) <> [Separator] ->
  let q := Strings.TrimPrefix p $"/" in
  (flatName q -> sanitizePath s fs p = inl (Clean (wwwRoot s) ++ Separator :: q)) /\
  (~ flatName q -> exists e, sanitizePath s fs p = inr e) /\
  (forall fs', sanitizePath s fs' p = sanitizePath s fs p).
Proof.
  intros Habs Hroot. cbn zeta. split; [|split].
  - intros Hq. by apply sanitizePath_abs_root.
  - intros Hq. destruct (sanitizePath s fs p) as [full|e] eqn:E; [|by exists e].
    by apply sanitizePath_accepted_flat in E.
  - intros fs'. destruct (sanitizePath_name_checks s p) as [Hq|(_ & e & He & _)].
    + rewrite (proj2 (sanitizePath_abs_root s fs p _ Habs Hroot)) by done.
      by apply sanitizePath_abs_root.
    + by rewrite !He.
Qed.

(** X2.  With a served root whose clean form is [/] (the root [/] itself,
    [//], [/www/..]), [sanitizePath] accepts no candidate: the final check
    looks for the root followed by a separator, which is [//], at the start
    of a clean path, so every flat name fails it with "path escapes www
    root". *)
Theorem root_slash_serves_nothing (s : Server) (fs : Os.FS) (p : gostring) :
  IsAbs (wwwRoot s) = true -> Clean (wwwRoot s) = [Separator] ->
  (exists e, sanitizePath s fs p = inr e) /\
  (flatName (Strings.TrimPrefix p $"/") -> sanitizePath s fs p = inr EscapesRoot).
Proof.
  intros Habs Hroot. split; [|by apply sanitizePath_slash_root].
  destruct (sanitizePath s fs p) as [full|e] eqn:E; [|by exists e].
  apply sanitizePath_accepted_flat in E as Hq.
  rewrite sanitizePath_slash_root in E by done. done.
Qed.


(** X4.  For an accepted candidate, the extension of the returned path,
    which [handleRequest] checks, is the extension of the requested name,
    whatever the root: a dot in the root is never taken for the start of an
    extension.  When the root is absolute, the returned path is absolute
    and already clean: [Clean] and [Abs] map it to itself. *)
Theorem accepted_path_is_canonical (s : Server) (fs : Os.FS) (p full : gostring) :
  sanitizePath s fs p = inl full ->
  Ext full = Ext (Strings.TrimPrefix p $"/") /\
  (IsAbs (wwwRoot s) = true ->
   IsAbs full = true /\ Clean full = full /\ Abs (Os.Getwd fs) full = Some full).
Proof.
  intros Hacc. pose proof (sanitizePath_accepted_flat _ _ _ _ Hacc) as Hq.
  pose proof (flatName_real _ Hq) as Hreal.
  pose proof Hacc as Hfull. rewrite sanitizePath_flat in Hfull by done.
  assert (Hjoin : full = Join [wwwRoot s; Strings.TrimPrefix p $"/"])
    by (repeat case_match; congruence).
  clear Hfull. split.
  - destruct Hreal as (_ & Hsep & _).
    destruct (Join_root_real_shape (wwwRoot s) _ (flatName_real _ Hq)) as [Hj|[pre Hj]];
      rewrite Hjoin, Hj; [done|]. by apply Ext_slash.
  - intros Habs.
    assert (Hrooted : IsAbs full = true) by (rewrite Hjoin; by apply Join_rooted).
    assert (Hclean : Clean full = full).
    { destruct (decide (Clean (wwwRoot s) = [Separator])) as [Hr|Hr].
      - rewrite sanitizePath_slash_root in Hacc by done. done.
      - rewrite Hjoin, Join_abs_root by done. by apply Clean_under_root. }
    split; [done|]. split; [done|]. unfold Abs. by rewrite Hrooted, Hclean.
Qed.

End SanitizeMore.

Lemma sanitizePath_accepts_exactly_flat_names_witness :
  sanitizePath demoServer demoFS $"/index.html" = inl $"/var/www/index.html".
Proof.
  destruct (sanitizePath_accepts_exactly_flat_names demoServer demoFS $"/index.html" eq_refl)
    as (Hacc & _).
  - by vm_compute.
  - apply Hacc. flat_name.
Defined.

Lemma root_slash_serves_nothing_witness :
  sanitizePath rootServer demoFS $"/index.html" = inr EscapesRoot.
Proof.
  destruct (root_slash_serves_nothing rootServer demoFS $"/index.html" eq_refl eq_refl)
    as (_ & Hflat).
  apply Hflat. flat_name.
Defined.


Lemma accepted_path_is_canonical_witness :
  Filepath.Ext $"/var/www/archive.tar.GZ" = Filepath.Ext $"archive.tar.GZ" /\
  Filepath.Clean $"/var/www/archive.tar.GZ" = $"/var/www/archive.tar.GZ".
Proof.
  destruct (accepted_path_is_canonical demoServer demoFS $"/archive.tar.GZ"
              $"/var/www/archive.tar.GZ" eq_refl) as (Hext & Habs).
  split; [exact Hext|]. by destruct (Habs eq_refl) as (_ & Hclean & _).
Defined.

(** ** The response recorder: any sequence of calls *)
Section RecorderProtocol.
Context {W : Type} `{Http.ResponseWriter W}.
Import responseRecorder.

Lemma forwardedCalls_wrote (cs : list Http.Call) :
  forwardedCalls true cs = dropWriteHeaders cs.
Proof.
  unfold dropWriteHeaders. induction cs as [|c cs IH]; [reflexivity|].
  rewrite filter_cons.
  destruct c; cbn [forwardedCalls isWriteHeader];
    (case_decide; [|try congruence]); try discriminate; by rewrite ?IH.
Qed.

Lemma dropWriteHeaders_forwardedCalls (wrote : bool) (cs : list Http.Call) :
  dropWriteHeaders (forwardedCalls wrote cs) = dropWriteHeaders cs.
Proof.
  unfold dropWriteHeaders. revert wrote. induction cs as [|c cs IH]; intros wrote; [reflexivity|].
  destruct c, wrote; cbn [forwardedCalls];
    rewrite ?filter_cons; cbn [isWriteHeader];
    repeat (case_decide; [|try congruence]); try discriminate; by rewrite ?IH.
Qed.

(** In what is forwarded, a [Write] comes after a [WriteHeader]. *)
Lemma forwardedCalls_header_first (cs pre post : list Http.Call) (p : gostring) :
  forwardedCalls false cs = pre ++ Http.CallWrite p :: post ->
  exists code, Http.CallWriteHeader code ∈ pre.
Proof.
  revert pre. induction cs as [|c cs IH]; intros pre; cbn [forwardedCalls].
  - by destruct pre.
  - destruct c as [k|k v|code|p'].
    + destruct pre as [|c' pre]; [discriminate|]. intros [= <- Heq].
      destruct (IH _ Heq) as [code Hin]. exists code. by right.
    + destruct pre as [|c' pre]; [discriminate|]. intros [= <- Heq].
      destruct (IH _ Heq) as [code Hin]. exists code. by right.
    + destruct pre as [|c' pre]; [discriminate|]. intros [= <- Heq].
      exists code. by left.
    + destruct pre as [|c' pre]; [discriminate|]. intros [= <- Heq].
      exists Http.StatusOK. by left.
Qed.

Lemma writeHeaders_dropWriteHeaders (cs : list Http.Call) :
  writeHeaders (dropWriteHeaders cs) = [].
Proof.
  unfold writeHeaders, dropWriteHeaders. induction cs as [|c cs IH]; [reflexivity|].
  rewrite filter_cons. case_decide as Hc; [|done].
  rewrite filter_cons. case_decide; [congruence|done].
Qed.

(** A sequence of calls on a recorder that has written no header. *)
Lemma calls_before_header (cs : list Http.Call) (rr : t W) :
  wroteHeader rr = false ->
  let rr' := Http.calls rr cs in
  let sent := forwardedCalls false cs in
  writer rr' = Http.calls (writer rr) sent /\
  bytesWritten rr' =
    fold_left (fun b n => Time.wrapI64 (b + n)) (reportedCounts (writer rr) sent)
      (bytesWritten rr) /\
  (if wroteHeader rr'
   then writeHeaders sent = [Http.CallWriteHeader (statusCode rr')]
   else writeHeaders sent = [] /\ statusCode rr' = statusCode rr /\
        bytesWritten rr' = bytesWritten rr).
Proof.
  revert rr. induction cs as [|c cs IH]; intros rr Hw; cbn zeta.
  { cbn. by rewrite Hw. }
  rewrite calls_cons. destruct c as [k|k v|code|p].
  - specialize (IH (onWriter (Http.HeaderDel k) rr) Hw). cbn zeta in IH.
    destruct IH as (Hwr & Hb & Hh).
    change (Http.call rr (Http.CallHeaderDel k)) with (onWriter (Http.HeaderDel k) rr).
    cbn [forwardedCalls]. unfold writeHeaders in *. rewrite filter_cons.
    cbn [isWriteHeader]. rewrite decide_False by done.
    rewrite calls_cons. cbn [reportedCounts]. done.
  - specialize (IH (onWriter (Http.HeaderSet k v) rr) Hw). cbn zeta in IH.
    destruct IH as (Hwr & Hb & Hh).
    change (Http.call rr (Http.CallHeaderSet k v)) with (onWriter (Http.HeaderSet k v) rr).
    cbn [forwardedCalls]. unfold writeHeaders in *. rewrite filter_cons.
    cbn [isWriteHeader]. rewrite decide_False by done.
    rewrite calls_cons. cbn [reportedCounts]. done.
  - change (Http.call rr (Http.CallWriteHeader code)) with (WriteHeader code rr).
    rewrite WriteHeader_fresh by done.
    match goal with |- context [Http.calls ?r cs] =>
      destruct (calls_after_header cs r eq_refl) as (Hs & Hw' & Hwr & Hb) end.
    cbn [statusCode writer bytesWritten] in Hs, Hwr, Hb.
    cbn [forwardedCalls]. rewrite forwardedCalls_wrote, Hw', Hwr, Hb, Hs.
    unfold writeHeaders. rewrite filter_cons, decide_True by done.
    fold (writeHeaders (dropWriteHeaders cs)). rewrite writeHeaders_dropWriteHeaders.
    done.
  - change (Http.call rr (Http.CallWrite p)) with (fst (Write p rr)).
    assert (Hrr : fst (Write p rr) =
      {| writer := fst (Http.Write p (Http.WriteHeader Http.StatusOK (writer rr)));
         statusCode := Http.StatusOK;
         bytesWritten :=
           Time.wrapI64 (bytesWritten rr
             + fst (snd (Http.Write p (Http.WriteHeader Http.StatusOK (writer rr)))));
         wroteHeader := true |}).
    { unfold Write. rewrite Hw. cbn [negb]. rewrite WriteHeader_fresh by done.
      cbn [writer statusCode bytesWritten wroteHeader].
      by destruct (Http.Write p _) as [w' [n err]]. }
    rewrite Hrr.
    match goal with |- context [Http.calls ?r cs] =>
      destruct (calls_after_header cs r eq_refl) as (Hs & Hw' & Hwr & Hb) end.
    cbn [statusCode writer bytesWritten] in Hs, Hwr, Hb.
    cbn [forwardedCalls]. rewrite forwardedCalls_wrote, Hw', Hwr, Hb, Hs.
    unfold writeHeaders. rewrite filter_cons, decide_True by done.
    rewrite filter_cons, decide_False by done.
    fold (writeHeaders (dropWriteHeaders cs)). rewrite writeHeaders_dropWriteHeaders.
    done.
Qed.

(** A sequence of calls on a new recorder. *)
Lemma calls_on_new (w : W) (cs : list Http.Call) :
  let rr := Http.calls (new w) cs in
  let sent := forwardedCalls false cs in
  writer rr = Http.calls w sent /\
  writeHeaders sent =
    (if wroteHeader rr then [Http.CallWriteHeader (statusCode rr)] else []) /\
  (wroteHeader rr = false -> statusCode rr = 200 /\ bytesWritten rr = 0) /\
  bytesWritten rr = Time.wrapI64 (sumZ (reportedCounts w sent)).
Proof.
  cbn zeta. destruct (calls_before_header cs (new w) eq_refl) as (Hwr & Hb & Hh).
  cbn zeta in *. cbn [new writer bytesWritten statusCode] in Hwr, Hb, Hh.
  split; [done|]. split; [|split].
  - by destruct (wroteHeader _); [|destruct Hh].
  - intros Hw. rewrite Hw in Hh. by destruct Hh as (_ & ? & ?).
  - rewrite Hb. pose proof (fold_wrap_sum (reportedCounts w (forwardedCalls false cs)) 0) as Hf.
    change (Time.wrapI64 0) with 0 in Hf. by rewrite Z.add_0_l in Hf.
Qed.

(** X5.  For any sequence of calls on a new recorder.  The embedded writer
    receives the calls other than [WriteHeader] unchanged and in order, and
    at most one [WriteHeader]: it carries the status the recorder shows,
    the code of the first [WriteHeader] or the 200 put before a first
    [Write].  Every [Write] it receives comes after that [WriteHeader].
    When no header was written the recorder shows 200 and 0 bytes.  The
    byte count is the [int64] sum of what the embedded writer reported. *)
Theorem recorder_forwards_one_header (w : W) (cs : list Http.Call) :
  let rr := Http.calls (new w) cs in
  let sent := forwardedCalls false cs in
  writer rr = Http.calls w sent /\
  dropWriteHeaders sent = dropWriteHeaders cs /\
  writeHeaders sent =
    (if wroteHeader rr then [Http.CallWriteHeader (statusCode rr)] else []) /\
  (wroteHeader rr = false -> statusCode rr = 200 /\ bytesWritten rr = 0) /\
  (forall pre p post, sent = pre ++ Http.CallWrite p :: post ->
     exists code, Http.CallWriteHeader code ∈ pre) /\
  bytesWritten rr = Time.wrapI64 (sumZ (reportedCounts w sent)).
Proof.
  cbn zeta. destruct (calls_on_new w cs) as (Hwr & Hwh & Hfresh & Hb).
  split; [done|]. split; [apply dropWriteHeaders_forwardedCalls|].
  split; [done|]. split; [done|]. split; [|done].
  intros pre p post. apply forwardedCalls_header_first.
Qed.

End RecorderProtocol.

Lemma recorder_forwards_one_header_witness :
  let rr := Http.calls (responseRecorder.new ([] : Http.CallLog))
              [Http.CallHeaderSet $"Content-Type" $"text/css"; Http.CallWrite $"body{}";
               Http.CallWriteHeader 500] in
  responseRecorder.writer rr =
    [Http.CallHeaderSet $"Content-Type" $"text/css"; Http.CallWriteHeader 200;
     Http.CallWrite $"body{}"] /\
  responseRecorder.statusCode rr = 200.
Proof.
  cbn zeta.
  destruct (recorder_forwards_one_header ([] : Http.CallLog)
              [Http.CallHeaderSet $"Content-Type" $"text/css"; Http.CallWrite $"body{}";
               Http.CallWriteHeader 500]) as (Hwr & _).
  split; [exact Hwr | reflexivity].
Defined.

(** ** The request handler: outcomes and effects *)
Section HandlerMore.
Context {W : Type} `{Http.ResponseWriter W}.
Import Filepath.

Lemma not_in_marks (st : State) (marks : list State) :
  st <> Received -> st <> Logged -> st <> Done ->
  st ∈ Received :: marks ++ [Logged; Done] <-> st ∈ marks.
Proof.
  intros H1 H2 H3. rewrite elem_of_cons, elem_of_app, !elem_of_cons, elem_of_nil.
  intuition.
Qed.

(** When the body reaches [http.ServeFile]. *)
Lemma handleBody_serving (tables : ExtTables) (s : Server) (w : World)
    (wrapped : responseRecorder.t W) (r : Request) :
  Serving ∈ (handleBody tables s w wrapped r).1.1 <->
  methodAllowed r /\
  exists cleanPath,
    sanitizePath s (fs w) (URLPath r) = inl cleanPath /\
    Os.Stat (fs w) cleanPath = Os.StatInfo false /\
    let ext := Strings.ToLower (unicodeLower w) (Ext cleanPath) in
    mapIndex (blocked tables) ext = false /\ mapIndex (allowed tables) ext = true.
Proof.
  assert (Hno : forall l : list State, Serving ∈ l -> Forall (fun st => st <> Serving) l -> False).
  { intros l Hin Hall. rewrite Forall_forall in Hall. by apply (Hall _ Hin). }
  destruct (negb (bool_decide (reqMethod r = Http.MethodGet))
            && negb (bool_decide (reqMethod r = Http.MethodHead))) eqn:Em.
  { assert (Hm : ~ methodAllowed r) by (rewrite <- methodAllowed_test; congruence).
    rewrite handleBody_method by done. cbn [fst]. split; [|by intros [? _]].
    intros Hin. exfalso. apply (Hno _ Hin). by repeat constructor. }
  apply methodAllowed_test in Em.
  destruct (sanitizePath s (fs w) (URLPath r)) as [cleanPath|e] eqn:Ep.
  2:{ rewrite (handleBody_rejected _ _ _ _ _ e) by done. cbn [fst].
      split; [|by intros (_ & ? & ? & _)].
      intros Hin. exfalso. apply (Hno _ Hin). by repeat constructor. }
  rewrite (handleBody_stat _ _ _ _ _ cleanPath) by done.
  destruct (Os.Stat (fs w) cleanPath) as [[|]| |] eqn:Est; cbn [fst].
  - split; [|by intros (_ & ? & [= <-] & ? & _); congruence].
    intros Hin. exfalso. apply (Hno _ Hin). by repeat constructor.
  - cbn zeta.
    destruct (mapIndex (blocked tables) _) eqn:Eb, (mapIndex (allowed tables) _) eqn:Ea;
      cbn [orb negb fst].
    + split; [|intros (_ & ? & [= <-] & _ & ? & _); cbn zeta in *; congruence].
      intros Hin. exfalso. apply (Hno _ Hin). by repeat constructor.
    + split; [|intros (_ & ? & [= <-] & _ & ? & _); cbn zeta in *; congruence].
      intros Hin. exfalso. apply (Hno _ Hin). by repeat constructor.
    + split; [intros _|intros _; set_solver].
      split; [done|]. exists cleanPath. by repeat split.
    + split; [|intros (_ & ? & [= <-] & _ & _ & ?); cbn zeta in *; congruence].
      intros Hin. exfalso. apply (Hno _ Hin). by repeat constructor.
  - split; [|by intros (_ & ? & [= <-] & ? & _); congruence].
    intros Hin. exfalso. apply (Hno _ Hin). by repeat constructor.
  - split; [|by intros (_ & ? & [= <-] & ? & _); congruence].
    intros Hin. exfalso. apply (Hno _ Hin). by repeat constructor.
Qed.

Lemma Error_calls {V} `{Http.ResponseWriter V} (v : V) (msg : gostring) (code : Z) :
  Http.Error v msg code = Http.calls v (errorCalls msg code).
Proof. reflexivity. Qed.

(** What the handler does with its writer, as calls on the recorder: those
    of one [http.Error], or those of [http.ServeFile]. *)
Lemma handleBody_calls (tables : ExtTables) (s : Server) (w : World)
    (wrapped : responseRecorder.t W) (r : Request) :
  let b := handleBody tables s w wrapped r in
  exists cs,
    b.2 = Http.calls wrapped cs /\
    ((exists msg code,
        cs = errorCalls msg code /\
        (msg, code) ∈ [($"Method Not Allowed", 405); ($"Forbidden", 403);
                       ($"Not Found", 404); ($"Internal Server Error", 500)] /\
        (Serving ∉ b.1.1)) \/
     (exists p, cs = ServeFile w r p /\ b.1.2 = [p] /\ Serving ∈ b.1.1)).
Proof.
  cbn zeta.
  destruct (handleBody_cases tables s w wrapped r)
    as [(marks & stats & msg & code & Hb & ->)|[p ->]]; cbn [fst snd].
  - exists (errorCalls msg code). split; [apply Error_calls|]. left.
    exists msg, code. split; [done|]. split.
    + destruct Hb; rewrite !elem_of_cons; auto 10.
    + destruct Hb; intros Hin;
        repeat (apply elem_of_cons in Hin as [Hin|Hin]; [discriminate|]);
        by apply elem_of_nil in Hin.
  - exists (ServeFile w r p). split; [done|]. right. exists p. split; [done|].
    split; [done|]. rewrite !elem_of_cons. auto 10.
Qed.

(** X6.  Under an absolute root other than [/], a request reaches
    [http.ServeFile] exactly when its method is GET or HEAD, its name is
    flat, [os.Stat] of the clean root joined with the name finds something
    that is no directory, and the lower-cased extension of the name is
    allowed and not blocked.  [os.Stat] was then called once, on that path,
    and the recorder has received the calls of [http.ServeFile] for that
    path and no others. *)
Theorem served_exactly_when (tables : ExtTables) (s : Server) (w : World)
    (lf : LogFiles) (rw : W) (r : Request) :
  IsAbs (wwwRoot s) = true -> Clean (wwwRoot s) <> [Separator] ->
  let q := Strings.TrimPrefix (URLPath r) $"/" in
  let full := Clean (wwwRoot s) ++ Separator :: q in
  let ext := Strings.ToLower (unicodeLower w) (Ext q) in
  let h := handleRequest tables s w lf rw r in
  (Serving ∈ trace h <->
   methodAllowed r /\ flatName q /\ Os.Stat (fs w) full = Os.StatInfo false /\
   mapIndex (blocked tables) ext = false /\ mapIndex (allowed tables) ext = true) /\
  (Serving ∈ trace h ->
   statCalls h = [full] /\
   recorder h = Http.calls (responseRecorder.new rw) (ServeFile w r full)).
Proof.
  intros Habs Hroot. cbn zeta.
  destruct (handleRequest_unfold tables s w lf rw r) as (-> & -> & -> & _).
  rewrite not_in_marks by done. rewrite handleBody_serving.
  pose proof (fun cleanPath => sanitizePath_abs_root s (fs w) (URLPath r) cleanPath Habs Hroot)
    as Hiff.
  split.
  - split.
    + intros (Hm & cleanPath & Hacc & Hst & Hb & Ha). cbn zeta in *.
      apply Hiff in Hacc as [Hq ->].
      destruct (flatName_real _ Hq) as (_ & Hsep & _).
      rewrite Ext_slash in Hb, Ha by done. done.
    + intros (Hm & Hq & Hst & Hb & Ha). split; [done|].
      exists (Clean (wwwRoot s) ++ Separator :: Strings.TrimPrefix (URLPath r) $"/").
      destruct (flatName_real _ Hq) as (_ & Hsep & _).
      split; [by apply Hiff|]. split; [done|]. cbn zeta. by rewrite Ext_slash.
  - intros (Hm & cleanPath & Hacc & Hst & Hb & Ha). cbn zeta in *.
    rewrite (handleBody_stat _ _ _ _ _ cleanPath) by done. rewrite Hst. cbn zeta.
    rewrite Hb, Ha. cbn [orb negb fst snd].
    apply Hiff in Hacc as [_ ->]. done.
Qed.

(** X7.  A request whose method is neither [GET] nor [HEAD], byte for byte,
    is answered 405 by [http.Error] before its path is looked at: [os.Stat]
    is not called.  The request is logged all the same, with status 405. *)
Theorem disallowed_method_touches_nothing (tables : ExtTables) (s : Server) (w : World)
    (lf : LogFiles) (rw : W) (r : Request) :
  reqMethod r <> Http.MethodGet -> reqMethod r <> Http.MethodHead ->
  let h := handleRequest tables s w lf rw r in
  trace h = [Received; MethodChecked; MethodNotAllowed; Logged; Done] /\
  statCalls h = [] /\
  responseRecorder.writer (recorder h) = Http.Error rw $"Method Not Allowed" 405 /\
  (exists entry, logCalls h = [entry] /\ Status entry = 405 /\
                 Method entry = reqMethod r /\ Path entry = URLPath r).
Proof.
  intros Hget Hhead. cbn zeta.
  assert (Hm : ~ methodAllowed r) by (by intros [?|?]).
  destruct (handleRequest_unfold tables s w lf rw r) as (-> & -> & -> & -> & _).
  rewrite handleBody_method by done. cbn [fst snd].
  split; [done|]. split; [done|]. split; [apply Error_writer|].
  eexists. split; [done|]. cbn [Status Method Path]. split; [|done]. apply Error_status.
Qed.

(** X8.  With an absolute root, a request makes no call of [os.Stat] or
    one, and that one on a direct child of the clean root: the root, a
    separator, and the flat name of the request, which is the base name of
    the path. *)
Theorem stat_only_under_root (tables : ExtTables) (s : Server) (w : World)
    (lf : LogFiles) (rw : W) (r : Request) :
  IsAbs (wwwRoot s) = true ->
  let h := handleRequest tables s w lf rw r in
  let q := Strings.TrimPrefix (URLPath r) $"/" in
  statCalls h = [] \/
  (statCalls h = [Clean (wwwRoot s) ++ Separator :: q] /\
   methodAllowed r /\ flatName q /\ Base (Clean (wwwRoot s) ++ Separator :: q) = q).
Proof.
  intros Habs. cbn zeta.
  destruct (handleRequest_unfold tables s w lf rw r) as (_ & -> & _).
  destruct (negb (bool_decide (reqMethod r = Http.MethodGet))
            && negb (bool_decide (reqMethod r = Http.MethodHead))) eqn:Em.
  { assert (Hm : ~ methodAllowed r) by (rewrite <- methodAllowed_test; congruence).
    rewrite handleBody_method by done. by left. }
  apply methodAllowed_test in Em.
  destruct (sanitizePath s (fs w) (URLPath r)) as [cleanPath|e] eqn:Ep.
  2:{ rewrite (handleBody_rejected _ _ _ _ _ e) by done. by left. }
  right. rewrite (handleBody_stat _ _ _ _ _ cleanPath) by done.
  pose proof (sanitizePath_accepted_flat _ _ _ _ Ep) as Hq.
  assert (Hroot : Clean (wwwRoot s) <> [Separator]).
  { intros Hr. rewrite sanitizePath_slash_root in Ep by done. done. }
  apply sanitizePath_abs_root in Ep as [_ ->]; [|done..].
  destruct (flatName_real _ Hq) as (Hne & Hsep & _).
  split; [|split; [done|split; [done|by apply Base_slash]]].
  destruct (Os.Stat (fs w) _) as [[|]| |]; try done.
  cbn zeta. by destruct (_ || _).
Qed.


(** X10.  The status logged is the status sent.  The handler either makes
    the calls of one [http.Error] on the recorder, with one of the codes
    405, 403, 404 and 500, which is the status of the entry; or it makes
    the calls of [http.ServeFile] on the path it looked up.  In both cases
    the writer of the request receives one [WriteHeader], with the status
    of the entry, or none at all, and then the entry shows 200 and 0 bytes;
    the byte count of the entry is the [int64] sum of what that writer
    reported. *)
Theorem logged_status_is_sent_status (tables : ExtTables) (s : Server) (w : World)
    (lf : LogFiles) (rw : W) (r : Request) :
  let h := handleRequest tables s w lf rw r in
  exists entry cs,
    logCalls h = [entry] /\
    ((exists msg,
        cs = errorCalls msg (Status entry) /\ Status entry ∈ [405; 403; 404; 500] /\
        (Serving ∉ trace h)) \/
     (exists p, cs = ServeFile w r p /\ statCalls h = [p] /\ Serving ∈ trace h)) /\
    responseRecorder.writer (recorder h) = Http.calls rw (forwardedCalls false cs) /\
    (writeHeaders (forwardedCalls false cs) = [Http.CallWriteHeader (Status entry)] \/
     writeHeaders (forwardedCalls false cs) = [] /\ Status entry = 200 /\ Bytes entry = 0) /\
    Bytes entry = Time.wrapI64 (sumZ (reportedCounts rw (forwardedCalls false cs))).
Proof.
  cbn zeta.
  destruct (handleRequest_unfold tables s w lf rw r) as (-> & -> & -> & -> & _).
  destruct (handleBody_calls tables s w (responseRecorder.new rw) r) as (cs & Hcs & Hkind).
  cbn zeta in Hkind. eexists. exists cs. split; [done|]. cbn [Status Bytes].
  rewrite Hcs.
  destruct (calls_on_new rw cs) as (Hwr & Hwh & Hfresh & Hb).
  split; [|split; [done|split; [|done]]].
  - destruct Hkind as [(msg & code & -> & Hin & Hns)|(p & -> & Hst & Hs)].
    + left. exists msg. rewrite <- Error_calls, Error_status. split; [done|].
      split; [|by rewrite not_in_marks]. rewrite !elem_of_cons in Hin.
      rewrite !elem_of_cons.
      destruct Hin as [[= _ ->]|[[= _ ->]|[[= _ ->]|[[= _ ->]|Hin%elem_of_nil]]]]; auto.
      done.
    + right. exists p. by rewrite not_in_marks.
  - destruct (responseRecorder.wroteHeader _) eqn:Ew; [by left|].
    right. split; [done|]. by apply Hfresh.
Qed.

(** The extension the handler checks is that of the requested name. *)
Lemma handleBody_serving_name (tables : ExtTables) (s : Server) (w : World)
    (wrapped : responseRecorder.t W) (r : Request) :
  Serving ∈ (handleBody tables s w wrapped r).1.1 ->
  let ext := Strings.ToLower (unicodeLower w)
               (Ext (Strings.TrimPrefix (URLPath r) $"/")) in
  mapIndex (blocked tables) ext = false /\ mapIndex (allowed tables) ext = true.
Proof.
  intros (_ & cleanPath & Hacc & _ & Hb & Ha)%handleBody_serving. cbn zeta in *.
  pose proof (sanitizePath_accepted_flat _ _ _ _ Hacc) as Hq.
  pose proof (flatName_real _ Hq) as Hreal.
  assert (Hjoin : cleanPath = Join [wwwRoot s; Strings.TrimPrefix (URLPath r) $"/"]).
  { rewrite sanitizePath_flat in Hacc by done. repeat case_match; congruence. }
  assert (Hext : Ext cleanPath = Ext (Strings.TrimPrefix (URLPath r) $"/")).
  { destruct Hreal as (_ & Hsep & _).
    destruct (Join_root_real_shape (wwwRoot s) _ (flatName_real _ Hq)) as [Hj|[pre Hj]];
      rewrite Hjoin, Hj; [done|]. by apply Ext_slash. }
  by rewrite <- Hext.
Qed.

Lemma allowedExts_listed (ext : gostring) :
  mapIndex allowedExts ext = true <-> ext ∈ listedExts.
Proof.
  unfold mapIndex, allowedExts. split.
  - destruct (list_to_map _ !! ext) as [[|]|] eqn:E; [|done..]. intros _.
    apply elem_of_list_to_map_2 in E.
    repeat (apply elem_of_cons in E as [[= ->]|E]; [set_solver|]).
    by apply elem_of_nil in E.
  - intros Hin. unfold listedExts in Hin.
    repeat (apply elem_of_cons in Hin as [->|Hin]; [by vm_compute|]).
    by apply elem_of_nil in Hin.
Qed.

(** The extension of a bucket file name is [.log]. *)
Lemma Ext_logFileName (s : Server) (now : Time.Time) :
  Ext (logFileName s now) = $".log".
Proof.
  unfold logFileName. change $".log" with ("."%char :: $"log").
  apply Ext_dot.
  - intros Hin. repeat (apply elem_of_cons in Hin as [Hin|Hin]; [discriminate|]).
    by apply elem_of_nil in Hin.
  - intros Hin. repeat (apply elem_of_cons in Hin as [Hin|Hin]; [discriminate|]).
    by apply elem_of_nil in Hin.
Qed.

(** X11.  Under an absolute root other than [/], the status of the response
    to a request that is not served: 405 when the method is neither GET nor
    HEAD; else 403 when the name is not flat; else, by what [os.Stat] finds
    at the clean root joined with the name, 404 when nothing is there, 500
    for another error, 403 for a directory, and for a file 403 when the
    lower-cased extension of the name is blocked or not allowed. *)
Theorem status_of_request (tables : ExtTables) (s : Server) (w : World)
    (lf : LogFiles) (rw : W) (r : Request) :
  IsAbs (wwwRoot s) = true -> Clean (wwwRoot s) <> [Separator] ->
  let q := Strings.TrimPrefix (URLPath r) $"/" in
  let full := Clean (wwwRoot s) ++ Separator :: q in
  let ext := Strings.ToLower (unicodeLower w) (Ext q) in
  let status := responseRecorder.statusCode (recorder (handleRequest tables s w lf rw r)) in
  (~ methodAllowed r -> status = 405) /\
  (methodAllowed r -> ~ flatName q -> status = 403) /\
  (methodAllowed r -> flatName q ->
   match Os.Stat (fs w) full with
   | Os.StatNotExist => status = 404
   | Os.StatError => status = 500
   | Os.StatInfo true => status = 403
   | Os.StatInfo false =>
       mapIndex (blocked tables) ext = true \/ mapIndex (allowed tables) ext = false ->
       status = 403
   end).
Proof.
  intros Habs Hroot. cbn zeta.
  destruct (handleRequest_unfold tables s w lf rw r) as (_ & _ & -> & _).
  split; [|split].
  - intros Hm. rewrite handleBody_method by done. apply Error_status.
  - intros Hm Hq. destruct (sanitizePath s (fs w) (URLPath r)) as [full|e] eqn:E.
    + by apply sanitizePath_accepted_flat in E.
    + rewrite (handleBody_rejected _ _ _ _ _ e) by done. apply Error_status.
  - intros Hm Hq.
    rewrite (handleBody_stat _ _ _ _ _ (Clean (wwwRoot s) ++ Separator ::
               Strings.TrimPrefix (URLPath r) $"/")) by (done || by apply sanitizePath_abs_root).
    destruct (flatName_real _ Hq) as (_ & Hsep & _).
    destruct (Os.Stat (fs w) _) as [[|]| |]; cbn [snd]; try apply Error_status.
    cbn zeta. rewrite Ext_slash by done.
    intros [-> | ->]; cbn [orb negb snd]; [|rewrite orb_true_r]; apply Error_status.
Qed.

(** X12.  With the tables of the program, a request is served only when the
    lower-cased extension of its name is one of the thirteen of the allow
    list.  The block list adds nothing to that: what it blocks the allow
    list does not hold.  So a name without extension and a name that ends
    in [.log], in whatever case, are never served. *)
Theorem served_only_listed_extensions (s : Server) (w : World) (lf : LogFiles)
    (rw : W) (r : Request) :
  let ext := Strings.ToLower (unicodeLower w)
               (Ext (Strings.TrimPrefix (URLPath r) $"/")) in
  (Serving ∈ trace (handleRequest extTables s w lf rw r) -> ext ∈ listedExts) /\
  (forall e, mapIndex blockedExts e = true -> mapIndex allowedExts e = false) /\
  (ext = [] \/ ext = $".log" -> Serving ∉ trace (handleRequest extTables s w lf rw r)).
Proof.
  cbn zeta.
  destruct (handleRequest_unfold extTables s w lf rw r) as (-> & _).
  rewrite not_in_marks by done.
  assert (Hserved : Serving ∈ (handleBody extTables s w (responseRecorder.new rw) r).1.1 ->
    Strings.ToLower (unicodeLower w) (Ext (Strings.TrimPrefix (URLPath r) $"/"))
      ∈ listedExts).
  { intros [_ Ha]%handleBody_serving_name. by apply allowedExts_listed. }
  split; [done|]. split.
  - intros e. unfold mapIndex, blockedExts.
    destruct (list_to_map _ !! e) as [[|]|] eqn:E; [|done..]. intros _.
    apply elem_of_list_to_map_2 in E. apply list_elem_of_singleton in E as [= ->].
    by vm_compute.
  - intros Hext Hs%Hserved. unfold listedExts in Hs.
    destruct Hext as [Hext|Hext]; rewrite Hext in Hs;
      repeat (apply elem_of_cons in Hs as [Hs|Hs]; [discriminate|]);
      by apply elem_of_nil in Hs.
Qed.

(** X13.  The log files cannot be fetched, wherever the log directory is:
    a request whose name is the bucket file name of any time is never
    served, and is answered with one of the statuses 405, 403, 404 and
    500. *)
Theorem log_files_never_served (s : Server) (w : World) (lf : LogFiles) (rw : W)
    (r : Request) (now : Time.Time) :
  Strings.TrimPrefix (URLPath r) $"/" = logFileName s now ->
  let h := handleRequest extTables s w lf rw r in
  (Serving ∉ trace h) /\
  responseRecorder.statusCode (recorder h) ∈ [405; 403; 404; 500].
Proof.
  intros Hname. cbn zeta.
  destruct (handleRequest_unfold extTables s w lf rw r) as (-> & _ & -> & _).
  rewrite not_in_marks by done.
  assert (Hns : Serving ∉ (handleBody extTables s w (responseRecorder.new rw) r).1.1).
  { intros [Hb _]%handleBody_serving_name. cbn zeta in Hb.
    rewrite Hname, Ext_logFileName in Hb. by vm_compute in Hb. }
  split; [done|].
  destruct (handleBody_calls extTables s w (responseRecorder.new rw) r) as (cs & Hcs & Hkind).
  cbn zeta in Hkind. rewrite Hcs.
  destruct Hkind as [(msg & code & -> & Hin & _)|(p & _ & _ & Hs)]; [|done].
  rewrite <- Error_calls, Error_status.
  rewrite !elem_of_cons in Hin. rewrite !elem_of_cons.
  destruct Hin as [[= _ ->]|[[= _ ->]|[[= _ ->]|[[= _ ->]|Hin%elem_of_nil]]]]; auto.
  done.
Qed.

End HandlerMore.

Lemma served_exactly_when_witness :
  Serving ∈ trace (demo (GET $"/index.html")) /\
  statCalls (demo (GET $"/index.html")) = [$"/var/www/index.html"].
Proof.
  destruct (served_exactly_when extTables demoServer demoWorld demoLogs
              ([] : Http.CallLog) (GET $"/index.html") eq_refl) as (Hiff & Hserved).
  - by vm_compute.
  - assert (Hs : Serving ∈ trace (demo (GET $"/index.html"))).
    { apply Hiff. split; [by left|]. split; [flat_name|]. by vm_compute. }
    split; [exact Hs|]. by destruct (Hserved Hs) as (Hstat & _).
Defined.

Lemma disallowed_method_touches_nothing_witness :
  let h := handleRequest extTables demoServer demoWorld demoLogs ([] : Http.CallLog)
             {| reqMethod := $"POST"; URLPath := $"/index.html" |} in
  trace h = [Received; MethodChecked; MethodNotAllowed; Logged; Done] /\ statCalls h = [].
Proof.
  cbn zeta.
  destruct (disallowed_method_touches_nothing extTables demoServer demoWorld demoLogs
              ([] : Http.CallLog) {| reqMethod := $"POST"; URLPath := $"/index.html" |})
    as (Htrace & Hstat & _); [discriminate..|].
  by split.
Defined.

Lemma stat_only_under_root_witness :
  statCalls (demo (GET $"/missing.png")) = [] \/
  (statCalls (demo (GET $"/missing.png")) = [$"/var/www/missing.png"] /\
   methodAllowed (GET $"/missing.png") /\ flatName $"missing.png" /\
   Filepath.Base $"/var/www/missing.png" = $"missing.png").
Proof.
  exact (stat_only_under_root extTables demoServer demoWorld demoLogs
           ([] : Http.CallLog) (GET $"/missing.png") eq_refl).
Defined.


Lemma logged_status_is_sent_status_witness :
  exists entry cs,
    logCalls (demo (GET $"/missing.png")) = [entry] /\
    responseRecorder.writer (recorder (demo (GET $"/missing.png")))
      = Http.calls ([] : Http.CallLog) (forwardedCalls false cs).
Proof.
  destruct (logged_status_is_sent_status extTables demoServer demoWorld demoLogs
              ([] : Http.CallLog) (GET $"/missing.png"))
    as (entry & cs & Hlog & _ & Hwr & _).
  exists entry, cs. split; [exact Hlog | exact Hwr].
Defined.

Lemma status_of_request_witness :
  responseRecorder.statusCode (recorder (demo (GET $"/img.png"))) = 403.
Proof.
  destruct (status_of_request extTables demoServer demoWorld demoLogs
              ([] : Http.CallLog) (GET $"/img.png") eq_refl) as (_ & _ & Hstat).
  - by vm_compute.
  - apply Hstat; [by left | flat_name].
Defined.

Lemma served_only_listed_extensions_witness :
  Serving ∉ trace (demo (GET $"/notes")).
Proof.
  destruct (served_only_listed_extensions demoServer demoWorld demoLogs
              ([] : Http.CallLog) (GET $"/notes")) as (_ & _ & Hnone).
  apply Hnone. left. by vm_compute.
Defined.

Lemma log_files_never_served_witness :
  Serving ∉ trace (demo (GET $"/2025-03-10T14.log")).
Proof.
  destruct (log_files_never_served demoServer demoWorld demoLogs ([] : Http.CallLog)
              (GET $"/2025-03-10T14.log") (utc 1741639020)) as (Hns & _).
  - by vm_compute.
  - exact Hns.
Defined.

(** ** [logRequest] *)
Section LogFacts.


End LogFacts.


(** ** Bucket file names and civil hours *)
Section BucketNames.
Import Time.

Lemma absDate_day (a b : Z) :
  a / secondsPerDay = b / secondsPerDay -> absDate a = absDate b.
Proof. intros Heq. unfold absDate. by rewrite Heq. Qed.

Lemma hours_split (a : Z) : a / 3600 = 24 * (a / secondsPerDay) + absHour a.
Proof.
  unfold absHour, secondsPerDay, secondsPerHour, secondsPerMinute.
  change (24 * (60 * 60)) with 86400. change (60 * 60) with 3600.
  pose proof (Z.div_mod a 86400 ltac:(done)).
  pose proof (Z.mod_pos_bound a 86400 ltac:(done)).
  pose proof (Z.div_mod (a mod 86400) 3600 ltac:(done)).
  pose proof (Z.mod_pos_bound (a mod 86400) 3600 ltac:(done)).
  symmetry. apply (Z.div_unique _ _ _ ((a mod 86400) mod 3600)); lia.
Qed.

Lemma hours_same (a b : Z) :
  a / 3600 = b / 3600 ->
  a / secondsPerDay = b / secondsPerDay /\ absHour a = absHour b.
Proof.
  intros Heq.
  assert (Hd : forall x, x / secondsPerDay = x / 3600 / 24).
  { intros x. unfold secondsPerDay, secondsPerHour, secondsPerMinute.
    rewrite Z.div_div by lia. done. }
  assert (Hday : a / secondsPerDay = b / secondsPerDay) by (by rewrite !Hd, Heq).
  split; [done|]. pose proof (hours_split a). pose proof (hours_split b). lia.
Qed.

(** The fields of the bucket file name of a time. *)
Lemma bucket_fields (l : Location) (now : Time) :
  fourDigitYear l now ->
  let a := unixSec now + offsetAt l now + (unixToInternal + internalToAbsolute) in
  let '(year, month, day) := absDate a in
  0 <= year < 10000 /\ 1 <= month <= 12 /\ 1 <= day <= 31 /\ 0 <= absHour a < 24 /\
  dayNumber year month day = a / secondsPerDay /\
  Format (In now l) bucketLayout ++ $".log" = bucketName year month day (absHour a).
Proof.
  unfold fourDigitYear, unixYear0, unixYear10000. intros Hc. cbn zeta.
  set (c := unixSec now + offsetAt l now) in *.
  set (K := unixToInternal + internalToAbsolute).
  assert (HK : K = 9223372028715321600) by reflexivity.
  assert (Habs : abs (In now l) = c + K).
  { assert (Hw : abs (In now l) = wrapU64 (c + K)).
    { unfold abs, c, offsetAt. cbn [In loc unixSec].
      by destruct (lookup l (unixSec now)) as [[o st] en]. }
    rewrite Hw. unfold wrapU64. rewrite Z.mod_small; lia. }
  pose proof (Format_bucketLayout (In now l)) as Hfmt. rewrite Habs in Hfmt.
  pose proof (absDate_valid (c + K) ltac:(lia)) as Hval. cbv zeta in Hval.
  destruct (absDate (c + K)) as [[year month] day].
  destruct Hval as (Hm & Hd & HD & k & Hk & Hyear & Hk399).
  set (D := (c + K) / secondsPerDay) in *.
  assert (HDb : 106751990353566 <= D < 106751994005991).
  { unfold D, secondsPerDay, secondsPerHour, secondsPerMinute. split.
    - apply Z.div_le_lower_bound; lia.
    - apply Z.div_lt_upper_bound; lia. }
  unfold daysPer400Years in *. change (365 * 400 + 97) with 146097 in *.
  pose proof (Z.div_mod D 146097 ltac:(done)) as HDm.
  pose proof (Z.mod_pos_bound D 146097 ltac:(done)) as HDr.
  assert (Hy : 0 <= year < 10000) by (unfold absoluteZeroYear in *; lia).
  assert (Hdin : daysIn month year <= 31).
  { unfold daysIn. destruct ((month =? February) && isLeap year); [lia|].
    assert (Hms : month = 1 \/ month = 2 \/ month = 3 \/ month = 4 \/ month = 5 \/
                  month = 6 \/ month = 7 \/ month = 8 \/ month = 9 \/ month = 10 \/
                  month = 11 \/ month = 12) by lia.
    repeat (destruct Hms as [->|Hms]; [by vm_compute|]). subst. by vm_compute. }
  assert (Hh : 0 <= absHour (c + K) < 24).
  { unfold absHour, secondsPerDay, secondsPerHour, secondsPerMinute.
    pose proof (Z.mod_pos_bound (c + K) (24 * (60 * 60)) ltac:(done)).
    split; [apply Z.div_pos | apply Z.div_lt_upper_bound]; lia. }
  repeat split; try lia. apply Hfmt; lia.
Qed.

Lemma civilHour_abs (l : Location) (t : Time) :
  (unixSec t + offsetAt l t + (unixToInternal + internalToAbsolute)) / 3600
  = civilHour l t + 2562047785754256.
Proof.
  unfold civilHour.
  replace (unixToInternal + internalToAbsolute) with (2562047785754256 * 3600) by reflexivity.
  by rewrite Z.div_add by lia.
Qed.

(** Bucket file names of valid fields are equal only for equal fields. *)
Lemma bucketName_inj (y1 m1 d1 h1 y2 m2 d2 h2 : Z) :
  0 <= y1 < 10000 -> 1 <= m1 <= 12 -> 0 <= d1 < 100 -> 0 <= h1 < 24 ->
  0 <= y2 < 10000 -> 1 <= m2 <= 12 -> 0 <= d2 < 100 -> 0 <= h2 < 24 ->
  bucketName y1 m1 d1 h1 = bucketName y2 m2 d2 h2 ->
  y1 = y2 /\ m1 = m2 /\ d1 = d2 /\ h1 = h2.
Proof.
  intros ???? ???? Heq.
  pose (f0 := {| fYear := 0; fMonth := -1; fDay := -1; fHour := 0 |}).
  pose proof (parse_bucketName f0 y1 m1 d1 h1 ltac:(done) ltac:(done) ltac:(done) ltac:(done))
    as Hp1.
  pose proof (parse_bucketName f0 y2 m2 d2 h2 ltac:(done) ltac:(done) ltac:(done) ltac:(done))
    as Hp2.
  rewrite Heq, Hp2 in Hp1. by injection Hp1 as -> -> -> ->.
Qed.

(** Two times have the same bucket file name exactly when they fall in
    the same civil hour. *)
Lemma logFileName_civilHour (s : Server) (t1 t2 : Time) :
  fourDigitYear (location s) t1 -> fourDigitYear (location s) t2 ->
  logFileName s t1 = logFileName s t2 <->
  civilHour (location s) t1 = civilHour (location s) t2.
Proof.
  intros Hc1 Hc2. unfold logFileName.
  pose proof (bucket_fields _ _ Hc1) as Hf1. pose proof (bucket_fields _ _ Hc2) as Hf2.
  cbn zeta in Hf1, Hf2.
  pose proof (civilHour_abs (location s) t1) as Ha1.
  pose proof (civilHour_abs (location s) t2) as Ha2.
  set (a1 := unixSec t1 + offsetAt (location s) t1 + _) in *.
  set (a2 := unixSec t2 + offsetAt (location s) t2 + _) in *.
  pose proof (hours_split a1) as Hs1. pose proof (hours_split a2) as Hs2.
  split.
  - destruct (absDate a1) as [[y1 m1] d1], (absDate a2) as [[y2 m2] d2].
    destruct Hf1 as (? & ? & ? & ? & HD1 & ->). destruct Hf2 as (? & ? & ? & ? & HD2 & ->).
    intros Heq. apply bucketName_inj in Heq as (-> & -> & -> & Hh); [|lia..]. lia.
  - intros Heq. assert (Ha : a1 / 3600 = a2 / 3600) by lia.
    apply hours_same in Ha as [Hd Hh]. rewrite (absDate_day _ _ Hd) in Hf1.
    destruct (absDate a2) as [[y2 m2] d2].
    destruct Hf1 as (_ & _ & _ & _ & _ & ->). destruct Hf2 as (_ & _ & _ & _ & _ & ->).
    by rewrite Hh.
Qed.

Lemma digitChar_not_sep (k : Z) : 0 <= k < 10 -> digitChar k <> Filepath.Separator.
Proof.
  intros Hk Heq.
  assert (Hc : checkFrom (fun k => negb (bool_decide (digitChar k = Filepath.Separator)))
                 10 0 = true) by (vm_compute; reflexivity).
  pose proof (checkFrom_spec _ _ _ Hc k ltac:(lia)) as Hd. cbv beta in Hd.
  by rewrite bool_decide_eq_true_2 in Hd.
Qed.

(** A bucket file name is one real path element. *)
Lemma bucketName_real (year month day hour : Z) :
  0 <= year < 10000 -> 0 <= month < 100 -> 0 <= day < 100 -> 0 <= hour < 100 ->
  realElem (bucketName year month day hour).
Proof.
  intros Hy Hm Hd Hh. unfold bucketName, fmt4, fmt2. cbn [app list_ascii_of_string].
  split; [done|]. split; [|split; done].
  assert (H10 : forall n, 0 <= n < 100 -> 0 <= n / 10 < 10)
    by (intros n ?; split; [apply Z.div_pos | apply Z.div_lt_upper_bound]; lia).
  assert (Hmod : forall n, 0 <= n mod 10 < 10) by (intros n; apply Z.mod_pos_bound; lia).
  assert (H1000 : 0 <= year / 1000 < 10)
    by (split; [apply Z.div_pos | apply Z.div_lt_upper_bound]; lia).
  rewrite !not_elem_of_cons. repeat split;
    try (apply not_eq_sym, digitChar_not_sep; auto); try discriminate.
  apply not_elem_of_nil.
Qed.

Lemma logFileName_real (s : Server) (now : Time) :
  fourDigitYear (location s) now -> realElem (logFileName s now).
Proof.
  intros Hc. unfold logFileName. pose proof (bucket_fields _ _ Hc) as Hf. cbn zeta in Hf.
  destruct (absDate _) as [[y m] d]. destruct Hf as (? & ? & ? & ? & _ & ->).
  apply bucketName_real; lia.
Qed.

(** X15.  While the clock of the server's location shows a four-digit
    year, two times are logged to the same file exactly when they fall in
    the same civil hour of that location.  The base name of the file is the
    bucket name, which has 17 bytes. *)
Theorem one_log_file_per_civil_hour (s : Server) (t1 t2 : Time) :
  fourDigitYear (location s) t1 -> fourDigitYear (location s) t2 ->
  (logFileName s t1 = logFileName s t2 <->
   civilHour (location s) t1 = civilHour (location s) t2) /\
  (currentLogFile s t1 = currentLogFile s t2 <->
   civilHour (location s) t1 = civilHour (location s) t2) /\
  Filepath.Base (currentLogFile s t1) = logFileName s t1 /\
  length (logFileName s t1) = 17%nat.
Proof.
  intros Hc1 Hc2.
  pose proof (logFileName_civilHour s t1 t2 Hc1 Hc2) as Hiff.
  pose proof (logFileName_real s t1 Hc1) as Hr1.
  pose proof (logFileName_real s t2 Hc2) as Hr2.
  assert (Hbase : forall t, realElem (logFileName s t) ->
                            Filepath.Base (currentLogFile s t) = logFileName s t).
  { intros t Hr. unfold currentLogFile. pose proof Hr as (Hne & Hsep & _).
    destruct (Join_root_real_shape (logDir s) _ Hr) as [->|[pre ->]].
    - by apply Base_plain.
    - by apply Base_slash. }
  split; [done|]. split; [|split; [by apply Hbase|]].
  - rewrite <- Hiff. split.
    + intros Heq. rewrite <- (Hbase t1), <- (Hbase t2) by done. by rewrite Heq.
    + unfold currentLogFile. by intros ->.
  - unfold logFileName. pose proof (bucket_fields _ _ Hc1) as Hf. cbn zeta in Hf.
    destruct (absDate _) as [[y m] d]. by destruct Hf as (_ & _ & _ & _ & _ & ->).
Qed.

(** X16.  The bucket file name of a time parses back, under the layout of
    the sweep and in the server's location, to a time on a full second, not
    more than an hour and the spread of the offsets before [now] and not
    more than the spread after it.  In a fixed zone it is the start of the
    civil hour of [now], and printing it again gives the same file name. *)
Theorem bucket_name_round_trip (s : Server) (now : Time) :
  fourDigitYear (location s) now ->
  (exists t0,
     ParseInLocation bucketFileLayout (logFileName s now) (location s) = Some t0 /\
     nsec t0 = 0 /\ loc t0 = location s /\
     unixSec now - 3599 - offsetSpread (location s) <= unixSec t0
       <= unixSec now + offsetSpread (location s)) /\
  (forall offset, location s = FixedZone offset ->
     exists t0,
       ParseInLocation bucketFileLayout (logFileName s now) (location s) = Some t0 /\
       unixSec t0 = unixSec now - (unixSec now + offset) mod 3600 /\
       (unixSec t0 + offset) mod 3600 = 0 /\
       civilHour (location s) t0 = civilHour (location s) now /\
       logFileName s t0 = logFileName s now).
Proof.
  intros Hc.
  destruct (current_bucket_time (location s) now Hc) as (off & Hoff & Hparse).
  fold (logFileName s now) in Hparse.
  pose proof (Z.mod_pos_bound (unixSec now + offsetAt (location s) now) 3600 ltac:(done)).
  split.
  - eexists. split; [exact Hparse|]. cbn [nsec loc unixSec]. split; [done|]. split; [done|].
    pose proof (offsetSpread_bound _ _ _ Hoff (offsetAt_in (location s) now)).
    pose proof (offsetSpread_bound _ _ _ (offsetAt_in (location s) now) Hoff).
    lia.
  - intros offset Hfixed. eexists. split; [exact Hparse|]. cbn [unixSec].
    assert (Hat : forall t, offsetAt (location s) t = offset)
      by (intros t; by rewrite Hfixed).
    assert (Hoff' : off = offset).
    { rewrite Hfixed in Hoff. by apply list_elem_of_singleton in Hoff. }
    subst off. pose proof Hc as Hc'.
    unfold fourDigitYear, unixYear0, unixYear10000 in Hc. rewrite Hat in *.
    set (c := unixSec now + offset) in *.
    pose proof (Z.div_mod c 3600 ltac:(done)) as Hdm.
    assert (Hfloor : c - c mod 3600 - offset + offset = c / 3600 * 3600) by lia.
    assert (Hhour : civilHour (location s)
                      {| unixSec := c - c mod 3600 - offset; nsec := 0; loc := location s |}
                    = civilHour (location s) now).
    { unfold civilHour. rewrite !Hat. cbn [unixSec]. fold c.
      by rewrite Hfloor, Z.div_mul. }
    split; [lia|]. split; [by rewrite Hfloor, Z.mod_mul|]. split; [done|].
    apply logFileName_civilHour; [|exact Hc'|exact Hhour].
    unfold fourDigitYear, unixYear0, unixYear10000. rewrite Hat. cbn [unixSec].
    rewrite Hfloor.
    assert (-17268672 <= c / 3600) by (apply Z.div_le_lower_bound; lia).
    lia.
Qed.

End BucketNames.

Lemma one_log_file_per_civil_hour_witness :
  logFileName demoServer (utc 1741639020) = logFileName demoServer (utc 1741639080).
Proof.
  destruct (one_log_file_per_civil_hour demoServer (utc 1741639020) (utc 1741639080))
    as (Hiff & _).
  - vm_compute. split; first [discriminate | reflexivity].
  - vm_compute. split; first [discriminate | reflexivity].
  - apply Hiff. by vm_compute.
Defined.

Lemma bucket_name_round_trip_witness :
  exists t0,
    Time.ParseInLocation bucketFileLayout (logFileName demoServer (utc 1741639020))
      (location demoServer) = Some t0 /\
    Time.unixSec t0 = 1741636800.
Proof.
  destruct (bucket_name_round_trip demoServer (utc 1741639020)) as (_ & Hfixed).
  - vm_compute. split; first [discriminate | reflexivity].
  - destruct (Hfixed _ eq_refl) as (t0 & Hparse & Hsec & _).
    exists t0. split; [exact Hparse|]. rewrite Hsec. by vm_compute.
Defined.

(** ** The retention window *)
Section RetentionWindow.
Import Time.

(** What the sweep at [now] does to one entry of the directory. *)
Lemma sweep_outcome (s : Server) (now : Time) (d : Os.Dir) (e : Os.DirEntry) :
  e ∈ Os.entries d ->
  ((forall e', Os.Name e' = Os.Name e -> expired s now e' = false) ->
   e ∈ Os.entries (cleanupOldLogs s now d).1) /\
  (Os.readDirFails d = false -> expired s now e = true -> removable s d e = true ->
   e ∉ Os.entries (cleanupOldLogs s now d).1).
Proof.
  intros He. unfold cleanupOldLogs, Os.ReadDir.
  destruct (sweep_loop s now (Os.entries d) d []) as (_ & Hin & _).
  cbn zeta in Hin. split.
  - intros Hexp. destruct (Os.readDirFails d); [done|].
    apply Hin. split; [done|]. intros (e' & _ & He' & _ & Hn).
    by rewrite Hexp in He'.
  - intros -> Hexp Hrem [_ Hno]%Hin. apply Hno. by exists e.
Qed.

(** The bucket file of a time [t0] is not expired while [now] is less than
    the retention window, minus an hour and the spread of the offsets,
    after [t0]. *)
Lemma bucket_not_expired (s : Server) (t0 now : Time) (e : Os.DirEntry) :
  validTime now -> int64 (unixSec t0) -> validLocation (location s) ->
  0 <= retentionHours s <= 2562047 ->
  unixSec now - unixSec t0
    <= 3600 * retentionHours s - 3600 - offsetSpread (location s) ->
  Os.Name e = logFileName s t0 -> expired s now e = false.
Proof.
  intros Hns Hsec Hloc Hr Hage Hname. unfold expired. rewrite Hname. unfold logFileName.
  destruct (current_bucket_parse (location s) t0 Hsec Hloc)
    as [->|(off & Hoff & ->)]; [by rewrite andb_false_r|].
  rewrite cutoff_value by done. unfold Before. cbn [unixSec nsec].
  pose proof (offsetSpread_bound _ _ _ Hoff (offsetAt_in (location s) t0)).
  pose proof (Z.mod_pos_bound (unixSec t0 + offsetAt (location s) t0) 3600
                ltac:(done)).
  apply andb_false_iff. right. apply orb_false_iff. split.
  - apply Z.ltb_ge. lia.
  - apply andb_false_iff. left. apply Z.eqb_neq. lia.
Qed.

(** ... and is expired once [now] is more than the window plus the spread
    after [t0]. *)
Lemma bucket_expired (s : Server) (t0 now : Time) (e : Os.DirEntry) :
  validTime now -> fourDigitYear (location s) t0 ->
  0 <= retentionHours s <= 2562047 ->
  3600 * retentionHours s + offsetSpread (location s) < unixSec now - unixSec t0 ->
  Os.Name e = logFileName s t0 -> Os.IsDir e = false -> expired s now e = true.
Proof.
  intros Hns Hc Hr Hage Hname Hdir. unfold expired. rewrite Hname, Hdir. unfold logFileName.
  destruct (current_bucket_time (location s) t0 Hc) as (off & Hoff & ->).
  rewrite cutoff_value by done. unfold Before. cbn [unixSec nsec negb andb].
  pose proof (offsetSpread_bound _ _ _ (offsetAt_in (location s) t0) Hoff).
  pose proof (Z.mod_pos_bound (unixSec t0 + offsetAt (location s) t0) 3600
                ltac:(done)).
  apply orb_true_iff. left. apply Z.ltb_lt. lia.
Qed.

(** X17.  The bucket file of a time [t0] outlives every sweep made less
    than the retention window, minus one hour and the spread of the offsets
    of the location, after [t0]: it is not expired, and the sweep leaves it
    in the directory.  The window is one that a [Duration] holds, at most
    2562047 hours, and the offsets of the location fit in 32 bits. *)
Theorem bucket_kept_within_window (s : Server) (t0 now : Time) (d : Os.Dir) :
  validTime now -> int64 (unixSec t0) -> validLocation (location s) ->
  0 <= retentionHours s <= 2562047 ->
  unixSec now - unixSec t0
    <= 3600 * retentionHours s - 3600 - offsetSpread (location s) ->
  (forall e, Os.Name e = logFileName s t0 -> expired s now e = false) /\
  (forall e, e ∈ Os.entries d -> Os.Name e = logFileName s t0 ->
     e ∈ Os.entries (cleanupOldLogs s now d).1).
Proof.
  intros Hns Hsec Hloc Hr Hage.
  split; [intros e; by apply (bucket_not_expired s t0)|].
  intros e He Hname. apply sweep_outcome; [done|].
  intros e' Hn. apply (bucket_not_expired s t0); try done. congruence.
Qed.

(** X18.  The bucket file of a time [t0] is expired at every sweep made
    more than the retention window plus the spread of the offsets after
    [t0]; the sweep removes it when the directory can be read and
    [os.Remove] succeeds.  The clock of the location shows a four-digit
    year at [t0], and the window is at most 2562047 hours. *)
Theorem bucket_expired_after_window (s : Server) (t0 now : Time) (d : Os.Dir) :
  validTime now -> fourDigitYear (location s) t0 ->
  0 <= retentionHours s <= 2562047 ->
  3600 * retentionHours s + offsetSpread (location s) < unixSec now - unixSec t0 ->
  (forall e, Os.Name e = logFileName s t0 -> Os.IsDir e = false ->
     expired s now e = true) /\
  (forall e, Os.Name e = logFileName s t0 -> Os.IsDir e = false ->
     Os.readDirFails d = false -> removable s d e = true ->
     e ∉ Os.entries (cleanupOldLogs s now d).1).
Proof.
  intros Hns Hc Hr Hage.
  split; [intros e; by apply (bucket_expired s t0)|].
  intros e Hname Hdir Hread Hrem Hin.
  assert (He : e ∈ Os.entries d).
  { unfold cleanupOldLogs, Os.ReadDir in Hin. rewrite Hread in Hin.
    destruct (sweep_loop s now (Os.entries d) d []) as (_ & Hiff & _).
    by apply Hiff in Hin as [? _]. }
  revert Hin. apply sweep_outcome; try done. by apply (bucket_expired s t0).
Qed.

End RetentionWindow.

Lemma bucket_kept_within_window_witness :
  {| Os.Name := $"2025-03-10T14.log"; Os.IsDir := false |}
    ∈ Os.entries (cleanupOldLogs demoServer (utc 1741646220) marchDir).1.
Proof.
  destruct (bucket_kept_within_window demoServer (utc 1741639020) (utc 1741646220) marchDir)
    as (_ & Hkept).
  - vm_compute. split; first [discriminate | reflexivity].
  - vm_compute. split; first [discriminate | reflexivity].
  - repeat constructor; vm_compute; first [discriminate | reflexivity].
  - vm_compute. split; discriminate.
  - vm_compute. discriminate.
  - apply Hkept; [|by vm_compute].
    apply elem_of_cons. right. apply elem_of_cons. by left.
Defined.

Lemma bucket_expired_after_window_witness :
  {| Os.Name := $"2025-03-10T14.log"; Os.IsDir := false |}
    ∉ Os.entries (cleanupOldLogs demoServer (utc 1742339020) marchDir).1.
Proof.
  destruct (bucket_expired_after_window demoServer (utc 1741639020) (utc 1742339020) marchDir)
    as (_ & Hgone).
  - vm_compute. split; first [discriminate | reflexivity].
  - vm_compute. split; first [discriminate | reflexivity].
  - vm_compute. split; discriminate.
  - vm_compute. reflexivity.
  - apply Hgone; by vm_compute.
Defined.

(** ** Sweeps in a row *)
Section SweepAlgebra.
Import Time.

Lemma filter_all {A} (P : A -> Prop) `{!forall x, Decision (P x)} (l : list A) :
  (forall x, x ∈ l -> P x) -> filter P l = l.
Proof.
  induction l as [|x l IH]; intros Hall; [done|].
  rewrite filter_cons_True by (apply Hall; by left).
  f_equal. apply IH. intros y Hy. apply Hall. by right.
Qed.

Lemma filter_none {A} (P : A -> Prop) `{!forall x, Decision (P x)} (l : list A) :
  (forall x, x ∈ l -> ~ P x) -> filter P l = [].
Proof.
  induction l as [|x l IH]; intros Hno; [done|].
  rewrite filter_cons_False by (apply Hno; by left).
  apply IH. intros y Hy. apply Hno. by right.
Qed.

Lemma Dir_eta (d : Os.Dir) :
  d = {| Os.entries := Os.entries d; Os.readDirFails := Os.readDirFails d;
         Os.removeFails := Os.removeFails d |}.
Proof. by destruct d. Qed.

(** The loop of the sweep, as a filter of the directory. *)
Lemma sweep_filter (s : Server) (now : Time) (es : list Os.DirEntry) :
  forall (d : Os.Dir) (diag : list Diagnostic),
    (fold_left (fun st entry => sweepEntry s (cutoff s now) entry st) es (d, diag)).1 =
      {| Os.entries := filter (fun x => swept s now d es x = false) (Os.entries d);
         Os.readDirFails := Os.readDirFails d;
         Os.removeFails := Os.removeFails d |}.
Proof.
  induction es as [|e es IH]; intros d diag.
  { cbn [fold_left fst]. rewrite (Dir_eta d) at 1. f_equal.
    symmetry. apply filter_all. by intros x _. }
  cbn [fold_left]. rewrite sweepEntry_expired.
  destruct (expired s now e) eqn:Ee.
  - destruct (removable s d e) eqn:Er.
    + rewrite IH. cbn [Os.entries Os.readDirFails Os.removeFails]. f_equal.
      rewrite list_filter_filter. apply list_filter_iff. intros x.
      unfold swept at 2. cbn [existsb]. rewrite Ee, Er. cbn [andb].
      assert (Hsw : swept s now
                {| Os.entries := filter (fun x0 => Os.Name x0 <> Os.Name e) (Os.entries d);
                   Os.readDirFails := Os.readDirFails d;
                   Os.removeFails := Os.removeFails d |} es x = swept s now d es x)
        by reflexivity.
      rewrite Hsw, orb_false_iff, bool_decide_eq_false. fold (swept s now d es x).
      split; [intros [? ?]; split; [congruence|done] | intros [? ?]; split; [done|congruence]].
    + rewrite IH. f_equal. apply list_filter_iff. intros x.
      unfold swept at 2. cbn [existsb]. by rewrite Ee, Er.
  - rewrite IH. f_equal. apply list_filter_iff. intros x.
    unfold swept at 2. cbn [existsb]. by rewrite Ee.
Qed.

Lemma cleanup_filter (s : Server) (now : Time) (d : Os.Dir) :
  Os.readDirFails d = false ->
  (cleanupOldLogs s now d).1 =
    {| Os.entries := filter (fun x => swept s now d (Os.entries d) x = false) (Os.entries d);
       Os.readDirFails := false;
       Os.removeFails := Os.removeFails d |}.
Proof.
  intros Hread. unfold cleanupOldLogs, Os.ReadDir. rewrite Hread.
  by rewrite sweep_filter, Hread.
Qed.

Lemma swept_true (s : Server) (now : Time) (d : Os.Dir) (es : list Os.DirEntry)
    (x : Os.DirEntry) :
  swept s now d es x = true <->
  exists e, e ∈ es /\ expired s now e = true /\ removable s d e = true /\
            Os.Name e = Os.Name x.
Proof.
  unfold swept. rewrite existsb_exists. split.
  - intros (e & He%list_elem_of_In & Hb).
    apply andb_true_iff in Hb as [[? ?]%andb_true_iff ?%bool_decide_eq_true]. by exists e.
  - intros (e & He & Hexp & Hrem & Hn). exists e. split; [by apply list_elem_of_In|].
    by rewrite Hexp, Hrem, bool_decide_eq_true_2.
Qed.

Lemma swept_false (s : Server) (now : Time) (d : Os.Dir) (es : list Os.DirEntry)
    (x : Os.DirEntry) :
  swept s now d es x = false <->
  forall e, e ∈ es -> expired s now e = true -> removable s d e = true ->
            Os.Name e <> Os.Name x.
Proof.
  split.
  - intros Hsw e He Hexp Hrem Hn.
    assert (swept s now d es x = true) by (apply swept_true; by exists e). congruence.
  - intros Hno. destruct (swept s now d es x) eqn:E; [|done].
    apply swept_true in E as (e & He & Hexp & Hrem & Hn). by destruct (Hno e).
Qed.

(** Two sweeps in a row, the second at a time at which everything that was
    expired at the first still is: the directory is as after the second
    alone. *)
Lemma two_sweeps (s : Server) (t1 t2 : Time) (d : Os.Dir) :
  Os.readDirFails d = false ->
  (forall e, expired s t1 e = true -> expired s t2 e = true) ->
  (cleanupOldLogs s t2 (cleanupOldLogs s t1 d).1).1 = (cleanupOldLogs s t2 d).1.
Proof.
  intros Hread Hmono.
  rewrite (cleanup_filter s t1 d Hread).
  rewrite (cleanup_filter s t2 d Hread).
  rewrite cleanup_filter by done. cbn [Os.entries Os.removeFails]. f_equal.
  set (d1 := {| Os.entries := _ |}).
  assert (Hrem : forall y, removable s d1 y = removable s d y) by done.
  rewrite list_filter_filter. apply list_filter_iff. intros x.
  rewrite !swept_false. split.
  - intros [HA HB] e He Hexp Hr Hn. apply (HA e); [|done|by rewrite Hrem|done].
    apply list_elem_of_filter. split; [|done].
    apply swept_false. intros e' He' Hexp' Hr' Hn'.
    apply (HB e' He' Hexp' Hr'). congruence.
  - intros HC. split.
    + intros e [_ He]%list_elem_of_filter Hexp Hr. by apply HC.
    + intros e He Hexp Hr. apply HC; try done. by apply Hmono.
Qed.

(** What is expired stays expired as the clock advances. *)
Lemma expired_mono (s : Server) (t1 t2 : Time) (e : Os.DirEntry) :
  validTime t1 -> validTime t2 -> 0 <= retentionHours s <= 2562047 ->
  notAfter t1 t2 -> expired s t1 e = true -> expired s t2 e = true.
Proof.
  intros H1 H2 Hr Hle. unfold expired.
  destruct (Os.IsDir e); [done|]. cbn [negb andb].
  destruct (ParseInLocation _ _ _) as [t|]; [|done].
  rewrite !cutoff_value by done. unfold Before, notAfter in *. cbn [unixSec nsec].
  rewrite !orb_true_iff, !andb_true_iff, !Z.ltb_lt, !Z.eqb_eq. lia.
Qed.

(** X19.  A second sweep at the same time leaves the directory as the
    first left it.  When the directory can be read and every [os.Remove]
    succeeds, the second sweep prints nothing. *)
Theorem sweep_idempotent (s : Server) (now : Time) (d : Os.Dir) :
  let d' := (cleanupOldLogs s now d).1 in
  (cleanupOldLogs s now d').1 = d' /\
  (Os.readDirFails d = false -> (forall path, Os.removeFails d path = false) ->
   cleanupOldLogs s now d' = (d', [])).
Proof.
  cbn zeta.
  assert (Hfix : (cleanupOldLogs s now (cleanupOldLogs s now d).1).1
                 = (cleanupOldLogs s now d).1).
  { destruct (Os.readDirFails d) eqn:Hread.
    - unfold cleanupOldLogs at 2 3, Os.ReadDir. rewrite Hread. cbn [fst].
      unfold cleanupOldLogs, Os.ReadDir. by rewrite Hread.
    - by apply two_sweeps. }
  split; [done|]. intros Hread Hrem.
  apply injective_projections; [done|]. cbn [snd].
  rewrite (cleanup_filter s now d Hread).
  unfold cleanupOldLogs, Os.ReadDir. cbn [Os.readDirFails Os.entries].
  match goal with |- context [fold_left _ ?es (?d1, [])] =>
    destruct (sweep_loop s now es d1 []) as (_ & _ & ->) end.
  cbn [app]. rewrite (filter_none (fun e => expired s now e = true)); [done|].
  intros x [Hsw Hx]%list_elem_of_filter Hexp.
  assert (Hswept : swept s now d (Os.entries d) x = true).
  { apply swept_true. exists x. repeat split; try done.
    unfold removable. by rewrite Hrem. }
  congruence.
Qed.

Lemma periodicCleanup_last (s : Server) (ticks : list Time) (t : Time) :
  validTime t -> 0 <= retentionHours s <= 2562047 ->
  Forall (fun u => validTime u /\ notAfter u t) ticks ->
  forall (d : Os.Dir) (diag : list Diagnostic),
    Os.readDirFails d = false ->
    (fold_left
       (fun st now => let '(d', diag) := cleanupOldLogs s now st.1 in (d', st.2 ++ diag))
       (ticks ++ [t]) (d, diag)).1 = (cleanupOldLogs s t d).1.
Proof.
  intros Ht Hr. induction 1 as [|u ticks [Hu Hle] _ IH]; intros d diag Hread.
  - cbn [app fold_left fst snd]. by destruct (cleanupOldLogs s t d).
  - cbn [app fold_left fst snd].
    destruct (cleanupOldLogs s u d) as [d1 diag1] eqn:E1.
    assert (Hd1 : d1 = (cleanupOldLogs s u d).1) by (by rewrite E1).
    rewrite IH.
    + rewrite Hd1. apply two_sweeps; [done|]. intros e. by apply expired_mono.
    + rewrite Hd1, cleanup_filter by done. done.
Qed.

(** X20.  After any number of sweeps of [periodicCleanup], none of them
    later on the wall clock than the last, the directory is as after the
    last sweep alone, when nothing else changes it in between: an entry is
    left only if it was there at the start and is not expired at the last
    sweep, or could not be removed.  The directory can be read, and the
    window is at most 2562047 hours. *)
Theorem periodic_sweeps_collapse (s : Server) (ticks : list Time) (t : Time) (d : Os.Dir) :
  validTime t -> 0 <= retentionHours s <= 2562047 ->
  Forall (fun u => validTime u /\ notAfter u t) ticks ->
  Os.readDirFails d = false ->
  (periodicCleanup s (ticks ++ [t]) d).1 = (cleanupOldLogs s t d).1 /\
  (forall e, e ∈ Os.entries (periodicCleanup s (ticks ++ [t]) d).1 ->
     e ∈ Os.entries d /\ (expired s t e = true -> removable s d e = false)).
Proof.
  intros Ht Hr Hticks Hread. unfold periodicCleanup.
  rewrite periodicCleanup_last by done. split; [done|].
  rewrite cleanup_filter by done. cbn [Os.entries].
  intros e [Hsw He]%list_elem_of_filter. split; [done|]. intros Hexp.
  destruct (removable s d e) eqn:Er; [|done]. exfalso.
  assert (swept s t d (Os.entries d) e = true) by (apply swept_true; by exists e).
  congruence.
Qed.

End SweepAlgebra.

Lemma sweep_idempotent_witness :
  cleanupOldLogs demoServer (utc 1741646220)
    (cleanupOldLogs demoServer (utc 1741646220) marchDir).1
  = ((cleanupOldLogs demoServer (utc 1741646220) marchDir).1, []).
Proof.
  destruct (sweep_idempotent demoServer (utc 1741646220) marchDir) as (_ & Hquiet).
  by apply Hquiet.
Defined.

Lemma periodic_sweeps_collapse_witness :
  (periodicCleanup demoServer [utc 1741639020; utc 1741642620; utc 1741646220] marchDir).1
  = (cleanupOldLogs demoServer (utc 1741646220) marchDir).1.
Proof.
  destruct (periodic_sweeps_collapse demoServer [utc 1741639020; utc 1741642620]
              (utc 1741646220) marchDir) as (Heq & _).
  - vm_compute. split; first [discriminate | reflexivity].
  - vm_compute. split; discriminate.
  - repeat constructor; vm_compute; first [discriminate | reflexivity].
  - reflexivity.
  - exact Heq.
Defined.

(** ** The names the sweep removes *)
Section SweepNames.
Import Time.

Lemma getnum_inv (v : gostring) (fixed : bool) (n : Z) (rest : gostring) :
  getnum v fixed = Some (n, rest) ->
  exists ds, v = ds ++ rest /\ digits ds /\
             (length ds = 2%nat \/ (fixed = false /\ length ds = 1%nat)).
Proof.
  unfold getnum, digits. destruct v as [|c0 [|c1 v]]; [done| |].
  - destruct (isDigitChar c0) eqn:E0, fixed; intros [= _ <-].
    exists [c0]. repeat split; [by repeat constructor | by right].
  - destruct (isDigitChar c0) eqn:E0; [|done]. destruct (isDigitChar c1) eqn:E1.
    + intros [= _ <-]. exists [c0; c1]. repeat split; [by repeat constructor | by left].
    + destruct fixed; intros [= _ <-].
      exists [c0]. repeat split; [by repeat constructor | by right].
Qed.

Lemma skip_inv (v text rest : gostring) : skip v text = Some rest -> v = text ++ rest.
Proof.
  unfold skip. destruct (Strings.HasPrefix v text) eqn:E; [|done]. intros [= <-].
  apply HasPrefix_true in E as [t ->]. by rewrite drop_app_length.
Qed.

Lemma year_inv (f f' : fields) (v v' : gostring) :
  parseChunk stdLongYear (f, v) = Some (f', v') ->
  exists y, v = y ++ v' /\ length y = 4%nat /\ digits y.
Proof.
  cbn [parseChunk]. destruct (length v <? 4)%nat eqn:El; [done|].
  apply Nat.ltb_ge in El. destruct v as [|c0 v0]; [done|].
  destruct (isDigitChar c0); [|done].
  unfold atoi. destruct (forallb isDigitChar (take 4 (c0 :: v0))) eqn:Ed; [|done].
  cbn [mbind option_bind]. intros Heq. inversion Heq; subst.
  exists (take 4 (c0 :: v0)). split; [symmetry; exact (take_drop 4 (c0 :: v0))|].
  split; [rewrite length_take; lia|].
  unfold digits. apply Forall_forall. intros c Hc.
  rewrite forallb_forall in Ed. apply Ed. by apply list_elem_of_In.
Qed.

Lemma Lit_inv (text : gostring) (f f' : fields) (v v' : gostring) :
  parseChunk (Lit text) (f, v) = Some (f', v') -> v = text ++ v'.
Proof.
  cbn [parseChunk]. destruct (skip v text) as [rest|] eqn:E; [|discriminate].
  cbn [mbind option_bind]. intros [= _ <-]. by apply skip_inv.
Qed.

Lemma month_inv (f f' : fields) (v v' : gostring) :
  parseChunk stdZeroMonth (f, v) = Some (f', v') ->
  exists ds, v = ds ++ v' /\ digits ds /\ length ds = 2%nat.
Proof.
  cbn [parseChunk]. destruct (getnum v true) as [[n rest]|] eqn:E; [|discriminate].
  cbn [mbind option_bind]. destruct (_ || _); [discriminate|].
  intros Heq. inversion Heq; subst.
  apply getnum_inv in E as (ds & -> & Hd & [Hl|[? _]]); [|done]. by exists ds.
Qed.

Lemma day_inv (f f' : fields) (v v' : gostring) :
  parseChunk stdZeroDay (f, v) = Some (f', v') ->
  exists ds, v = ds ++ v' /\ digits ds /\ length ds = 2%nat.
Proof.
  cbn [parseChunk]. destruct (getnum v true) as [[n rest]|] eqn:E; [|discriminate].
  cbn [mbind option_bind]. intros Heq. inversion Heq; subst.
  apply getnum_inv in E as (ds & -> & Hd & [Hl|[? _]]); [|done]. by exists ds.
Qed.

Lemma hour_inv (f f' : fields) (v v' : gostring) :
  parseChunk stdHour (f, v) = Some (f', v') ->
  exists ds, v = ds ++ v' /\ digits ds /\ (length ds = 1%nat \/ length ds = 2%nat).
Proof.
  cbn [parseChunk]. destruct (getnum v false) as [[n rest]|] eqn:E; [|discriminate].
  cbn [mbind option_bind]. destruct (_ || _); [discriminate|].
  intros Heq. inversion Heq; subst.
  apply getnum_inv in E as (ds & -> & Hd & Hl). exists ds.
  repeat split; try done. destruct Hl as [?|[_ ?]]; auto.
Qed.

(** What parses under the layout of the sweep has the shape of a bucket
    file name. *)
Lemma parse_bucketShaped (name : gostring) (l : Location) (t : Time) :
  ParseInLocation bucketFileLayout name l = Some t -> bucketShaped name.
Proof.
  unfold ParseInLocation, bucketFileLayout, bucketLayout. cbn [app parseChunks].
  destruct (parseChunk stdLongYear _) as [[f1 v1]|] eqn:E1;
    cbn [mbind option_bind]; [|discriminate].
  destruct (parseChunk (Lit $"-") (f1, v1)) as [[f2 v2]|] eqn:E2;
    cbn [mbind option_bind]; [|discriminate].
  destruct (parseChunk stdZeroMonth (f2, v2)) as [[f3 v3]|] eqn:E3;
    cbn [mbind option_bind]; [|discriminate].
  destruct (parseChunk (Lit $"-") (f3, v3)) as [[f4 v4]|] eqn:E4;
    cbn [mbind option_bind]; [|discriminate].
  destruct (parseChunk stdZeroDay (f4, v4)) as [[f5 v5]|] eqn:E5;
    cbn [mbind option_bind]; [|discriminate].
  destruct (parseChunk (Lit $"T") (f5, v5)) as [[f6 v6]|] eqn:E6;
    cbn [mbind option_bind]; [|discriminate].
  destruct (parseChunk stdHour (f6, v6)) as [[f7 v7]|] eqn:E7;
    cbn [mbind option_bind]; [|discriminate].
  destruct (parseChunk (Lit $".log") (f7, v7)) as [[f8 v8]|] eqn:E8;
    cbn [mbind option_bind]; [|discriminate].
  case_bool_decide as Hrest; [|discriminate]. subst v8. intros _.
  apply year_inv in E1 as (y & -> & Hy & Hdy). apply Lit_inv in E2 as ->.
  apply month_inv in E3 as (m & -> & Hdm & Hm). apply Lit_inv in E4 as ->.
  apply day_inv in E5 as (d & -> & Hdd & Hd). apply Lit_inv in E6 as ->.
  apply hour_inv in E7 as (h & -> & Hdh & Hh). apply Lit_inv in E8 as ->.
  exists y, m, d, h. by rewrite app_nil_r.
Qed.

(** X21.  The sweep removes only what is named like a bucket file.  An
    entry it finds expired is no directory, and its name is four digits, two
    digits and two digits joined by hyphens, [T], one or two digits and
    [.log]; an entry of the directory that is gone after the sweep has such
    a name, of 16 or 17 bytes.  (The hour may have a single digit, though
    [currentLogFile] always prints two.) *)
Theorem sweep_removes_only_bucket_names (s : Server) (now : Time) (d : Os.Dir) :
  (forall e, expired s now e = true -> Os.IsDir e = false /\ bucketShaped (Os.Name e)) /\
  (forall x, x ∈ Os.entries d -> x ∉ Os.entries (cleanupOldLogs s now d).1 ->
     bucketShaped (Os.Name x)) /\
  (forall name, bucketShaped name -> (16 <= length name <= 17)%nat).
Proof.
  assert (Hexp : forall e, expired s now e = true ->
                           Os.IsDir e = false /\ bucketShaped (Os.Name e)).
  { intros e. unfold expired. destruct (Os.IsDir e); [done|]. cbn [negb andb].
    destruct (ParseInLocation _ _ _) as [t|] eqn:Ep; [|done]. intros _.
    split; [done|]. by eapply parse_bucketShaped. }
  split; [done|]. split.
  - intros x Hx Hgone. destruct (Os.readDirFails d) eqn:Hread.
    { exfalso. apply Hgone. unfold cleanupOldLogs, Os.ReadDir. by rewrite Hread. }
    rewrite cleanup_filter in Hgone by done. cbn [Os.entries] in Hgone.
    destruct (swept s now d (Os.entries d) x) eqn:Esw.
    + apply swept_true in Esw as (e & _ & He & _ & Hn). rewrite <- Hn. by apply Hexp.
    + exfalso. apply Hgone. by apply list_elem_of_filter.
  - intros name (y & m & dd & h & -> & Hy & Hm & Hd & Hh & _).
    rewrite !length_app, Hy, Hm, Hd. cbn [length list_ascii_of_string].
    destruct Hh as [-> | ->]; lia.
Qed.

End SweepNames.

Lemma sweep_removes_only_bucket_names_witness :
  bucketShaped $"2025-03-01T09.log".
Proof.
  destruct (sweep_removes_only_bucket_names demoServer (utc 1741646220) marchDir)
    as (Hexp & _).
  by destruct (Hexp {| Os.Name := $"2025-03-01T09.log"; Os.IsDir := false |} eq_refl).
Defined.

(** ** [init] and [main] *)
Section ProcessFacts.
Import Time.

(** X22.  [init] leaves the file mode creation mask of the process as it
    found it: it sets the mask to 0 and then back to the value it read.  The
    mask after [init] is the mask before it, reduced to its permission
    bits.  The default mux has no pattern registered. *)
Theorem init_leaves_umask (p : Process) :
  fileModeMask (init p) = Z.land (fileModeMask p) 511 /\
  (0 <= fileModeMask p < 512 -> fileModeMask (init p) = fileModeMask p) /\
  DefaultServeMux (init p) = [].
Proof.
  unfold init, Syscall.Umask. cbn [fileModeMask DefaultServeMux].
  split; [done|]. split; [|done].
  intros Hu. change 511 with (Z.ones 9). rewrite Z.land_ones by lia.
  apply Z.mod_small. lia.
Qed.

Lemma getEnv_value (env : gmap gostring gostring) (key dflt : gostring) :
  getEnv env key dflt =
    match env !! key with
    | Some (c :: v) => c :: v
    | _ => dflt
    end.
Proof.
  unfold getEnv, Getenv. destruct (env !! key) as [[|c v]|]; reflexivity.
Qed.

Lemma getEnv_nonempty (env : gmap gostring gostring) (key dflt : gostring) :
  dflt <> [] -> getEnv env key dflt <> [].
Proof.
  intros Hd. rewrite getEnv_value. by destruct (env !! key) as [[|c v]|].
Qed.

(** X23.  [main] stops before the first sweep when the log directory
    cannot be created.  Otherwise it sweeps once and serves with a server
    whose roots are the values of [WWW_ROOT] and [LOG_DIR], or the defaults
    when a variable is unset or empty, and so never empty; whose location is
    the loaded one, or the fixed zone six hours west of UTC; and whose
    retention window is 168 hours whatever the environment.  With offsets
    that differ by at most 167 hours the first sweep leaves the bucket file
    of the current hour in the directory. *)
Theorem main_serves_with_fixed_retention (env : gmap gostring gostring)
    (loadLocation : option Location) (now : Time) (d : Os.Dir) :
  (main env loadLocation true now d).2 = None /\
  exists srv d',
    (main env loadLocation false now d).2 = Some (srv, d') /\
    wwwRoot srv = getEnv env $"WWW_ROOT" $"/var/www" /\
    logDir srv = getEnv env $"LOG_DIR" $"/var/log/app" /\
    wwwRoot srv <> [] /\ logDir srv <> [] /\
    (env !! $"WWW_ROOT" = None \/ env !! $"WWW_ROOT" = Some [] ->
     wwwRoot srv = $"/var/www") /\
    retentionHours srv = 168 /\
    location srv = default (FixedZone (-21600)) loadLocation /\
    d' = (cleanupOldLogs srv now d).1 /\
    (validTime now -> int64 (unixSec now) -> validLocation (location srv) ->
     offsetSpread (location srv) <= 167 * 3600 ->
     forall e, e ∈ Os.entries d -> Os.Name e = logFileName srv now ->
               e ∈ Os.entries d').
Proof.
  unfold main. split.
  { by destruct loadLocation. }
  set (srv := {| wwwRoot := getEnv env $"WWW_ROOT" $"/var/www";
                 logDir := getEnv env $"LOG_DIR" $"/var/log/app";
                 location := default (FixedZone (-21600)) loadLocation;
                 retentionHours := 168 |}).
  exists srv, (cleanupOldLogs srv now d).1.
  split; [|split; [done|split; [done|split; [|split; [|split; [|split; [done|split;
    [done|split; [done|]]]]]]]]].
  - unfold srv. destruct loadLocation as [l|]; cbn [default]; cbv beta iota zeta;
      change (-6 * 60 * 60) with (-21600);
      by destruct (cleanupOldLogs _ now d).
  - by apply getEnv_nonempty.
  - by apply getEnv_nonempty.
  - change (wwwRoot srv) with (getEnv env $"WWW_ROOT" $"/var/www").
    rewrite getEnv_value. by intros [-> | ->].
  - intros Hns Hsec Hloc Hspread e He Hname.
    apply sweep_outcome; [done|]. intros e' Hn.
    apply (bucket_not_expired srv now); try done; try congruence;
      change (retentionHours srv) with 168;
      change (location srv) with (default (FixedZone (-21600)) loadLocation) in *; lia.
Qed.

End ProcessFacts.

Lemma init_leaves_umask_witness :
  fileModeMask (init {| DefaultServeMux := [$"/debug/pprof/"]; fileModeMask := 18 |}) = 18.
Proof.
  destruct (init_leaves_umask {| DefaultServeMux := [$"/debug/pprof/"]; fileModeMask := 18 |})
    as (_ & Hsame & _).
  apply Hsame. by vm_compute.
Defined.

Lemma main_serves_with_fixed_retention_witness :
  exists srv d',
    (main {[ $"WWW_ROOT" := $"" ]} None false (utc 1741639020) marchDir).2 = Some (srv, d') /\
    wwwRoot srv = $"/var/www" /\ retentionHours srv = 168.
Proof.
  destruct (main_serves_with_fixed_retention {[ $"WWW_ROOT" := $"" ]} None
              (utc 1741639020) marchDir)
    as (_ & srv & d' & Hmain & _ & _ & _ & _ & Hroot & Hret & _).
  exists srv, d'. split; [exact Hmain|]. split; [|exact Hret].
  apply Hroot. right. by vm_compute.
Defined.
